(** * resample.py: resampling an irregular time series onto a regular grid

    A shallow embedding of [resample_dataframe] (src/resample.py, lines
    22-50) together with the parts of Python, NumPy and pandas it calls.

    - Times and values are IEEE binary64 numbers, as in the [float] columns
      of the input frame; they are Rocq's primitive floats, so that every
      definition below evaluates on concrete inputs with the machine's own
      rounding.  [nan] is the missing-value placeholder.
    - [max_value] and [step] are Python numbers: an [int] or a [float].
    - Exceptions are the [Err] results of a small error monad.
    - The SciPy interpolators behind the methods that pandas hands over to
      SciPy are a parameter of the development; the NumPy-based methods
      ([linear], [index], [values]) and the fill methods are modelled in
      full.
    - pandas is the 1.x/2.x line: [interpolate] still takes the fill
      methods, validates the method name before it looks at the data, and
      [reindex] refuses an axis with duplicate labels.

    - Of [main] (lines 53-77) the loop over the parsed files is embedded
      (lines 68-73): the frames it hands to [concat].  Parsing the
      command line, [read_csv], [concat] and [to_csv] are outside.

    The first part is the program and its libraries; the second part
    proves facts about them, first on lists and columns, then on the
    stages of the resampler; the third part states and proves the
    properties of the specification, C1 to C10; the last part proves
    further properties of the program, X1 to X16, among them those of the
    call [main] makes, with a float step. *)

From Stdlib Require Import ZArith List Bool String Lia Sorted Permutation.
From Stdlib Require Import Floats.
Import ListNotations.

Set Warnings "-inexact-float".
Open Scope Z_scope.

(** ** Exceptions and the error monad *)

Inductive error : Type :=
| IntCastingNaNError    (* astype(int): non-finite value *)
| CastRangeError        (* astype(int): value outside int64; left to the platform by NumPy *)
| ZeroDivisionError     (* np.arange: step is zero *)
| ArangeLengthError     (* np.arange: the length cannot be computed or is too large *)
| ModelRangeError       (* integer grid bounds of 2^53 and beyond are outside the model *)
| OverflowError         (* float(int) or int(float) on a value that does not convert *)
| DuplicateLabelsError  (* reindex: cannot reindex on an axis with duplicate labels *)
| InvalidMethodError    (* interpolate: method must be one of ... *)
| TimeIndexError        (* interpolate: method 'time' needs a DatetimeIndex *)
| MonotonicIndexError   (* interpolate: krogh, pchip need a monotonic index *)
| TooFewEntriesError    (* scipy interp1d: x and y arrays must have at least n entries *)
| ShapeError            (* assignment of an array of the wrong length *)
| BackendError.         (* an error raised inside a SciPy interpolator *)

Inductive result (A : Type) : Type :=
| Ok (a : A)
| Err (e : error).

Arguments Ok {A} a.
Arguments Err {A} e.

Definition bind {A B : Type} (c : result A) (k : A -> result B) : result B :=
  match c with
  | Ok a => k a
  | Err e => Err e
  end.

Notation "x <- c ;; k" := (bind c (fun x => k))
  (at level 61, c at next level, right associativity).

Fixpoint mapM {A B : Type} (f : A -> result B) (l : list A) : result (list B) :=
  match l with
  | [] => Ok []
  | a :: t => b <- f a ;; bs <- mapM f t ;; Ok (b :: bs)
  end.

(** ** Binary64 helpers *)

Module F64.

(** Conversion of an integer, rounded to nearest even (C and NumPy casts,
    Python's [float(int)]). *)
Definition of_Z (z : Z) : float :=
  SF2Prim (binary_normalize prec emax z 0 false).

(** Magnitude of a finite number [m * 2^e] split into its integer part
    and whether a fraction is left. *)
Definition int_part (m : positive) (e : Z) : Z :=
  match e with
  | Zneg p => Zpos m / 2 ^ Zpos p
  | _ => Zpos m * 2 ^ e
  end.

Definition frac_part (m : positive) (e : Z) : Z :=
  match e with
  | Zneg p => Zpos m mod 2 ^ Zpos p
  | _ => 0
  end.

Definition signed (s : bool) (a : Z) : Z := if s then - a else a.

(** Truncation toward zero: C's double to integer conversion, Python's
    [int(x)].  [None] on NaN and the infinities. *)
Definition SFtrunc (x : spec_float) : option Z :=
  match x with
  | S754_zero _ => Some 0
  | S754_finite s m e => Some (signed s (int_part m e))
  | _ => None
  end.

Definition trunc (x : float) : option Z := SFtrunc (Prim2SF x).

(** Ceiling. *)
Definition SFceil (x : spec_float) : option Z :=
  match x with
  | S754_zero _ => Some 0
  | S754_finite s m e =>
      let q := int_part m e in
      if s then Some (- q)
      else Some (if frac_part m e =? 0 then q else q + 1)
  | _ => None
  end.

Definition ceil (x : float) : option Z := SFceil (Prim2SF x).

(** The integer a float is exactly equal to, if any. *)
Definition SFexact (x : spec_float) : option Z :=
  match x with
  | S754_zero _ => Some 0
  | S754_finite s m e =>
      if frac_part m e =? 0 then Some (signed s (int_part m e)) else None
  | _ => None
  end.

Definition exact_Z (x : float) : option Z := SFexact (Prim2SF x).

(** [rint]: round to the nearest integer, ties to even, keeping the sign
    (also of a zero result); NaN and the infinities are returned as they
    are. *)
Definition round_half_even (m : positive) (e : Z) : Z :=
  match e with
  | Zneg p =>
      let q := Zpos m / 2 ^ Zpos p in
      let r := Zpos m mod 2 ^ Zpos p in
      let half := 2 ^ (Zpos p - 1) in
      if r <? half then q
      else if half <? r then q + 1
      else if Z.even q then q else q + 1
  | _ => Zpos m * 2 ^ e
  end.

Definition rint (x : float) : float :=
  match Prim2SF x with
  | S754_finite s m (Zneg p) =>
      let r := of_Z (round_half_even m (Zneg p)) in
      if s then (- r)%float else r
  | _ => x
  end.

(** [x % d == 0] for a float [x] and an integer divisor [d], as NumPy
    computes it: the divisor is converted to binary64, the remainder of a
    finite [x] is zero exactly when [x] is an integer multiple of it, and
    a zero divisor gives NaN, which is not equal to zero. *)
Definition mod_is_zero (x : float) (d : Z) : bool :=
  match exact_Z x, exact_Z (of_Z d) with
  | Some z, Some dz => if dz =? 0 then false else z mod dz =? 0
  | _, _ => false
  end.

(** Hash-table equality of pandas' [duplicated]: equal numbers, or two
    NaNs. *)
Definition key_eqb (a b : float) : bool :=
  (a =? b)%float || (is_nan a && is_nan b).

End F64.

(** ** Python numbers *)

Inductive pynum : Type :=
| PyInt (z : Z)
| PyFloat (f : float).

(** [x * n] for a Python int [n]. *)
Definition py_mul_int (x : pynum) (n : Z) : pynum :=
  match x with
  | PyInt z => PyInt (z * n)
  | PyFloat f => PyFloat (f * F64.of_Z n)%float
  end.

(** [float(x)]. *)
Definition py_float (x : pynum) : result float :=
  match x with
  | PyInt z => let f := F64.of_Z z in if is_finite f then Ok f else Err OverflowError
  | PyFloat f => Ok f
  end.

(** [int(x)]. *)
Definition py_int (x : pynum) : result Z :=
  match x with
  | PyInt z => Ok z
  | PyFloat f =>
      match F64.trunc f with
      | Some z => Ok z
      | None => Err OverflowError
      end
  end.

(** ** Constants of the program (lines 14-17) *)

Definition DECIMAL_POINTS : Z := 4.

(** [precision = 10**DECIMAL_POINTS] (line 29). *)
Definition precision : Z := 10 ^ DECIMAL_POINTS.

(** ** NumPy *)

Module Np.

Inductive ndarray : Type :=
| IntArray (l : list Z)
| FloatArray (l : list float).

Definition size (a : ndarray) : nat :=
  match a with
  | IntArray l => List.length l
  | FloatArray l => List.length l
  end.

(** Bound of the integer grids the model covers.  NumPy derives the
    length of an integer range from the quotient [stop / step] rounded to
    binary64; below [2^53] the ceiling of that quotient is the exact
    one, which is what [arange] computes here. *)
Definition in_model_range (z : Z) : bool := Z.abs z <? 2 ^ 53.

Definition ceil_div (a d : Z) : Z := - ((- a) / d).

(** Entry [i] of a range: [start + i * delta] with [start = 0]. *)
Definition int_tick (d : Z) (i : nat) : Z := 0 + Z.of_nat i * d.

Definition float_tick (d : float) (i : nat) : float :=
  (zero + F64.of_Z (Z.of_nat i) * d)%float.

(** [np.arange(0, stop, step)]: an integer array when both bounds are
    Python ints, a float array otherwise. *)
Definition arange (stop step : pynum) : result ndarray :=
  match stop, step with
  | PyInt a, PyInt d =>
      if d =? 0 then Err ZeroDivisionError
      else if in_model_range a && in_model_range d then
        Ok (IntArray (map (int_tick d) (seq 0 (Z.to_nat (ceil_div a d)))))
      else Err ModelRangeError
  | _, _ =>
      a <- py_float stop ;;
      d <- py_float step ;;
      if (d =? zero)%float then Err ZeroDivisionError
      else
        match F64.ceil (a / d)%float with
        | None => Err ArangeLengthError
        | Some n =>
            if n <? 2 ^ 63 then
              Ok (FloatArray (map (float_tick d) (seq 0 (Z.to_nat n))))
            else Err ArangeLengthError
        end
  end.

(** [np.interp(x, xp, fp)] on sample points sorted by abscissa: the value
    of the first or the last point outside their range, the ordinate of
    a point hit exactly, and the line through the two neighbours
    otherwise (with NumPy's second attempt from the right neighbour when
    the first formula gives NaN). *)
Definition segment (x : float) (p q : float * float) : float :=
  let slope := ((snd q - snd p) / (fst q - fst p))%float in
  let r := (slope * (x - fst p) + snd p)%float in
  if is_nan r then
    let r' := (slope * (x - fst q) + snd q)%float in
    if is_nan r' && (snd p =? snd q)%float then snd p else r'
  else r.

Fixpoint interp_from (x : float) (p : float * float)
    (rest : list (float * float)) : float :=
  match rest with
  | [] => snd p
  | q :: rest' =>
      if (x <? fst q)%float then
        if (fst p =? x)%float then snd p else segment x p q
      else interp_from x q rest'
  end.

Definition interp (x : float) (pts : list (float * float)) : float :=
  match pts with
  | [] => nan
  | p :: rest =>
      if is_nan x then x
      else if (x <? fst p)%float then snd p
      else interp_from x p rest
  end.

(** [np.round(x, decimals)]: scale, [rint], scale back. *)
Definition round (decimals : Z) (x : float) : float :=
  let f := F64.of_Z (10 ^ decimals) in
  (F64.rint (x * f) / f)%float.

End Np.

(** ** pandas *)

Module Pd.

(** The two index dtypes the program meets: [int64] when the grid comes
    from Python ints, [float64] as soon as [max_value] or [step] is a
    float (the integer sample index is then cast to [float64] by
    [union]). *)
Class Label (L : Type) : Type := {
  of_int64 : Z -> L;
  leb : L -> L -> bool;
  eqb : L -> L -> bool;
  to_float : L -> float;
  (* [label % d == 0]; a zero divisor gives a missing value, not zero *)
  mod_is_zero : L -> Z -> bool
}.

#[global] Instance Int64Label : Label Z := {|
  of_int64 := fun k => k;
  leb := Z.leb;
  eqb := Z.eqb;
  to_float := F64.of_Z;
  mod_is_zero := fun k d => if d =? 0 then false else k mod d =? 0
|}.

#[global] Instance Float64Label : Label float := {|
  of_int64 := F64.of_Z;
  leb := PrimFloat.leb;
  eqb := PrimFloat.eqb;
  to_float := fun x => x;
  mod_is_zero := F64.mod_is_zero
|}.

(** [drop_duplicates(keep='last')]: an entry goes when an equal one comes
    later. *)
Fixpoint drop_duplicates {A : Type} (same : A -> A -> bool) (l : list A) : list A :=
  match l with
  | [] => []
  | a :: t =>
      if existsb (same a) t then drop_duplicates same t
      else a :: drop_duplicates same t
  end.

Fixpoint has_duplicates {A : Type} (same : A -> A -> bool) (l : list A) : bool :=
  match l with
  | [] => false
  | a :: t => existsb (same a) t || has_duplicates same t
  end.

(** Rows of the input frame are equal for [drop_duplicates('time', ...)]
    when their times are. *)
Definition same_time (r r' : float * float) : bool :=
  F64.key_eqb (fst r) (fst r').

(** [astype(int)] on a float column: an error on NaN and the infinities,
    truncation toward zero otherwise. *)
Definition astype_int (x : float) : result Z :=
  match F64.trunc x with
  | None => Err IntCastingNaNError
  | Some z =>
      if (- 2 ^ 63 <=? z) && (z <? 2 ^ 63) then Ok z else Err CastRangeError
  end.

(** [df['time'].mul(precision).astype(int)] on one row (line 33). *)
Definition scale_time (r : float * float) : result (Z * float) :=
  k <- astype_int (fst r * F64.of_Z precision)%float ;;
  Ok (k, snd r).

Section Index.

Context {L : Type} `{Label L}.

Fixpoint insert (x : L) (l : list L) : list L :=
  match l with
  | [] => [x]
  | y :: t => if leb x y then x :: l else y :: insert x t
  end.

Fixpoint sort (l : list L) : list L :=
  match l with
  | [] => []
  | x :: t => insert x (sort t)
  end.

Fixpoint equals (l l' : list L) : bool :=
  match l, l' with
  | [], [] => true
  | x :: t, y :: t' => eqb x y && equals t t'
  | _, _ => false
  end.

(** [Index.union(other)] with the default [sort=None]: the left index when
    the right one is empty or equal to it, the right one when the left one
    is empty, and otherwise the left labels followed by the right labels
    that are not among them, sorted. *)
Definition union (self other : list L) : list L :=
  match self, other with
  | _, [] => self
  | [], _ => other
  | _, _ =>
      if equals self other then self
      else sort (self ++ filter (fun x => negb (existsb (eqb x) self)) other)
  end.

(** [is_monotonic_increasing]. *)
Fixpoint is_monotonic (l : list L) : bool :=
  match l with
  | x :: ((y :: _) as t) => leb x y && is_monotonic t
  | _ => true
  end.

(** [df.reindex(new_index)] for a frame whose integer index is [map fst
    df]: refused when that index has duplicate labels; otherwise every new
    label carries the value of the row with that label, or NaN. *)
Definition lookup (df : list (Z * float)) (x : L) : float :=
  match find (fun r => eqb (of_int64 (fst r)) x) df with
  | Some r => snd r
  | None => nan
  end.

Definition reindex (df : list (Z * float)) (new_index : list L) : result (list float) :=
  if has_duplicates Z.eqb (map fst df) then Err DuplicateLabelsError
  else Ok (map (lookup df) new_index).

End Index.

(** [ffill] and [bfill] on a column. *)
Fixpoint ffill_from (last : float) (ys : list float) : list float :=
  match ys with
  | [] => []
  | y :: t => if is_nan y then last :: ffill_from last t else y :: ffill_from y t
  end.

Definition ffill (ys : list float) : list float := ffill_from nan ys.

Fixpoint bfill (ys : list float) : list float :=
  match ys with
  | [] => []
  | y :: t => let t' := bfill t in (if is_nan y then hd nan t' else y) :: t'
  end.

(** *** [interpolate] *)

Definition NP_METHODS : list string :=
  ["linear"; "time"; "index"; "values"]%string.

Definition SP_METHODS : list string :=
  ["nearest"; "zero"; "slinear"; "quadratic"; "cubic"; "barycentric";
   "krogh"; "spline"; "polynomial"; "from_derivatives";
   "piecewise_polynomial"; "pchip"; "akima"; "cubicspline"]%string.

Definition FORWARD_FILL : list string := ["ffill"; "pad"]%string.
Definition BACKWARD_FILL : list string := ["bfill"; "backfill"]%string.
Definition MONOTONIC_METHODS : list string :=
  ["krogh"; "piecewise_polynomial"; "pchip"]%string.

Definition mem (s : string) (l : list string) : bool := existsb (String.eqb s) l.

(** The method names [interpolate] accepts. *)
Definition supported (method : string) : bool :=
  mem method FORWARD_FILL || mem method BACKWARD_FILL
  || mem method NP_METHODS || mem method SP_METHODS.

(** Least number of observed points [scipy.interpolate.interp1d] takes for
    the kinds pandas passes to it: one more than the order of the spline. *)
Definition interp1d_min_entries (method : string) (order : Z) : option Z :=
  if String.eqb method "nearest" then Some 1
  else if String.eqb method "zero" then Some 1
  else if String.eqb method "slinear" then Some 2
  else if String.eqb method "quadratic" then Some 3
  else if String.eqb method "cubic" then Some 4
  else if String.eqb method "polynomial" then Some (order + 1)
  else None.

Definition observed (r : float * float) : bool := negb (is_nan (snd r)).
Definition missing (r : float * float) : bool := is_nan (snd r).

(** Points sorted by abscissa ([argsort] before [np.interp]). *)
Fixpoint insert_point (p : float * float) (l : list (float * float)) :=
  match l with
  | [] => [p]
  | q :: t => if (fst p <=? fst q)%float then p :: l else q :: insert_point p t
  end.

Fixpoint sort_points (l : list (float * float)) : list (float * float) :=
  match l with
  | [] => []
  | p :: t => insert_point p (sort_points t)
  end.

(** [result[invalid] = new_y; result[preserve_nans] = nan]: with the
    default forward direction and no limit, the missing entries before the
    first observed one stay missing; the others take the interpolated
    values in order. *)
Fixpoint fill_missing (seen : bool) (ys new_y : list float) : list float :=
  match ys with
  | [] => []
  | y :: t =>
      if is_nan y then
        (if seen then hd nan new_y else nan) :: fill_missing seen t (tl new_y)
      else y :: fill_missing true t new_y
  end.

Section Interpolate.

(** The SciPy interpolators: method name, order, observed points and the
    abscissas to fill. *)
Variable scipy : string -> Z -> list (float * float) -> list float -> result (list float).

Definition interpolated_values (method : string) (order : Z)
    (pts : list (float * float)) (new_x : list float) : result (list float) :=
  if mem method NP_METHODS then
    Ok (map (fun x => Np.interp x (sort_points pts)) new_x)
  else
    match interp1d_min_entries method order with
    | Some n =>
        if Z.of_nat (List.length pts) <? n then Err TooFewEntriesError
        else scipy method order pts new_x
    | None => scipy method order pts new_x
    end.

(** [interpolate_1d] of pandas' [missing] module. *)
Definition interpolate_1d (method : string) (order : Z)
    (xs ys : list float) : result (list float) :=
  if forallb is_nan ys then Ok ys
  else if forallb (fun y => negb (is_nan y)) ys then Ok ys
  else if String.eqb method "time" then Err TimeIndexError
  else
    let rows := combine xs ys in
    let new_x := map fst (filter missing rows) in
    new_y <- interpolated_values method order (filter observed rows) new_x ;;
    if Nat.eqb (List.length new_y) (List.length new_x) then
      Ok (fill_missing false ys new_y)
    else Err ShapeError.

(** [df.interpolate(method=method, order=order)] on the value column of a
    frame with index [index] (line 40). *)
Definition interpolate {L : Type} `{Label L} (method : string) (order : Z)
    (index : list L) (ys : list float) : result (list float) :=
  match index with
  | [] => Ok ys
  | _ =>
      if mem method FORWARD_FILL then Ok (ffill ys)
      else if mem method BACKWARD_FILL then Ok (bfill ys)
      else if negb (mem method NP_METHODS || mem method SP_METHODS) then
        Err InvalidMethodError
      else if mem method MONOTONIC_METHODS && negb (is_monotonic index) then
        Err MonotonicIndexError
      else
        let xs :=
          if String.eqb method "linear" then
            map (fun i => F64.of_Z (Z.of_nat i)) (seq 0 (List.length index))
          else map to_float index in
        interpolate_1d method order xs ys
  end.

End Interpolate.

End Pd.

(** ** The resampler (lines 22-50) *)

Section Resample.

Variable scipy : string -> Z -> list (float * float) -> list float -> result (list float).

(** Lines 37-44 at one index dtype: [df] is the frame indexed by the scaled
    integer times, [regular_ticks] the grid; the result is
    [filtered_dataframe], still indexed by scaled times. *)
Definition filtered_on {L : Type} `{Pd.Label L} (df : list (Z * float))
    (regular_ticks : list L) (step : pynum) (method : string) (order : Z)
    : result (list (L * float)) :=
  let new_index :=
    Pd.drop_duplicates Pd.eqb
      (Pd.union (map (fun r => Pd.of_int64 (fst r)) df) regular_ticks) in
  ys <- Pd.reindex df new_index ;;
  ys <- Pd.interpolate scipy method order new_index ys ;;
  let ys := Pd.bfill (Pd.ffill ys) in
  let ys := map (Np.round DECIMAL_POINTS) ys in
  d <- py_int (py_mul_int step precision) ;;
  Ok (filter (fun r => Pd.mod_is_zero (fst r) d) (combine new_index ys)).

(** Lines 45-48: the index goes back to seconds. *)
Definition rescale {L : Type} `{Pd.Label L} (r : L * float) : float * float :=
  ((Pd.to_float (fst r) / F64.of_Z precision)%float, snd r).

Definition resample_on {L : Type} `{Pd.Label L} (df : list (Z * float))
    (regular_ticks : list L) (step : pynum) (method : string) (order : Z)
    : result (list (float * float)) :=
  filtered_dataframe <- filtered_on df regular_ticks step method order ;;
  Ok (map rescale filtered_dataframe).

Definition resample_dataframe (dataframe : list (float * float))
    (max_value step : pynum) (method : string) (order : Z)
    : result (list (float * float)) :=
  let df := Pd.drop_duplicates Pd.same_time dataframe in
  df <- mapM Pd.scale_time df ;;
  regular_ticks <- Np.arange (py_mul_int max_value precision)
                             (py_mul_int step precision) ;;
  match regular_ticks with
  | Np.IntArray g => resample_on df g step method order
  | Np.FloatArray g => resample_on df g step method order
  end.

End Resample.

(** ** [main] (lines 53-77), from the parsed frames to the list [frames] *)

Section Main.

Variable scipy : string -> Z -> list (float * float) -> list float -> result (list float).

(** Line 72: one parsed file, resampled with [max_value=3600] and
    [step=0.01]; [order] keeps its default. *)
Definition resampled_dataframe (method : string) (dataframe : list (float * float))
    : result (list (float * float)) :=
  resample_dataframe scipy dataframe (PyInt 3600) (PyFloat 0.01) method 1.

(** Lines 68-73: the list [frames], for the frames [read_csv] has parsed. *)
Definition frames (method : string) (dataframes : list (list (float * float)))
    : result (list (list (float * float))) :=
  mapM (resampled_dataframe method) dataframes.

End Main.

(** ** Vocabulary of the statements *)

(** [np.arange(0, M, s)] for Python ints, as a list. *)
Definition grid (M s : Z) : list Z :=
  map (Np.int_tick s) (seq 0 (Z.to_nat (Np.ceil_div M s))).

(** A column keeps the observed entries of another one: same length, and
    every entry that is not missing is unchanged. *)
Definition keeps (ys ys' : list float) : Prop :=
  Forall2 (fun y y' => is_nan y = false -> y' = y) ys ys'.

(** The index of the frame after line 37, on an integer grid [g]. *)
Definition new_index (df : list (Z * float)) (g : list Z) : list Z :=
  Pd.drop_duplicates Z.eqb (Pd.union (map fst df) g).

(** The time, in seconds, of the scaled integer time [k] (line 47). *)
Definition tick_time (k : Z) : float := (F64.of_Z k / F64.of_Z precision)%float.

(** The scaled integer time of a sample time (line 33). *)
Definition scaled (t : float) : result Z :=
  Pd.astype_int (t * F64.of_Z precision)%float.

(** The samples left by line 32. *)
Definition samples (dataframe : list (float * float)) : list (float * float) :=
  Pd.drop_duplicates Pd.same_time dataframe.

(** A backend that knows no SciPy method, to run the NumPy-based ones. *)
Definition no_scipy (method : string) (order : Z) (pts : list (float * float))
    (new_x : list float) : result (list float) :=
  Err BackendError.

(** A backend that, like a spline of order 1 through two points,
    extends the line [y = x / 1000] beyond the points it is given. *)
Definition line_backend (method : string) (order : Z) (pts : list (float * float))
    (new_x : list float) : result (list float) :=
  Ok (map (fun x => (x / 1000)%float) new_x).

(** [k] is the finite number [x] truncated toward zero: it has the sign of
    [x], and [|k| <= |x| < |k| + 1], stated on the exact value
    [m * 2^e] of [|x|]. *)
Definition truncated (x : float) (k : Z) : Prop :=
  match Prim2SF x with
  | S754_zero _ => k = 0
  | S754_finite s m e =>
      (if s then k <= 0 else 0 <= k) /\
      Z.abs k * 2 ^ Z.max 0 (- e) <= Zpos m * 2 ^ Z.max 0 e
        < (Z.abs k + 1) * 2 ^ Z.max 0 (- e)
  | _ => False
  end.

(** Every entry of a column is [v] or missing. *)
Definition only (v : float) (ys : list float) : Prop :=
  Forall (fun y => y = v \/ is_nan y = true) ys.

(** The mantissa and the exponent of the binary64 number equal to the
    positive integer [p] below [2^53]: [p] shifted left to 53 bits. *)
Definition normal_m (p : positive) : positive :=
  match (Zpos (Pos.size p) - 53)%Z with
  | Zneg c => Pos.iter xO p c
  | _ => p
  end.

Definition normal_e (p : positive) : Z := Zpos (Pos.size p) - 53.

(** The binary64 number equal to an integer below [2^53] in magnitude. *)
Definition repr (z : Z) : spec_float :=
  match z with
  | Z0 => S754_zero false
  | Zpos p => S754_finite false (normal_m p) (normal_e p)
  | Zneg p => S754_finite true (normal_m p) (normal_e p)
  end.

(** Labels that [float64] holds exactly: the cast of the integer index
    to [float64] (in [union] with a float grid) keeps them apart. *)
Definition exact_labels (l : list Z) : Prop := Forall (fun k => Z.abs k < 2 ^ 53) l.

(** ** Linear interpolation, as the specification words it

    Rows are pairs of an integer abscissa (a scaled time, or a position
    in the index for the method ['linear']) and a value.  [np_fill] is
    the column a NumPy-based method is meant to return for rows in
    increasing order: observed values stay; a missing value before the
    first observed one stays missing; a missing value between two
    observed neighbours is on the line through them; a missing value
    after the last observed one takes its value. *)

Definition point (r : Z * float) : float * float := (F64.of_Z (fst r), snd r).

Definition zobserved (r : Z * float) : bool := negb (is_nan (snd r)).

Fixpoint next_observed (rows : list (Z * float)) : option (Z * float) :=
  match rows with
  | [] => None
  | r :: t => if is_nan (snd r) then next_observed t else Some r
  end.

Fixpoint np_fill (prev : option (Z * float)) (rows : list (Z * float)) : list float :=
  match rows with
  | [] => []
  | r :: t =>
      if is_nan (snd r) then
        match prev with
        | None => nan
        | Some p =>
            match next_observed t with
            | None => snd p
            | Some q => Np.segment (F64.of_Z (fst r)) (point p) (point q)
            end
        end :: np_fill prev t
      else snd r :: np_fill (Some r) t
  end.

(** Rows in increasing order of abscissa, with abscissas that binary64
    holds exactly. *)
Definition by_abscissa (r r' : Z * float) : Prop := fst r < fst r'.

Definition bounded_rows (rows : list (Z * float)) : Prop :=
  Forall (fun r => Z.abs (fst r) < 2 ^ 53) rows.

(** The points [np.interp] is given: the observed rows. *)
Definition known_points (rows : list (Z * float)) : list (float * float) :=
  map point (filter zobserved rows).

(** What a walk over the column knows about the rows it has passed: the
    last observed one, if any. *)
Definition passed (prev : option (Z * float)) (seen : bool)
    (done : list (Z * float)) : Prop :=
  match prev with
  | None => filter zobserved done = [] /\ seen = false
  | Some p => (exists l, filter zobserved done = l ++ [p]) /\ seen = true
  end.

(** The abscissa of a label of the index: its position for the method
    ['linear'], which ignores the index, and the label itself for
    ['index'] and ['values']. *)
Definition position (idx : list Z) (k : Z) : Z :=
  Z.of_nat (List.length (filter (fun x => x <? k) idx)).

Definition coordinate (method : string) (idx : list Z) (k : Z) : Z :=
  if String.eqb method "linear" then position idx k else k.

(** The rows [interpolate] works on, after line 38. *)
Definition frame_rows (method : string) (df : list (Z * float)) (idx : list Z)
    : list (Z * float) :=
  map (fun k => (coordinate method idx k, Pd.lookup df k)) idx.

(** * Facts about the model *)


(** ** Lists, duplicates and order *)

Lemma existsb_Zeqb_In (x : Z) (l : list Z) :
  existsb (Z.eqb x) l = true <-> In x l.
Proof.
  rewrite existsb_exists. split.
  - intros (y & Hy & E). apply Z.eqb_eq in E. now subst.
  - intros Hx. exists x. split; [assumption | apply Z.eqb_refl].
Qed.

Lemma drop_duplicates_id {A : Type} (same : A -> A -> bool) (l : list A) :
  Pd.has_duplicates same l = false -> Pd.drop_duplicates same l = l.
Proof.
  induction l as [|a t IH]; simpl; [reflexivity|].
  intros Hd. apply orb_false_iff in Hd as [Ha Ht].
  rewrite Ha. f_equal. now apply IH.
Qed.

Lemma drop_duplicates_nonempty {A : Type} (same : A -> A -> bool) (l : list A) :
  l <> [] -> Pd.drop_duplicates same l <> [].
Proof.
  induction l as [|a t IH]; [congruence|].
  intros _. simpl. destruct (existsb (same a) t) eqn:E; [|discriminate].
  apply IH. intros ->. discriminate.
Qed.

Lemma drop_duplicates_incl {A : Type} (same : A -> A -> bool) (l : list A) (x : A) :
  In x (Pd.drop_duplicates same l) -> In x l.
Proof.
  induction l as [|a t IH]; simpl; [tauto|].
  destruct (existsb (same a) t); simpl; intuition.
Qed.

Lemma zdrop_duplicates_In (l : list Z) (x : Z) :
  In x (Pd.drop_duplicates Z.eqb l) <-> In x l.
Proof.
  split; [apply drop_duplicates_incl|].
  induction l as [|a t IH]; simpl; [tauto|].
  intros [->|Hx].
  - destruct (existsb (Z.eqb x) t) eqn:E.
    + apply IH. now apply existsb_Zeqb_In.
    + now left.
  - destruct (existsb (Z.eqb a) t); [|right]; now apply IH.
Qed.

Lemma zhas_duplicates_NoDup (l : list Z) :
  Pd.has_duplicates Z.eqb l = false <-> NoDup l.
Proof.
  induction l as [|a t IH]; simpl.
  - split; [constructor | reflexivity].
  - rewrite orb_false_iff, IH. split.
    + intros [Ha Ht]. constructor; [|assumption].
      intros Hin. apply existsb_Zeqb_In in Hin. congruence.
    + intros Hnd. inversion Hnd as [|? ? Hn Ht]; subst. split; [|assumption].
      destruct (existsb (Z.eqb a) t) eqn:E; [|reflexivity].
      apply existsb_Zeqb_In in E. contradiction.
Qed.

Lemma strictly_sorted_NoDup (l : list Z) :
  StronglySorted Z.lt l -> NoDup l.
Proof.
  induction 1 as [|a t Ht IH Ha]; constructor; [|assumption].
  intros Hin. rewrite Forall_forall in Ha. specialize (Ha a Hin). lia.
Qed.

Lemma strictly_sorted_weaken (l : list Z) :
  StronglySorted Z.lt l -> StronglySorted Z.le l.
Proof.
  induction 1 as [|a t Ht IH Ha]; constructor; [assumption|].
  eapply Forall_impl; [|exact Ha]. intros; simpl in *; lia.
Qed.

(** Two strictly increasing lists with the same members are equal. *)
Lemma strictly_sorted_ext (l l' : list Z) :
  StronglySorted Z.lt l -> StronglySorted Z.lt l' ->
  (forall x, In x l <-> In x l') -> l = l'.
Proof.
  intros Hl. revert l'.
  induction Hl as [|a t Ht IH Ha]; intros l' Hl' Hm.
  - destruct l' as [|b t']; [reflexivity|].
    exfalso. apply (Hm b). now left.
  - destruct Hl' as [|b t' Ht' Hb].
    + exfalso. apply (Hm a). now left.
    + rewrite Forall_forall in Ha, Hb.
      assert (a = b) as ->.
      { destruct (proj1 (Hm a) (or_introl eq_refl)) as [E|Hin]; [now subst|].
        destruct (proj2 (Hm b) (or_introl eq_refl)) as [E|Hin']; [assumption|].
        specialize (Ha _ Hin'). specialize (Hb _ Hin). lia. }
      f_equal. apply IH; [assumption|].
      intros x. split; intros Hx.
      * destruct (proj1 (Hm x) (or_intror Hx)) as [E|Hin]; [|assumption].
        subst. specialize (Ha _ Hx). lia.
      * destruct (proj2 (Hm x) (or_intror Hx)) as [E|Hin]; [|assumption].
        subst. specialize (Hb _ Hx). lia.
Qed.

Lemma zdrop_duplicates_sorted (l : list Z) :
  StronglySorted Z.le l -> StronglySorted Z.lt (Pd.drop_duplicates Z.eqb l).
Proof.
  induction 1 as [|a t Ht IH Ha]; simpl; [constructor|].
  destruct (existsb (Z.eqb a) t) eqn:E; [assumption|].
  constructor; [assumption|].
  rewrite Forall_forall in *. intros x Hx.
  apply drop_duplicates_incl in Hx.
  assert (x <> a).
  { intros ->. apply existsb_Zeqb_In in Hx. congruence. }
  specialize (Ha _ Hx). lia.
Qed.

Lemma zdrop_duplicates_strict (l : list Z) :
  StronglySorted Z.lt l -> Pd.drop_duplicates Z.eqb l = l.
Proof.
  intros Hl. apply drop_duplicates_id, zhas_duplicates_NoDup.
  now apply strictly_sorted_NoDup.
Qed.

(** ** Sorting and the union of two integer indexes *)

Lemma zinsert_In (x y : Z) (l : list Z) :
  In y (Pd.insert x l) <-> y = x \/ In y l.
Proof.
  induction l as [|a t IH]; simpl.
  - intuition.
  - destruct (x <=? a); simpl; rewrite ?IH; intuition.
Qed.

Lemma zsort_In (x : Z) (l : list Z) : In x (Pd.sort l) <-> In x l.
Proof.
  induction l as [|a t IH]; simpl; [tauto|].
  rewrite zinsert_In, IH. intuition.
Qed.

Lemma zinsert_sorted (x : Z) (l : list Z) :
  StronglySorted Z.le l -> StronglySorted Z.le (Pd.insert x l).
Proof.
  induction 1 as [|a t Ht IH Ha]; simpl.
  - repeat constructor.
  - destruct (x <=? a) eqn:E.
    + apply Z.leb_le in E. constructor; [now constructor|].
      constructor; [assumption|].
      eapply Forall_impl; [|exact Ha]. intros; simpl in *; lia.
    + apply Z.leb_gt in E. constructor; [assumption|].
      rewrite Forall_forall in *. intros y Hy.
      apply zinsert_In in Hy as [->|Hy]; [lia | now apply Ha].
Qed.

Lemma zsort_sorted (l : list Z) : StronglySorted Z.le (Pd.sort l).
Proof.
  induction l as [|a t IH]; simpl; [constructor | now apply zinsert_sorted].
Qed.

Lemma zequals_eq (l l' : list Z) : Pd.equals l l' = true -> l = l'.
Proof.
  revert l'. induction l as [|a t IH]; intros [|b t']; simpl; try discriminate.
  - reflexivity.
  - intros E. apply andb_true_iff in E as [E1 E2]. cbn in E1.
    apply Z.eqb_eq in E1. subst. f_equal. now apply IH.
Qed.

Lemma zequals_refl (l : list Z) : Pd.equals l l = true.
Proof.
  induction l as [|a t IH]; simpl; [reflexivity|].
  rewrite IH. cbn. now rewrite Z.eqb_refl.
Qed.


Lemma zunion_In (self other : list Z) (x : Z) :
  In x (Pd.union self other) <-> In x self \/ In x other.
Proof.
  unfold Pd.union.
  destruct self as [|a s]; [destruct other; simpl; tauto|].
  destruct other as [|b o]; [simpl; tauto|].
  destruct (Pd.equals (a :: s) (b :: o)) eqn:E.
  - apply zequals_eq in E. rewrite <- E. tauto.
  - rewrite zsort_In, in_app_iff, filter_In.
    split; [tauto|].
    intros [Hs|Ho]; [now left|].
    destruct (existsb (Pd.eqb x) (a :: s)) eqn:Ex.
    + left. now apply existsb_Zeqb_In.
    + right. split; [exact Ho | reflexivity].
Qed.

Lemma zunion_sorted (self other : list Z) :
  StronglySorted Z.lt other -> other <> [] ->
  StronglySorted Z.le (Pd.union self other).
Proof.
  intros Ho Hne. unfold Pd.union.
  destruct self as [|a s]; destruct other as [|b o]; try congruence.
  - now apply strictly_sorted_weaken.
  - destruct (Pd.equals (a :: s) (b :: o)) eqn:E.
    + apply zequals_eq in E. rewrite E. now apply strictly_sorted_weaken.
    + apply zsort_sorted.
Qed.


(** At any dtype, the union with a non-empty grid is not empty. *)
Lemma insert_length {L : Type} `{Pd.Label L} (x : L) (l : list L) :
  List.length (Pd.insert x l) = S (List.length l).
Proof.
  induction l as [|a t IH]; simpl; [reflexivity|].
  destruct (Pd.leb x a); simpl; [reflexivity | now rewrite IH].
Qed.

Lemma sort_length {L : Type} `{Pd.Label L} (l : list L) :
  List.length (Pd.sort l) = List.length l.
Proof.
  induction l as [|a t IH]; simpl; [reflexivity|].
  now rewrite insert_length, IH.
Qed.

Lemma union_nonempty {L : Type} `{Pd.Label L} (self other : list L) :
  other <> [] -> Pd.union self other <> [].
Proof.
  intros Hne. unfold Pd.union.
  destruct self as [|a s]; destruct other as [|b o]; try congruence.
  destruct (Pd.equals (a :: s) (b :: o)); [discriminate|].
  intros E. apply (f_equal (@List.length L)) in E.
  rewrite sort_length in E. discriminate.
Qed.

(** ** The integer grid *)

Lemma ceil_div_pos (M s : Z) : 0 < M -> 0 < s -> 0 < Np.ceil_div M s.
Proof.
  intros HM Hs. unfold Np.ceil_div.
  assert ((- M) / s < 0); [|lia].
  apply Z.div_lt_upper_bound; lia.
Qed.

Lemma ceil_div_spec (M s i : Z) : 0 < s -> i < Np.ceil_div M s <-> i * s < M.
Proof.
  intros Hs. unfold Np.ceil_div.
  pose proof (Z.div_mod (- M) s ltac:(lia)) as E.
  pose proof (Z.mod_pos_bound (- M) s Hs) as B.
  split; intros Hi; nia.
Qed.

Lemma grid_In (M s k : Z) :
  0 < s -> In k (grid M s) <-> exists i, 0 <= i /\ k = i * s /\ k < M.
Proof.
  intros Hs. unfold grid. rewrite in_map_iff. split.
  - intros (n & <- & Hn). apply in_seq in Hn. unfold Np.int_tick.
    exists (Z.of_nat n). repeat split; [lia|].
    apply (ceil_div_spec M s (Z.of_nat n) Hs). lia.
  - intros (i & Hi & -> & Hlt). exists (Z.to_nat i). split.
    + unfold Np.int_tick. rewrite Z2Nat.id by assumption. lia.
    + apply in_seq. apply (ceil_div_spec M s i Hs) in Hlt. lia.
Qed.

Lemma grid_nonempty (M s : Z) : 0 < M -> 0 < s -> grid M s <> [].
Proof.
  intros HM Hs E.
  assert (Hin : In 0 (grid M s)).
  { apply grid_In; [assumption|]. exists 0. lia. }
  rewrite E in Hin. destruct Hin.
Qed.

Lemma map_seq_sorted (s : Z) (n start : nat) :
  0 < s -> StronglySorted Z.lt (map (Np.int_tick s) (seq start n)).
Proof.
  intros Hs. revert start. induction n as [|n IH]; intros start; simpl.
  - constructor.
  - constructor; [apply IH|].
    rewrite Forall_forall. intros x Hx.
    apply in_map_iff in Hx as (j & <- & Hj). apply in_seq in Hj.
    unfold Np.int_tick. nia.
Qed.

Lemma grid_sorted (M s : Z) : 0 < s -> StronglySorted Z.lt (grid M s).
Proof. intros Hs. now apply map_seq_sorted. Qed.

Lemma grid_mod (M s k : Z) : 0 < s -> In k (grid M s) -> k mod s = 0.
Proof.
  intros Hs Hk. apply grid_In in Hk as (i & _ & -> & _); [|assumption].
  apply Z.mod_mul. lia.
Qed.

Lemma arange_int (M s : Z) :
  0 < s -> Np.in_model_range M = true -> Np.in_model_range s = true ->
  Np.arange (PyInt M) (PyInt s) = Ok (Np.IntArray (grid M s)).
Proof.
  intros Hs HM Hr. unfold Np.arange.
  destruct (Z.eqb_spec s 0); [lia|].
  now rewrite HM, Hr.
Qed.

(** ** Columns: what the fills and the interpolation leave alone *)

Lemma keeps_refl (ys : list float) : keeps ys ys.
Proof. induction ys; constructor; auto. Qed.

Lemma keeps_trans (a b c : list float) : keeps a b -> keeps b c -> keeps a c.
Proof.
  intros Hab. revert c. induction Hab as [|x y a b Hxy Hab IH]; intros c Hbc.
  - inversion Hbc. constructor.
  - inversion Hbc as [|? z ? c' Hyz Hbc']; subst. constructor.
    + intros Hx. specialize (Hxy Hx). subst y. now apply Hyz.
    + now apply IH.
Qed.

Lemma keeps_length (ys ys' : list float) :
  keeps ys ys' -> List.length ys' = List.length ys.
Proof. intros Hk. symmetry. exact (Forall2_length Hk). Qed.

Lemma keeps_In_combine {L : Type} (idx : list L) (ys ys' : list float) (k : L) (v : float) :
  keeps ys ys' -> is_nan v = false ->
  In (k, v) (combine idx ys) -> In (k, v) (combine idx ys').
Proof.
  intros Hk Hv. revert idx.
  induction Hk as [|y y' ys ys' Hy Hk IH]; intros [|i idx]; simpl; try tauto.
  intros [E|Hin].
  - left. inversion E; subst. now rewrite Hy.
  - right. now apply IH.
Qed.

Lemma ffill_from_keeps (last : float) (ys : list float) :
  keeps ys (Pd.ffill_from last ys).
Proof.
  revert last. induction ys as [|y t IH]; intros last; simpl; [constructor|].
  destruct (is_nan y) eqn:E; (constructor; [intros; congruence | apply IH]).
Qed.

Lemma bfill_keeps (ys : list float) : keeps ys (Pd.bfill ys).
Proof.
  induction ys as [|y t IH]; simpl; [constructor|].
  constructor; [|assumption]. intros E. now rewrite E.
Qed.

Lemma fill_missing_keeps (seen : bool) (ys new_y : list float) :
  keeps ys (Pd.fill_missing seen ys new_y).
Proof.
  revert seen new_y. induction ys as [|y t IH]; intros seen new_y; simpl;
    [constructor|].
  destruct (is_nan y) eqn:E; (constructor; [intros; congruence | apply IH]).
Qed.

Section AnyBackend.

Variable scipy : string -> Z -> list (float * float) -> list float -> result (list float).

Lemma interpolate_1d_keeps (method : string) (order : Z) (xs ys ys' : list float) :
  Pd.interpolate_1d scipy method order xs ys = Ok ys' -> keeps ys ys'.
Proof.
  unfold Pd.interpolate_1d.
  destruct (forallb is_nan ys); [intros E; inversion E; apply keeps_refl|].
  destruct (forallb _ ys); [intros E; inversion E; apply keeps_refl|].
  destruct (String.eqb method "time"); [discriminate|].
  destruct (Pd.interpolated_values _ _ _ _ _) as [new_y|e]; simpl; [|discriminate].
  destruct (Nat.eqb _ _); [|discriminate].
  intros E; inversion E. apply fill_missing_keeps.
Qed.

Lemma interpolate_keeps {L : Type} `{Pd.Label L} (method : string) (order : Z)
    (index : list L) (ys ys' : list float) :
  Pd.interpolate scipy method order index ys = Ok ys' -> keeps ys ys'.
Proof.
  unfold Pd.interpolate. destruct index as [|i index].
  - intros E; inversion E; apply keeps_refl.
  - destruct (Pd.mem method Pd.FORWARD_FILL);
      [intros E; inversion E; apply ffill_from_keeps|].
    destruct (Pd.mem method Pd.BACKWARD_FILL);
      [intros E; inversion E; apply bfill_keeps|].
    destruct (negb _); [discriminate|].
    destruct (_ && _); [discriminate|].
    apply interpolate_1d_keeps.
Qed.

End AnyBackend.

(** ** Frames *)

Lemma filter_combine_fst {L : Type} (f : L -> bool) (idx : list L) (ys : list float) :
  List.length ys = List.length idx ->
  map fst (filter (fun r => f (fst r)) (combine idx ys)) = filter f idx.
Proof.
  revert ys. induction idx as [|i idx IH]; intros [|y ys]; simpl; try discriminate.
  - reflexivity.
  - intros E. injection E as E.
    destruct (f i); simpl; [f_equal|]; now apply IH.
Qed.

Lemma lookup_In (df : list (Z * float)) (k : Z) (v : float) :
  NoDup (map fst df) -> In (k, v) df -> Pd.lookup df k = v.
Proof.
  unfold Pd.lookup.
  induction df as [|[k' v'] df IH]; simpl; [tauto|].
  intros Hnd Hin. inversion Hnd as [|? ? Hn Hnd']; subst.
  destruct (Z.eqb_spec k' k) as [->|Hne].
  - destruct Hin as [E|Hin]; [now inversion E|].
    exfalso. apply Hn. apply in_map_iff. now exists (k, v).
  - destruct Hin as [E|Hin]; [inversion E; congruence|]. now apply IH.
Qed.

Lemma lookup_not_In (df : list (Z * float)) (k : Z) :
  ~ In k (map fst df) -> Pd.lookup df k = nan.
Proof.
  unfold Pd.lookup.
  induction df as [|[k' v'] df IH]; simpl; [reflexivity|].
  intros Hn. destruct (Z.eqb_spec k' k) as [->|Hne]; [tauto|].
  apply IH. tauto.
Qed.

Lemma lookup_self (df : list (Z * float)) :
  NoDup (map fst df) -> map (Pd.lookup df) (map fst df) = map snd df.
Proof.
  intros Hnd. rewrite map_map. apply map_ext_in.
  intros [k v] Hin. simpl. now apply lookup_In.
Qed.

(** ** Scaling the time column *)

Lemma mapM_scale_In (df : list (float * float)) (dfz : list (Z * float))
    (k : Z) (v : float) :
  mapM Pd.scale_time df = Ok dfz ->
  In (k, v) dfz <->
  exists t, In (t, v) df /\ Pd.astype_int (t * F64.of_Z precision)%float = Ok k.
Proof.
  revert dfz. induction df as [|[t0 v0] df IH]; intros dfz; simpl.
  - intros E. inversion E. simpl. split; [tauto | intros (t & [] & _)].
  - unfold Pd.scale_time at 1. simpl.
    destruct (Pd.astype_int _) as [k0|e] eqn:Ek; simpl; [|discriminate].
    destruct (mapM Pd.scale_time df) as [dfz'|e]; simpl; [|discriminate].
    intros E. inversion E; subst. simpl. rewrite (IH dfz' eq_refl). split.
    + intros [E'|(t & Hin & Ht)].
      * inversion E'; subst. exists t0. split; [now left | assumption].
      * exists t. split; [now right | assumption].
    + intros (t & [E'|Hin] & Ht).
      * inversion E'; subst. left. congruence.
      * right. now exists t.
Qed.

(** ** The stages of the resampler on an integer grid *)

Lemma model_range (z : Z) : 0 < z -> z < 2 ^ 53 -> Np.in_model_range z = true.
Proof. intros H0 H1. unfold Np.in_model_range. apply Z.ltb_lt. lia. Qed.

Section Stages.

Variable scipy : string -> Z -> list (float * float) -> list float -> result (list float).

(** The frame index after [union] and [drop_duplicates] (line 37). *)
Lemma filtered_on_int (df : list (Z * float)) (g : list Z) (st : Z)
    (method : string) (order : Z) (rows : list (Z * float)) :
  filtered_on scipy df g (PyInt st) method order = Ok rows ->
  let new_index := Pd.drop_duplicates Z.eqb (Pd.union (map fst df) g) in
  NoDup (map fst df) /\
  exists ys,
    Pd.interpolate scipy method order new_index (map (Pd.lookup df) new_index) = Ok ys /\
    rows = filter (fun r => Pd.mod_is_zero (fst r) (st * precision))
             (combine new_index (map (Np.round DECIMAL_POINTS) (Pd.bfill (Pd.ffill ys)))).
Proof.
  unfold filtered_on, Pd.reindex. cbn [Pd.eqb Pd.of_int64 Pd.Int64Label].
  change (map (fun r : Z * float => fst r) df) with (map fst df).
  destruct (Pd.has_duplicates Z.eqb (map fst df)) eqn:Hd; simpl; [discriminate|].
  destruct (Pd.interpolate _ _ _ _ _) as [ys|e] eqn:Hi; simpl; [|discriminate].
  intros E. inversion E. split; [now apply zhas_duplicates_NoDup|].
  exists ys. split; reflexivity.
Qed.

Lemma resample_int (dataframe : list (float * float)) (mv st : Z)
    (method : string) (order : Z) :
  0 < mv -> 0 < st -> mv * precision < 2 ^ 53 -> st * precision < 2 ^ 53 ->
  resample_dataframe scipy dataframe (PyInt mv) (PyInt st) method order =
  (df <- mapM Pd.scale_time (Pd.drop_duplicates Pd.same_time dataframe) ;;
   rows <- filtered_on scipy df (grid (mv * precision) (st * precision))
             (PyInt st) method order ;;
   Ok (map rescale rows)).
Proof.
  intros Hmv Hst HM Hs. unfold resample_dataframe.
  destruct (mapM _ _) as [df|e]; cbn [bind py_mul_int]; [|reflexivity].
  assert (Hp : 0 < precision) by reflexivity.
  rewrite arange_int; [reflexivity | lia | |]; apply model_range; lia.
Qed.

End Stages.

(** ** The combined index *)

Lemma new_index_In (df : list (Z * float)) (g : list Z) (k : Z) :
  In k (new_index df g) <-> In k (map fst df) \/ In k g.
Proof. unfold new_index. now rewrite zdrop_duplicates_In, zunion_In. Qed.

Lemma new_index_sorted (df : list (Z * float)) (g : list Z) :
  StronglySorted Z.lt g -> g <> [] -> StronglySorted Z.lt (new_index df g).
Proof.
  intros Hg Hne. unfold new_index.
  now apply zdrop_duplicates_sorted, zunion_sorted.
Qed.

Lemma filter_sorted (f : Z -> bool) (l : list Z) :
  StronglySorted Z.lt l -> StronglySorted Z.lt (filter f l).
Proof.
  induction 1 as [|a t Ht IH Ha]; simpl; [constructor|].
  destruct (f a); [|assumption].
  constructor; [assumption|].
  rewrite Forall_forall in *. intros x Hx. apply filter_In in Hx. now apply Ha.
Qed.

Lemma rescale_fst (rows : list (Z * float)) :
  map fst (map rescale rows) = map tick_time (map fst rows).
Proof. rewrite !map_map. reflexivity. Qed.

Section Ticks.

Variable scipy : string -> Z -> list (float * float) -> list float -> result (list float).

(** The column stays as long as the index through lines 38-42. *)
Lemma column_length (df : list (Z * float)) (idx : list Z) (method : string)
    (order : Z) (ys : list float) :
  Pd.interpolate scipy method order idx (map (Pd.lookup df) idx) = Ok ys ->
  List.length (map (Np.round DECIMAL_POINTS) (Pd.bfill (Pd.ffill ys)))
  = List.length idx.
Proof.
  intros Hi. apply interpolate_keeps, keeps_length in Hi.
  rewrite length_map in *.
  rewrite (keeps_length _ _ (bfill_keeps _)).
  unfold Pd.ffill. rewrite (keeps_length _ _ (ffill_from_keeps _ _)).
  exact Hi.
Qed.

(** The index of [filtered_dataframe]: the labels of the combined index
    that are multiples of the integer step. *)
Lemma filtered_index (df : list (Z * float)) (g : list Z) (st : Z)
    (method : string) (order : Z) (rows : list (Z * float)) :
  filtered_on scipy df g (PyInt st) method order = Ok rows ->
  map fst rows
  = filter (fun k => Pd.mod_is_zero k (st * precision)) (new_index df g).
Proof.
  intros Hf. apply filtered_on_int in Hf as (_ & ys & Hi & ->).
  apply filter_combine_fst with (f := fun k => Pd.mod_is_zero k (st * precision)).
  now apply column_length with (df := df) (method := method) (order := order).
Qed.

End Ticks.

Lemma mod_is_zero_int (k d : Z) :
  0 < d -> Pd.mod_is_zero k d = true <-> k mod d = 0.
Proof.
  intros Hd. cbn. destruct (Z.eqb_spec d 0); [lia|]. apply Z.eqb_eq.
Qed.

(** ** Truncation toward zero *)

Lemma trunc_truncated (x : float) (k : Z) :
  F64.trunc x = Some k -> truncated x k.
Proof.
  unfold F64.trunc, truncated, F64.SFtrunc.
  destruct (Prim2SF x) as [s| | |s m e]; try discriminate.
  - intros E. now inversion E.
  - intros E. inversion E; subst k; clear E.
    assert (Hq : 0 <= F64.int_part m e /\
                 F64.int_part m e * 2 ^ Z.max 0 (- e) <= Zpos m * 2 ^ Z.max 0 e
                   < (F64.int_part m e + 1) * 2 ^ Z.max 0 (- e)).
    { destruct e as [|p|p]; unfold F64.int_part.
      - change (Z.max 0 (- 0)) with 0. change (Z.max 0 0) with 0.
        rewrite !Z.pow_0_r. lia.
      - change (Z.max 0 (- Z.pos p)) with 0.
        change (Z.max 0 (Z.pos p)) with (Z.pos p). rewrite Z.pow_0_r.
        assert (0 < 2 ^ Z.pos p) by (apply Z.pow_pos_nonneg; lia). nia.
      - change (Z.max 0 (- Z.neg p)) with (Z.pos p).
        change (Z.max 0 (Z.neg p)) with 0. rewrite Z.pow_0_r.
        assert (Hpow : 0 < 2 ^ Z.pos p) by (apply Z.pow_pos_nonneg; lia).
        pose proof (Z.div_mod (Z.pos m) (2 ^ Z.pos p) ltac:(lia)) as Hdm.
        pose proof (Z.mod_pos_bound (Z.pos m) (2 ^ Z.pos p) Hpow) as Hb.
        assert (0 <= Z.pos m / 2 ^ Z.pos p) by (apply Z.div_pos; lia).
        nia. }
    destruct Hq as (Hq0 & Hq).
    unfold F64.signed. destruct s.
    + split; [lia|]. now rewrite Z.abs_opp, Z.abs_eq by assumption.
    + split; [lia|]. now rewrite Z.abs_eq by assumption.
Qed.

(** ** Duplicates in two parts of a frame *)

(** What [drop_duplicates] does to a frame in two parts: the rows of the
    first part that meet their time again in the second part go; the
    second part is treated on its own. *)
Lemma drop_duplicates_app {A : Type} (same : A -> A -> bool) (l1 l2 : list A) :
  Pd.drop_duplicates same (l1 ++ l2)
  = filter (fun a => negb (existsb (same a) l2)) (Pd.drop_duplicates same l1)
    ++ Pd.drop_duplicates same l2.
Proof.
  induction l1 as [|a t IH]; simpl; [reflexivity|].
  rewrite existsb_app.
  destruct (existsb (same a) t); simpl; [exact IH|].
  destruct (existsb (same a) l2); simpl; [exact IH | now rewrite IH].
Qed.

(** The row inserted last stays, and no row left before it has its time. *)
Lemma samples_last (dataframe : list (float * float)) (r : float * float) :
  exists kept,
    samples (dataframe ++ [r]) = kept ++ [r] /\
    forall r', In r' kept -> Pd.same_time r' r = false.
Proof.
  unfold samples. rewrite drop_duplicates_app. simpl.
  eexists. split; [reflexivity|].
  intros r' Hr'. apply filter_In in Hr' as [_ Hr']. simpl in Hr'.
  now destruct (Pd.same_time r' r).
Qed.

(** ** Columns with nothing to interpolate *)

Lemma ffill_from_all_nan (n : nat) : Pd.ffill_from nan (repeat nan n) = repeat nan n.
Proof. induction n as [|n IH]; simpl; [reflexivity | now rewrite IH]. Qed.

Lemma bfill_all_nan (n : nat) : Pd.bfill (repeat nan n) = repeat nan n.
Proof.
  induction n as [|n IH]; simpl; [reflexivity|].
  rewrite IH. destruct n; reflexivity.
Qed.

Lemma forallb_all_nan (n : nat) : forallb is_nan (repeat nan n) = true.
Proof. induction n as [|n IH]; simpl; [reflexivity | exact IH]. Qed.

Lemma ffill_from_observed (last : float) (ys : list float) :
  Forall (fun y => is_nan y = false) ys -> Pd.ffill_from last ys = ys.
Proof.
  intros Hys. revert last. induction Hys as [|y t Hy Ht IH]; intros last; simpl;
    [reflexivity|].
  now rewrite Hy, IH.
Qed.

Lemma bfill_observed (ys : list float) :
  Forall (fun y => is_nan y = false) ys -> Pd.bfill ys = ys.
Proof.
  induction 1 as [|y t Hy Ht IH]; simpl; [reflexivity|].
  now rewrite Hy, IH.
Qed.

Lemma forallb_observed (ys : list float) :
  Forall (fun y => is_nan y = false) ys ->
  forallb (fun y => negb (is_nan y)) ys = true.
Proof.
  induction 1 as [|y t Hy Ht IH]; simpl; [reflexivity|].
  now rewrite Hy, IH.
Qed.

Lemma sorted_is_monotonic (l : list Z) :
  StronglySorted Z.lt l -> Pd.is_monotonic l = true.
Proof.
  induction 1 as [|a t Ht IH Ha]; [reflexivity|].
  destruct t as [|b t]; [reflexivity|].
  change (Pd.is_monotonic (a :: b :: t)) with ((a <=? b) && Pd.is_monotonic (b :: t)).
  rewrite IH, andb_true_r. apply Z.leb_le.
  inversion Ha; subst. lia.
Qed.

Section NoWork.

Variable scipy : string -> Z -> list (float * float) -> list float -> result (list float).

(** A supported method returns a column as it is when all of it is missing
    or all of it is observed. *)
Lemma interpolate_no_work {L : Type} `{Pd.Label L} (method : string) (order : Z)
    (index : list L) (ys : list float) :
  Pd.supported method = true ->
  Pd.is_monotonic index = true ->
  Pd.ffill ys = ys -> Pd.bfill ys = ys ->
  forallb is_nan ys = true \/ forallb (fun y => negb (is_nan y)) ys = true ->
  Pd.interpolate scipy method order index ys = Ok ys.
Proof.
  intros Hs Hm Hf Hb Hall. unfold Pd.interpolate, Pd.supported in *.
  destruct index as [|i index]; [reflexivity|].
  destruct (Pd.mem method Pd.FORWARD_FILL) eqn:Ef; [now rewrite Hf|].
  destruct (Pd.mem method Pd.BACKWARD_FILL) eqn:Eb; [now rewrite Hb|].
  rewrite !orb_false_l in Hs. rewrite Hs, Hm, andb_false_r. cbn [negb].
  unfold Pd.interpolate_1d.
  destruct (forallb is_nan ys); [reflexivity|].
  destruct Hall as [Hall|Hall]; [discriminate|]. now rewrite Hall.
Qed.

Lemma interpolate_unsupported {L : Type} `{Pd.Label L} (method : string) (order : Z)
    (index : list L) (ys : list float) :
  Pd.supported method = false -> index <> [] ->
  Pd.interpolate scipy method order index ys = Err InvalidMethodError.
Proof.
  intros Hs Hne. unfold Pd.interpolate, Pd.supported in *.
  destruct index as [|i index]; [congruence|].
  apply orb_false_iff in Hs as [Hs Hsp].
  apply orb_false_iff in Hs as [Hs Hnp].
  apply orb_false_iff in Hs as [Hf Hb].
  now rewrite Hf, Hb, Hnp, Hsp.
Qed.

End NoWork.

(** ** Frames that pass the filter whole *)

Lemma lookup_nil (idx : list Z) : map (Pd.lookup []) idx = repeat nan (List.length idx).
Proof. induction idx as [|k idx IH]; simpl; [reflexivity | now rewrite IH]. Qed.

Lemma round_nan : Np.round DECIMAL_POINTS nan = nan.
Proof. vm_compute. reflexivity. Qed.

Lemma map_round_all_nan (n : nat) :
  map (Np.round DECIMAL_POINTS) (repeat nan n) = repeat nan n.
Proof. induction n as [|n IH]; simpl; [reflexivity | now rewrite round_nan, IH]. Qed.

Lemma combine_all_nan (idx : list Z) :
  combine idx (repeat nan (List.length idx)) = map (fun k => (k, nan)) idx.
Proof. induction idx as [|k idx IH]; simpl; [reflexivity | now rewrite IH]. Qed.

Lemma filter_all {A : Type} (f : A -> bool) (l : list A) :
  (forall x, In x l -> f x = true) -> filter f l = l.
Proof.
  induction l as [|a t IH]; simpl; [reflexivity|].
  intros Hf. rewrite (Hf a (or_introl eq_refl)). f_equal. apply IH. auto.
Qed.

Lemma filter_grid_rows (M s : Z) (ys : list float) :
  0 < s ->
  filter (fun r : Z * float => Pd.mod_is_zero (fst r) s) (combine (grid M s) ys)
  = combine (grid M s) ys.
Proof.
  intros Hs. apply filter_all. intros [k y] Hin. simpl fst.
  apply mod_is_zero_int; [assumption|].
  apply grid_mod with (M := M); [assumption|]. exact (in_combine_l _ _ _ _ Hin).
Qed.

Lemma rescale_combine (idx : list Z) (ys : list float) :
  map rescale (combine idx ys) = combine (map tick_time idx) ys.
Proof.
  revert ys. induction idx as [|k idx IH]; intros [|y ys]; simpl; try reflexivity.
  now rewrite IH.
Qed.

Lemma union_self_grid (g : list Z) : Pd.union g g = g.
Proof.
  unfold Pd.union. destruct g as [|b o]; [reflexivity|].
  now rewrite zequals_refl.
Qed.

Lemma union_nil_l (g : list Z) : Pd.union [] g = g.
Proof. destruct g; reflexivity. Qed.

Lemma mapM_scale_regular (dataframe : list (float * float)) (ks : list Z) :
  map (fun r => scaled (fst r)) dataframe = map Ok ks ->
  mapM Pd.scale_time dataframe = Ok (combine ks (map snd dataframe)).
Proof.
  revert ks. induction dataframe as [|[t v] df IH]; intros [|k ks]; simpl;
    try discriminate; [reflexivity|].
  intros E. injection E as Ek E. unfold Pd.scale_time at 1.
  unfold scaled in Ek. simpl fst. rewrite Ek. cbn [bind].
  now rewrite (IH ks E).
Qed.

(** ** Failing before the interpolation *)

Section Unsupported.

Variable scipy : string -> Z -> list (float * float) -> list float -> result (list float).

(** At either dtype, lines 37-44 fail on a non-empty grid: at [reindex]
    when the scaled times have duplicates, at [interpolate] otherwise. *)
Lemma filtered_on_unsupported {L : Type} `{Pd.Label L} (df : list (Z * float))
    (g : list L) (step : pynum) (method : string) (order : Z) :
  Pd.supported method = false -> g <> [] ->
  filtered_on scipy df g step method order
  = Err (if Pd.has_duplicates Z.eqb (map fst df) then DuplicateLabelsError
         else InvalidMethodError).
Proof.
  intros Hm Hg. unfold filtered_on, Pd.reindex.
  destruct (Pd.has_duplicates Z.eqb (map fst df)); [reflexivity|].
  cbn [bind]. rewrite interpolate_unsupported; [reflexivity | assumption |].
  now apply drop_duplicates_nonempty, union_nonempty.
Qed.

End Unsupported.

Lemma arange_int_size (mv st : Z) (a : Np.ndarray) :
  0 < mv -> 0 < st -> mv * precision < 2 ^ 53 -> st * precision < 2 ^ 53 ->
  Np.arange (py_mul_int (PyInt mv) precision) (py_mul_int (PyInt st) precision) = Ok a ->
  Np.size a <> 0%nat.
Proof.
  intros Hmv Hst HM Hs. assert (Hp : 0 < precision) by reflexivity.
  cbn [py_mul_int]. rewrite arange_int; [| lia | apply model_range; lia..].
  intros E. inversion E. simpl.
  pose proof (grid_nonempty (mv * precision) (st * precision)) as Hne.
  destruct (grid _ _); [exfalso; apply Hne; [lia | lia | reflexivity] | discriminate].
Qed.

(** ** Observed values through the stages *)

Lemma In_combine_map {A B : Type} (f : A -> B) (l : list A) (x : A) :
  In x l -> In (x, f x) (combine l (map f l)).
Proof.
  induction l as [|a t IH]; simpl; [tauto|].
  intros [->|Hx]; [now left | right; now apply IH].
Qed.

Lemma In_combine_map_snd {A B C : Type} (f : B -> C) (l : list A) (ys : list B)
    (x : A) (y : B) :
  In (x, y) (combine l ys) -> In (x, f y) (combine l (map f ys)).
Proof.
  revert ys. induction l as [|a t IH]; intros [|b ys]; simpl; try tauto.
  intros [E|Hin]; [left; now inversion E | right; now apply IH].
Qed.

Section Observed.

Variable scipy : string -> Z -> list (float * float) -> list float -> result (list float).

(** An observed value on a label that passes the filter is in
    [filtered_dataframe], rounded. *)
Lemma filtered_observed (df : list (Z * float)) (g : list Z) (st : Z)
    (method : string) (order : Z) (rows : list (Z * float)) (k : Z) (v : float) :
  0 < st ->
  filtered_on scipy df g (PyInt st) method order = Ok rows ->
  In (k, v) df -> is_nan v = false -> k mod (st * precision) = 0 ->
  In (k, Np.round DECIMAL_POINTS v) rows.
Proof.
  intros Hst Hf Hin Hv Hk.
  assert (Hp : 0 < precision) by reflexivity.
  apply filtered_on_int in Hf as (Hnd & ys & Hi & ->).
  apply filter_In. split; [|apply mod_is_zero_int; [lia | exact Hk]].
  apply In_combine_map_snd.
  apply keeps_In_combine with (ys := map (Pd.lookup df) (new_index df g));
    [|assumption|].
  - eapply keeps_trans; [exact (interpolate_keeps _ _ _ _ _ _ Hi)|].
    eapply keeps_trans; [apply ffill_from_keeps | apply bfill_keeps].
  - rewrite <- (lookup_In df k v Hnd Hin).
    apply In_combine_map. apply new_index_In. left.
    apply in_map_iff. now exists (k, v).
Qed.

End Observed.

(** ** Columns with one value *)

Lemma only_repeat (v : float) (n : nat) : only v (repeat v n).
Proof. apply Forall_forall. intros y Hy. left. now apply repeat_spec in Hy. Qed.

Lemma only_repeat_nan (v : float) (n : nat) : only v (repeat nan n).
Proof.
  apply Forall_forall. intros y Hy. right. apply repeat_spec in Hy. now subst.
Qed.

Lemma ffill_from_value (v : float) (ys : list float) :
  is_nan v = false -> only v ys ->
  Pd.ffill_from v ys = repeat v (List.length ys).
Proof.
  intros Hv. induction 1 as [|y t Hy Ht IH]; simpl; [reflexivity|].
  destruct Hy as [->|Hy]; [rewrite Hv | rewrite Hy]; now rewrite IH.
Qed.

(** Forward fill of a column with one value: missing entries up to the
    first observed one, the value from there on. *)
Lemma ffill_only (v : float) (ys : list float) :
  is_nan v = false -> only v ys ->
  exists j m,
    Pd.ffill ys = repeat nan j ++ repeat v m /\
    (j + m = List.length ys)%nat /\
    (Exists (fun y => is_nan y = false) ys -> (0 < m)%nat).
Proof.
  intros Hv. unfold Pd.ffill.
  induction 1 as [|y t Hy Ht (j & m & E & Hl & Hm)]; simpl.
  - exists 0%nat, 0%nat. repeat split. intros Hex. inversion Hex.
  - destruct Hy as [->|Hy].
    + rewrite Hv, (ffill_from_value v t Hv Ht).
      exists 0%nat, (S (List.length t)). repeat split. lia.
    + rewrite Hy. exists (S j), m. rewrite E. repeat split; [simpl; lia|].
      intros Hex. inversion Hex; subst; [congruence | auto].
Qed.

Lemma bfill_nan_prefix (v : float) (j m : nat) :
  is_nan v = false ->
  Pd.bfill (repeat nan j ++ repeat v (S m)) = repeat v (j + S m).
Proof.
  intros Hv. induction j as [|j IH].
  - apply bfill_observed, Forall_forall. intros y Hy.
    apply repeat_spec in Hy. now subst.
  - change (repeat nan (S j) ++ repeat v (S m))
      with (nan :: (repeat nan j ++ repeat v (S m))).
    cbn [Pd.bfill]. rewrite IH.
    replace (j + S m)%nat with (S (j + m)) by lia.
    replace (S j + S m)%nat with (S (S (j + m))) by lia.
    reflexivity.
Qed.

(** Forward then backward fill (line 41) of a column with one value, at
    least once observed: the value everywhere. *)
Lemma fill_only (v : float) (ys : list float) :
  is_nan v = false -> only v ys -> Exists (fun y => is_nan y = false) ys ->
  Pd.bfill (Pd.ffill ys) = repeat v (List.length ys).
Proof.
  intros Hv Ho Hex.
  destruct (ffill_only v ys Hv Ho) as (j & m & E & Hl & Hm).
  specialize (Hm Hex). destruct m as [|m]; [lia|].
  now rewrite E, bfill_nan_prefix, Hl.
Qed.

Lemma only_ffill (v : float) (ys : list float) :
  is_nan v = false -> only v ys -> only v (Pd.ffill ys).
Proof.
  intros Hv Ho. destruct (ffill_only v ys Hv Ho) as (j & m & E & _).
  rewrite E. apply Forall_app. split; [apply only_repeat_nan | apply only_repeat].
Qed.

Lemma only_hd (v : float) (ys : list float) :
  only v ys -> hd nan ys = v \/ is_nan (hd nan ys) = true.
Proof. intros [|y t Hy _]; [now right | exact Hy]. Qed.

Lemma only_tl (v : float) (ys : list float) : only v ys -> only v (tl ys).
Proof. intros [|y t _ Ht]; [constructor | exact Ht]. Qed.

Lemma only_bfill (v : float) (ys : list float) : only v ys -> only v (Pd.bfill ys).
Proof.
  induction 1 as [|y t Hy Ht IH]; simpl; [constructor|].
  constructor; [|assumption].
  destruct Hy as [->|Hy]; [|rewrite Hy; now apply only_hd].
  destruct (is_nan v); [now apply only_hd | now left].
Qed.

Lemma only_fill_missing (v : float) (seen : bool) (ys new_y : list float) :
  only v ys -> only v new_y -> only v (Pd.fill_missing seen ys new_y).
Proof.
  intros Ho. revert seen new_y.
  induction Ho as [|y t Hy Ht IH]; intros seen new_y Hn; simpl; [constructor|].
  destruct (is_nan y) eqn:Ey.
  - constructor; [|apply IH; now apply only_tl].
    destruct seen; [now apply only_hd | now right].
  - constructor; [|now apply IH].
    destruct Hy as [Hy|Hy]; [now left | discriminate].
Qed.

Lemma keeps_Exists (ys ys' : list float) :
  keeps ys ys' -> Exists (fun y => is_nan y = false) ys ->
  Exists (fun y => is_nan y = false) ys'.
Proof.
  induction 1 as [|y y' ys ys' Hy Hk IH]; intros Hex; inversion Hex; subst.
  - left. now rewrite Hy.
  - right. now apply IH.
Qed.

(** ** One observed point *)

Lemma interp_single (v x : float) (pts : list (float * float)) :
  (List.length pts <= 1)%nat -> Forall (fun p => snd p = v) pts ->
  Np.interp x (Pd.sort_points pts) = v \/
  is_nan (Np.interp x (Pd.sort_points pts)) = true.
Proof.
  intros Hl Hp. destruct pts as [|p [|q pts]]; simpl in Hl; [| |lia].
  - now right.
  - inversion Hp as [|? ? Hv _]; subst. simpl.
    destruct (is_nan x) eqn:Ex; [now right|].
    destruct (x <? fst p)%float; now left.
Qed.

Lemma observed_rows_count (xs ys : list float) :
  (List.length (filter Pd.observed (combine xs ys))
   <= List.length (filter (fun y => negb (is_nan y)) ys))%nat.
Proof.
  revert ys. induction xs as [|x xs IH]; intros [|y ys]; simpl; try lia.
  unfold Pd.observed at 1. simpl.
  specialize (IH ys). destruct (is_nan y); simpl; lia.
Qed.

Lemma observed_rows_only (v : float) (xs ys : list float) :
  only v ys -> Forall (fun p => snd p = v) (filter Pd.observed (combine xs ys)).
Proof.
  intros Ho. apply Forall_forall. intros [x y] Hin.
  apply filter_In in Hin as [Hin Hy]. unfold Pd.observed in Hy. simpl in *.
  apply in_combine_r in Hin. unfold only in Ho. rewrite Forall_forall in Ho.
  destruct (Ho y Hin) as [E|E]; [assumption|].
  rewrite E in Hy. discriminate.
Qed.

Section OnePoint.

Variable scipy : string -> Z -> list (float * float) -> list float -> result (list float).

Lemma interpolate_1d_only (v : float) (method : string) (order : Z)
    (xs ys : list float) :
  Pd.mem method Pd.NP_METHODS = true -> String.eqb method "time" = false ->
  only v ys ->
  (List.length (filter (fun y => negb (is_nan y)) ys) <= 1)%nat ->
  exists ys', Pd.interpolate_1d scipy method order xs ys = Ok ys' /\ only v ys'.
Proof.
  intros Hnp Ht Ho Hc. unfold Pd.interpolate_1d.
  destruct (forallb is_nan ys); [now exists ys|].
  destruct (forallb _ ys); [now exists ys|].
  rewrite Ht. unfold Pd.interpolated_values. rewrite Hnp. cbn [bind].
  rewrite length_map, Nat.eqb_refl.
  eexists. split; [reflexivity|].
  apply only_fill_missing; [assumption|].
  apply Forall_forall. intros y Hy. apply in_map_iff in Hy as (x & <- & _).
  apply interp_single.
  - pose proof (observed_rows_count xs ys). lia.
  - now apply observed_rows_only.
Qed.

(** The NumPy-based methods and the fill methods on a column with one
    value, observed at most once. *)
Lemma interpolate_only (v : float) (method : string) (order : Z)
    (index : list Z) (ys : list float) :
  In method ["linear"; "index"; "values"; "ffill"; "pad"; "bfill"; "backfill"]%string ->
  is_nan v = false -> only v ys ->
  (List.length (filter (fun y => negb (is_nan y)) ys) <= 1)%nat ->
  exists ys', Pd.interpolate scipy method order index ys = Ok ys' /\ only v ys'.
Proof.
  intros Hm Hv Ho Hc. unfold Pd.interpolate.
  destruct index as [|i index]; [now exists ys|].
  simpl in Hm.
  destruct Hm as [<-|[<-|[<-|[<-|[<-|[<-|[<-|[]]]]]]]];
    cbv [Pd.mem Pd.FORWARD_FILL Pd.BACKWARD_FILL Pd.NP_METHODS Pd.SP_METHODS
         Pd.MONOTONIC_METHODS existsb String.eqb Ascii.eqb Bool.eqb orb andb negb];
    try (apply interpolate_1d_only; [reflexivity | reflexivity | assumption..]).
  - exists (Pd.ffill ys). split; [reflexivity | now apply only_ffill].
  - exists (Pd.ffill ys). split; [reflexivity | now apply only_ffill].
  - exists (Pd.bfill ys). split; [reflexivity | now apply only_bfill].
  - exists (Pd.bfill ys). split; [reflexivity | now apply only_bfill].
Qed.

End OnePoint.

(** ** The column of a frame with one row *)

Lemma lookup_single (k x : Z) (v : float) :
  Pd.lookup [(k, v)] x = if k =? x then v else nan.
Proof. unfold Pd.lookup. simpl. now destruct (k =? x). Qed.

Lemma lookup_single_absent (k : Z) (v : float) (idx : list Z) :
  ~ In k idx -> map (Pd.lookup [(k, v)]) idx = repeat nan (List.length idx).
Proof.
  induction idx as [|a t IH]; simpl; [reflexivity|].
  intros Hn. rewrite lookup_single.
  destruct (Z.eqb_spec k a) as [->|Hne]; [exfalso; apply Hn; now left|].
  rewrite IH by tauto. reflexivity.
Qed.

Lemma filter_observed_all_nan (n : nat) :
  filter (fun y => negb (is_nan y)) (repeat nan n) = [].
Proof. induction n as [|n IH]; simpl; [reflexivity | exact IH]. Qed.

Lemma lookup_single_column (k : Z) (v : float) (idx : list Z) :
  NoDup idx -> is_nan v = false ->
  only v (map (Pd.lookup [(k, v)]) idx) /\
  (List.length (filter (fun y => negb (is_nan y)) (map (Pd.lookup [(k, v)]) idx)) <= 1)%nat /\
  (In k idx -> Exists (fun y => is_nan y = false) (map (Pd.lookup [(k, v)]) idx)).
Proof.
  intros Hnd Hv. split; [|split].
  - apply Forall_forall. intros y Hy. apply in_map_iff in Hy as (x & <- & _).
    rewrite lookup_single. destruct (k =? x); [now left | now right].
  - induction Hnd as [|a t Ha Hnd IH]; simpl; [lia|].
    rewrite lookup_single. destruct (Z.eqb_spec k a) as [->|Hne].
    + rewrite Hv. simpl. rewrite lookup_single_absent by assumption.
      rewrite filter_observed_all_nan. simpl. lia.
    + simpl. exact IH.
  - intros Hin. apply Exists_exists. exists v. split; [|assumption].
    apply in_map_iff. exists k. split; [|assumption].
    now rewrite lookup_single, Z.eqb_refl.
Qed.

(** ** Constant columns in a frame *)

Lemma In_combine_repeat {A B : Type} (l : list A) (c : B) (x : A) :
  In x l -> In (x, c) (combine l (repeat c (List.length l))).
Proof.
  induction l as [|a t IH]; simpl; [tauto|].
  intros [->|Hx]; [now left | right; now apply IH].
Qed.

(** ** Integers in binary64 *)

Lemma digits2_size (p : positive) : digits2_pos p = Pos.size p.
Proof. induction p; simpl; congruence. Qed.

Lemma iter_xO_val (p n : positive) : Zpos (Pos.iter xO p n) = Zpos p * 2 ^ Zpos n.
Proof.
  induction n as [|n IH] using Pos.peano_ind.
  - simpl. lia.
  - rewrite Pos.iter_succ, Pos2Z.inj_succ, Z.pow_succ_r by lia.
    rewrite Pos2Z.inj_xO, IH. lia.
Qed.

Lemma iter_xO_size (p n : positive) :
  Pos.size (Pos.iter xO p n) = (Pos.size p + n)%positive.
Proof.
  induction n as [|n IH] using Pos.peano_ind.
  - simpl. lia.
  - rewrite Pos.iter_succ. simpl. rewrite IH. lia.
Qed.

Lemma size_bounds (p : positive) :
  2 ^ (Zpos (Pos.size p) - 1) <= Zpos p < 2 ^ Zpos (Pos.size p).
Proof.
  pose proof (Pos.size_gt p) as Hg. pose proof (Pos.size_le p) as Hl.
  apply Pos2Z.pos_lt_pos in Hg. apply Pos2Z.pos_le_pos in Hl.
  rewrite Pos2Z.inj_pow in Hg, Hl.
  split; [|assumption].
  assert (E : 2 ^ Zpos (Pos.size p) = 2 * 2 ^ (Zpos (Pos.size p) - 1)).
  { rewrite <- Z.pow_succ_r by lia. f_equal. lia. }
  change ((2 * 1) ^ Zpos (Pos.size p)) with (2 ^ Zpos (Pos.size p)) in Hl.
  rewrite E in Hl. lia.
Qed.

Lemma normal_m_size (p : positive) :
  Zpos p < 2 ^ 53 -> Zpos (Pos.size (normal_m p)) = 53.
Proof.
  intros Hp. pose proof (size_bounds p) as [Hl Hu].
  assert (Hd : Zpos (Pos.size p) <= 53).
  { destruct (Z.le_gt_cases (Zpos (Pos.size p)) 53) as [H|H]; [assumption|].
    assert (2 ^ 53 <= 2 ^ (Zpos (Pos.size p) - 1)) by (apply Z.pow_le_mono_r; lia).
    lia. }
  unfold normal_m. destruct (Zpos (Pos.size p) - 53) as [|c|c] eqn:E; try lia.
  rewrite iter_xO_size. lia.
Qed.

Lemma binary_normalize_pos (s : bool) (p : positive) :
  Zpos p < 2 ^ 53 ->
  binary_round prec emax s p 0 = S754_finite s (normal_m p) (normal_e p).
Proof.
  intros Hp. pose proof (normal_m_size p Hp) as Hs.
  pose proof (size_bounds p) as [Hl Hu].
  assert (Hd : Zpos (Pos.size p) <= 53).
  { destruct (Z.le_gt_cases (Zpos (Pos.size p)) 53) as [H|H]; [assumption|].
    assert (2 ^ 53 <= 2 ^ (Zpos (Pos.size p) - 1)) by (apply Z.pow_le_mono_r; lia).
    lia. }
  unfold binary_round, shl_align.
  rewrite digits2_size.
  assert (Hf : fexp prec emax (Zpos (Pos.size p) + 0) = Zpos (Pos.size p) - 53).
  { unfold fexp, SpecFloat.emin, prec, emax. lia. }
  rewrite Hf. rewrite Z.sub_0_r.
  assert (Haux : forall m e, Zpos (Pos.size m) = 53 -> -52 <= e <= 0 ->
    binary_round_aux prec emax s (Zpos m) e loc_Exact = S754_finite s m e).
  { intros m e Hm He. unfold binary_round_aux, shr_fexp.
    cbn [Zdigits2 shr_record_of_loc]. rewrite digits2_size.
    assert (Hf' : fexp prec emax (Zpos (Pos.size m) + e) - e = 0).
    { unfold fexp, SpecFloat.emin, prec, emax. lia. }
    rewrite Hf'. cbn [shr shr_m loc_of_shr_record round_nearest_even Zdigits2].
    rewrite digits2_size, Hf'. cbn [shr shr_m].
    destruct (Z.leb_spec e (emax - prec)); [reflexivity|].
    unfold prec, emax in *. lia. }
  unfold normal_m, normal_e in *.
  destruct (Zpos (Pos.size p) - 53) as [|c|c] eqn:E; try lia.
  - apply Haux; [assumption | lia].
  - apply Haux; [assumption | lia].
Qed.

Lemma binary_normalize_repr (z : Z) :
  Z.abs z < 2 ^ 53 -> binary_normalize prec emax z 0 false = repr z.
Proof.
  destruct z as [|p|p]; simpl; intros Hz.
  - reflexivity.
  - now apply binary_normalize_pos.
  - now apply binary_normalize_pos.
Qed.

Lemma repr_valid (z : Z) : Z.abs z < 2 ^ 53 -> valid_binary (repr z) = true.
Proof.
  assert (H : forall p, Zpos p < 2 ^ 53 ->
            bounded prec emax (normal_m p) (normal_e p) = true).
  { intros p Hp. pose proof (normal_m_size p Hp) as Hs.
    pose proof (size_bounds p) as [Hl Hu].
    unfold bounded, canonical_mantissa. rewrite digits2_size.
    apply andb_true_iff. split.
    - apply Z.eqb_eq. unfold fexp, SpecFloat.emin, prec, emax, normal_e. lia.
    - apply Z.leb_le. unfold prec, emax, normal_e.
      assert (Zpos (Pos.size p) <= 53); [|lia].
      destruct (Z.le_gt_cases (Zpos (Pos.size p)) 53) as [H|H]; [assumption|].
      assert (2 ^ 53 <= 2 ^ (Zpos (Pos.size p) - 1)) by (apply Z.pow_le_mono_r; lia).
      lia. }
  destruct z as [|p|p]; simpl; intros Hz; [reflexivity | now apply H..].
Qed.

Lemma Prim2SF_of_Z (z : Z) : Z.abs z < 2 ^ 53 -> Prim2SF (F64.of_Z z) = repr z.
Proof.
  intros Hz. unfold F64.of_Z. rewrite binary_normalize_repr by assumption.
  apply Prim2SF_SF2Prim. now apply repr_valid.
Qed.

Lemma normal_compare (a b : positive) :
  Zpos a < 2 ^ 53 -> Zpos b < 2 ^ 53 ->
  match normal_e a ?= normal_e b with
  | Lt => Lt
  | Gt => Gt
  | Eq => (normal_m a ?= normal_m b)%positive
  end = (a ?= b)%positive.
Proof.
  intros Ha Hb. unfold normal_e.
  pose proof (size_bounds a) as [Hla Hua]. pose proof (size_bounds b) as [Hlb Hub].
  destruct (Z.compare_spec (Zpos (Pos.size a) - 53) (Zpos (Pos.size b) - 53)) as [E|E|E].
  - assert (Es : Pos.size a = Pos.size b) by lia.
    unfold normal_m. rewrite Es.
    destruct (Zpos (Pos.size b) - 53) as [|c|c]; try reflexivity.
    rewrite !Pos2Z.inj_compare, !iter_xO_val.
    assert (0 < 2 ^ Zpos c) by (apply Z.pow_pos_nonneg; lia).
    destruct (Z.compare_spec (Zpos a) (Zpos b)) as [E'|E'|E'].
    + rewrite E'. apply Z.compare_refl.
    + apply Z.compare_lt_iff. nia.
    + apply Z.compare_gt_iff. nia.
  - symmetry. apply Pos.compare_lt_iff. apply Pos2Z.pos_lt_pos.
    assert (2 ^ Zpos (Pos.size a) <= 2 ^ (Zpos (Pos.size b) - 1))
      by (apply Z.pow_le_mono_r; lia).
    lia.
  - symmetry. apply Pos.compare_gt_iff. apply Pos2Z.pos_lt_pos.
    assert (2 ^ Zpos (Pos.size b) <= 2 ^ (Zpos (Pos.size a) - 1))
      by (apply Z.pow_le_mono_r; lia).
    lia.
Qed.

Lemma repr_compare (a b : Z) :
  Z.abs a < 2 ^ 53 -> Z.abs b < 2 ^ 53 ->
  SFcompare (repr a) (repr b) = Some (a ?= b).
Proof.
  intros Ha Hb.
  destruct a as [|a|a]; destruct b as [|b|b]; simpl; try reflexivity.
  - f_equal. now apply normal_compare.
  - f_equal. rewrite <- (normal_compare a b) by assumption.
    destruct (normal_e a ?= normal_e b); reflexivity.
Qed.

Lemma of_Z_ltb (a b : Z) :
  Z.abs a < 2 ^ 53 -> Z.abs b < 2 ^ 53 -> (F64.of_Z a <? F64.of_Z b)%float = (a <? b).
Proof.
  intros Ha Hb. rewrite ltb_spec, !Prim2SF_of_Z by assumption.
  unfold SFltb. rewrite repr_compare by assumption.
  unfold Z.ltb. now destruct (a ?= b).
Qed.

Lemma of_Z_leb (a b : Z) :
  Z.abs a < 2 ^ 53 -> Z.abs b < 2 ^ 53 -> (F64.of_Z a <=? F64.of_Z b)%float = (a <=? b).
Proof.
  intros Ha Hb. rewrite leb_spec, !Prim2SF_of_Z by assumption.
  unfold SFleb. rewrite repr_compare by assumption.
  unfold Z.leb. now destruct (a ?= b).
Qed.

Lemma of_Z_eqb (a b : Z) :
  Z.abs a < 2 ^ 53 -> Z.abs b < 2 ^ 53 -> (F64.of_Z a =? F64.of_Z b)%float = (a =? b).
Proof.
  intros Ha Hb. rewrite eqb_spec, !Prim2SF_of_Z by assumption.
  unfold SFeqb. rewrite repr_compare by assumption.
  rewrite Z.eqb_compare. now destruct (a ?= b).
Qed.

Lemma of_Z_not_nan (a : Z) : Z.abs a < 2 ^ 53 -> is_nan (F64.of_Z a) = false.
Proof.
  intros Ha. unfold is_nan. rewrite of_Z_eqb, Z.eqb_refl by assumption. reflexivity.
Qed.

(** ** [np.interp] on sorted points *)

Lemma is_nan_eq (y : float) : is_nan y = true -> y = nan.
Proof.
  intros Hy. rewrite <- (SF2Prim_Prim2SF y). unfold Prim2SF. now rewrite Hy.
Qed.

Lemma last_cons {A : Type} (a d : A) (l : list A) : last (a :: l) d = last l a.
Proof.
  revert a d. induction l as [|b t IH]; intros a d; [reflexivity|].
  change (last (a :: b :: t) d) with (last (b :: t) d). now rewrite !IH.
Qed.

(** The search goes past the points that are not to the right of [x]. *)
Lemma interp_from_walk (x : float) (p0 : float * float)
    (l rest : list (float * float)) :
  (forall r, In r l -> (x <? fst r)%float = false) ->
  Np.interp_from x p0 (l ++ rest) = Np.interp_from x (last l p0) rest.
Proof.
  revert p0. induction l as [|r t IH]; intros p0 Hl; [reflexivity|].
  simpl app. cbn [Np.interp_from]. rewrite (Hl r (or_introl eq_refl)).
  rewrite IH by (intros; apply Hl; now right). now rewrite last_cons.
Qed.

(** To the right of every point: the ordinate of the last one. *)
Lemma interp_right (x : float) (l : list (float * float)) (p : float * float) :
  is_nan x = false ->
  (forall r, In r (l ++ [p]) -> (x <? fst r)%float = false) ->
  Np.interp x (l ++ [p]) = snd p.
Proof.
  intros Hx Hl. destruct l as [|p0 l]; simpl app; unfold Np.interp; rewrite Hx.
  - rewrite (Hl p) by now left. reflexivity.
  - rewrite (Hl p0) by now left.
    rewrite interp_from_walk by (intros; apply Hl; right; apply in_or_app; now left).
    cbn [Np.interp_from].
    rewrite (Hl p) by (right; apply in_or_app; right; now left).
    reflexivity.
Qed.

(** Between two neighbours: on the line through them. *)
Lemma interp_between (x : float) (l1 l2 : list (float * float)) (p q : float * float) :
  is_nan x = false ->
  (forall r, In r (l1 ++ [p]) -> (x <? fst r)%float = false) ->
  (x <? fst q)%float = true -> (fst p =? x)%float = false ->
  Np.interp x ((l1 ++ [p]) ++ q :: l2) = Np.segment x p q.
Proof.
  intros Hx Hl Hq Hp.
  destruct l1 as [|p0 l1]; simpl app; unfold Np.interp; rewrite Hx.
  - rewrite (Hl p) by now left. cbn [Np.interp_from]. now rewrite Hq, Hp.
  - rewrite (Hl p0) by now left.
    rewrite interp_from_walk by (intros; apply Hl; now right).
    rewrite last_last. cbn [Np.interp_from]. now rewrite Hq, Hp.
Qed.

Lemma sort_points_sorted (pts : list (float * float)) :
  StronglySorted (fun p q => (fst p <=? fst q)%float = true) pts ->
  Pd.sort_points pts = pts.
Proof.
  induction 1 as [|p t Ht IH Hp]; simpl; [reflexivity|].
  rewrite IH. destruct t as [|q t]; [reflexivity|].
  simpl. inversion Hp as [|? ? Hq _]; subst. now rewrite Hq.
Qed.

(** ** The NumPy-based methods compute [np_fill] *)

Lemma next_observed_None (rows : list (Z * float)) :
  next_observed rows = None -> filter zobserved rows = [].
Proof.
  induction rows as [|r t IH]; simpl; [reflexivity|].
  unfold zobserved at 1. destruct (is_nan (snd r)); [exact IH | discriminate].
Qed.

Lemma next_observed_Some (rows : list (Z * float)) (q : Z * float) :
  next_observed rows = Some q ->
  exists l, filter zobserved rows = q :: l /\ In q rows.
Proof.
  induction rows as [|r t IH]; simpl; [discriminate|].
  unfold zobserved at 1. destruct (is_nan (snd r)); simpl.
  - intros E. destruct (IH E) as (l & El & Hin). exists l. auto.
  - intros E. inversion E; subst. eexists. split; [reflexivity | now left].
Qed.

Lemma observed_points (rows : list (Z * float)) :
  filter Pd.observed (map point rows) = map point (filter zobserved rows).
Proof.
  induction rows as [|r t IH]; simpl; [reflexivity|].
  change (Pd.observed (point r)) with (zobserved r).
  destruct (zobserved r); simpl; now rewrite IH.
Qed.

Lemma sorted_app_inv (done : list (Z * float)) (r : Z * float) (t : list (Z * float)) :
  StronglySorted by_abscissa (done ++ r :: t) ->
  (forall r', In r' done -> fst r' < fst r) /\ (forall q, In q t -> fst r < fst q).
Proof.
  induction done as [|d done IH]; simpl; intros Hs.
  - inversion Hs as [|? ? _ Hr]; subst. rewrite Forall_forall in Hr.
    split; [tauto | exact Hr].
  - inversion Hs as [|? ? Hs' Hd]; subst. rewrite Forall_forall in Hd.
    destruct (IH Hs') as [H1 H2]. split; [|exact H2].
    intros r' [<-|Hin]; [|now apply H1].
    apply Hd. apply in_or_app. right. now left.
Qed.

Lemma sorted_points (rows : list (Z * float)) :
  StronglySorted by_abscissa rows -> bounded_rows rows ->
  StronglySorted (fun p q => (fst p <=? fst q)%float = true) (map point rows).
Proof.
  induction 1 as [|r t Ht IH Hr]; intros Hb; simpl; [constructor|].
  inversion Hb as [|? ? Hbr Hbt]; subst.
  constructor; [now apply IH|].
  rewrite Forall_forall in *. intros p Hp.
  apply in_map_iff in Hp as (q & <- & Hq). simpl.
  rewrite of_Z_leb; [|assumption | now apply Hbt].
  apply Z.leb_le. specialize (Hr q Hq). unfold by_abscissa in Hr. lia.
Qed.

Lemma filter_sorted_rows (f : Z * float -> bool) (rows : list (Z * float)) :
  StronglySorted by_abscissa rows -> StronglySorted by_abscissa (filter f rows).
Proof.
  induction 1 as [|r t Ht IH Hr]; simpl; [constructor|].
  destruct (f r); [|assumption].
  constructor; [assumption|].
  rewrite Forall_forall in *. intros x Hx. apply filter_In in Hx. now apply Hr.
Qed.

Lemma filter_bounded_rows (f : Z * float -> bool) (rows : list (Z * float)) :
  bounded_rows rows -> bounded_rows (filter f rows).
Proof.
  unfold bounded_rows. rewrite !Forall_forall. intros Hb r Hr.
  apply filter_In in Hr. now apply Hb.
Qed.

Section NumpyFill.

Variable rows : list (Z * float).
Hypothesis rows_sorted : StronglySorted by_abscissa rows.
Hypothesis rows_bounded : bounded_rows rows.

Lemma interp_missing_row (done t : list (Z * float)) (r p : Z * float)
    (l : list (Z * float)) :
  rows = done ++ r :: t -> is_nan (snd r) = true ->
  filter zobserved done = l ++ [p] ->
  Np.interp (F64.of_Z (fst r)) (known_points rows)
  = match next_observed t with
    | None => snd p
    | Some q => Np.segment (F64.of_Z (fst r)) (point p) (point q)
    end.
Proof.
  intros E Hr Hl.
  pose proof rows_sorted as Hs. rewrite E in Hs.
  apply sorted_app_inv in Hs as [Hbefore Hafter].
  pose proof rows_bounded as Hb. unfold bounded_rows in Hb.
  rewrite E, Forall_forall in Hb.
  assert (Hbr : Z.abs (fst r) < 2 ^ 53).
  { apply Hb. apply in_or_app. right. now left. }
  assert (Hx : is_nan (F64.of_Z (fst r)) = false) by now apply of_Z_not_nan.
  assert (Hleft : forall r', In r' (map point l ++ [point p]) ->
            (F64.of_Z (fst r) <? fst r')%float = false).
  { intros r' Hr'. change [point p] with (map point [p]) in Hr'.
    rewrite <- map_app, <- Hl in Hr'.
    apply in_map_iff in Hr' as (d & <- & Hd). apply filter_In in Hd as [Hd _].
    simpl. rewrite of_Z_ltb; [| assumption | apply Hb, in_or_app; now left].
    apply Z.ltb_ge. specialize (Hbefore d Hd). lia. }
  assert (Hpts : (known_points rows) = (map point l ++ [point p]) ++ map point (filter zobserved t)).
  { unfold known_points. rewrite E, filter_app, Hl. simpl.
    change (zobserved r) with (negb (is_nan (snd r))). rewrite Hr. simpl.
    now rewrite !map_app. }
  rewrite Hpts.
  destruct (next_observed t) as [q|] eqn:Hn.
  - apply next_observed_Some in Hn as (l2 & El2 & Hq). rewrite El2. simpl map.
    assert (Hbq : Z.abs (fst q) < 2 ^ 53).
    { apply Hb, in_or_app. right. now right. }
    assert (Hbp : Z.abs (fst p) < 2 ^ 53).
    { apply Hb, in_or_app. left.
      assert (Hin : In p (filter zobserved done))
        by (rewrite Hl; apply in_or_app; right; now left).
      now apply filter_In in Hin. }
    assert (Hp : fst p < fst r).
    { apply Hbefore.
      assert (Hin : In p (filter zobserved done))
        by (rewrite Hl; apply in_or_app; right; now left).
      now apply filter_In in Hin. }
    apply interp_between; try assumption; simpl.
    + rewrite of_Z_ltb by assumption. apply Z.ltb_lt. now apply Hafter.
    + rewrite of_Z_eqb by assumption. apply Z.eqb_neq. lia.
  - apply next_observed_None in Hn. rewrite Hn. simpl map. rewrite app_nil_r.
    now apply interp_right.
Qed.

Lemma fill_missing_np_fill (todo done : list (Z * float))
    (prev : option (Z * float)) (seen : bool) :
  rows = done ++ todo -> passed prev seen done ->
  Pd.fill_missing seen (map snd todo)
    (map (fun x => Np.interp x (known_points rows)) (map fst (filter Pd.missing (map point todo))))
  = np_fill prev todo.
Proof.
  revert done prev seen.
  induction todo as [|r t IH]; intros done prev seen E Hp; [reflexivity|].
  assert (E' : rows = (done ++ [r]) ++ t) by now rewrite <- app_assoc.
  cbn [map filter np_fill Pd.fill_missing].
  change (Pd.missing (point r)) with (is_nan (snd r)).
  destruct (is_nan (snd r)) eqn:Hr.
  - cbn [map hd tl fst point]. f_equal.
    + destruct prev as [p|]; destruct Hp as [Hp ->]; [|reflexivity].
      destruct Hp as (l & Hl). now apply interp_missing_row with (done := done) (l := l).
    + apply IH with (done := done ++ [r]); [assumption|].
      destruct prev as [p|]; destruct Hp as [Hp ->]; (split; [|reflexivity]);
        rewrite filter_app; simpl;
        change (zobserved r) with (negb (is_nan (snd r))); rewrite Hr; simpl;
        now rewrite app_nil_r.
  - f_equal. apply IH with (done := done ++ [r]); [assumption|].
    split; [|reflexivity].
    exists (filter zobserved done). rewrite filter_app. simpl.
    change (zobserved r) with (negb (is_nan (snd r))). now rewrite Hr.
Qed.

End NumpyFill.

Lemma np_fill_all_observed (prev : option (Z * float)) (rows : list (Z * float)) :
  forallb (fun y => negb (is_nan y)) (map snd rows) = true ->
  np_fill prev rows = map snd rows.
Proof.
  revert prev. induction rows as [|r t IH]; intros prev; simpl; [reflexivity|].
  intros H. apply andb_true_iff in H as [Hr Ht].
  apply negb_true_iff in Hr. rewrite Hr. f_equal. now apply IH.
Qed.

Lemma np_fill_all_missing (rows : list (Z * float)) :
  forallb is_nan (map snd rows) = true -> np_fill None rows = map snd rows.
Proof.
  induction rows as [|r t IH]; simpl; [reflexivity|].
  intros H. apply andb_true_iff in H as [Hr Ht].
  rewrite Hr. rewrite (is_nan_eq (snd r) Hr). f_equal. now apply IH.
Qed.

Lemma combine_points (rows : list (Z * float)) :
  combine (map (fun r => F64.of_Z (fst r)) rows) (map snd rows) = map point rows.
Proof. induction rows as [|r t IH]; simpl; [reflexivity | now rewrite IH]. Qed.

Section Numpy.

Variable scipy : string -> Z -> list (float * float) -> list float -> result (list float).

(** [interpolate_1d] with a NumPy-based method on rows in increasing
    order. *)
Lemma interpolate_1d_numpy (method : string) (order : Z) (rows : list (Z * float)) :
  Pd.mem method Pd.NP_METHODS = true -> String.eqb method "time" = false ->
  StronglySorted by_abscissa rows -> bounded_rows rows ->
  Pd.interpolate_1d scipy method order
    (map (fun r => F64.of_Z (fst r)) rows) (map snd rows)
  = Ok (np_fill None rows).
Proof.
  intros Hnp Ht Hs Hb. unfold Pd.interpolate_1d.
  destruct (forallb is_nan (map snd rows)) eqn:Hall;
    [now rewrite np_fill_all_missing|].
  destruct (forallb (fun y => negb (is_nan y)) (map snd rows)) eqn:Hobs;
    [now rewrite np_fill_all_observed|].
  rewrite Ht. unfold Pd.interpolated_values. rewrite Hnp. cbn [bind].
  rewrite length_map, Nat.eqb_refl. f_equal.
  rewrite combine_points, observed_points.
  rewrite sort_points_sorted.
  - apply (fill_missing_np_fill rows Hs Hb rows [] None false); [reflexivity|].
    now split.
  - apply sorted_points; [now apply filter_sorted_rows | now apply filter_bounded_rows].
Qed.

End Numpy.

(** ** Positions and abscissas of the labels *)

Lemma zsorted_app_inv (pre : list Z) (k : Z) (post : list Z) :
  StronglySorted Z.lt (pre ++ k :: post) ->
  (forall x, In x pre -> x < k) /\ (forall x, In x post -> k < x).
Proof.
  induction pre as [|a pre IH]; simpl; intros Hs.
  - inversion Hs as [|? ? _ Hk]; subst. rewrite Forall_forall in Hk.
    split; [tauto | exact Hk].
  - inversion Hs as [|? ? Hs' Ha]; subst. rewrite Forall_forall in Ha.
    destruct (IH Hs') as [H1 H2]. split; [|exact H2].
    intros x [<-|Hin]; [|now apply H1].
    apply Ha. apply in_or_app. right. now left.
Qed.

Lemma filter_none {A : Type} (f : A -> bool) (l : list A) :
  (forall x, In x l -> f x = false) -> filter f l = [].
Proof.
  induction l as [|a t IH]; simpl; [reflexivity|].
  intros Hf. rewrite (Hf a (or_introl eq_refl)). apply IH. auto.
Qed.

Lemma position_split (pre : list Z) (k : Z) (post : list Z) :
  StronglySorted Z.lt (pre ++ k :: post) ->
  position (pre ++ k :: post) k = Z.of_nat (List.length pre).
Proof.
  intros Hs. apply zsorted_app_inv in Hs as [Hpre Hpost].
  unfold position. rewrite filter_app. simpl. rewrite Z.ltb_irrefl.
  rewrite (filter_all _ pre), (filter_none _ post), app_nil_r; [reflexivity | |].
  - intros x Hx. apply Z.ltb_ge. specialize (Hpost x Hx). lia.
  - intros x Hx. apply Z.ltb_lt. now apply Hpre.
Qed.

Lemma positions_from (idx pre post : list Z) :
  StronglySorted Z.lt idx -> idx = pre ++ post ->
  map (position idx) post = map Z.of_nat (seq (List.length pre) (List.length post)).
Proof.
  intros Hs. revert pre. induction post as [|k post IH]; intros pre E; [reflexivity|].
  simpl. f_equal.
  - rewrite E. apply position_split. now rewrite <- E.
  - replace (S (List.length pre)) with (List.length (pre ++ [k]))
      by (rewrite length_app; simpl; lia).
    apply IH. now rewrite <- app_assoc.
Qed.

Lemma positions_seq (idx : list Z) :
  StronglySorted Z.lt idx ->
  map (position idx) idx = map Z.of_nat (seq 0 (List.length idx)).
Proof. intros Hs. now apply (positions_from idx [] idx). Qed.

Lemma frame_rows_snd (method : string) (df : list (Z * float)) (idx : list Z) :
  map snd (frame_rows method df idx) = map (Pd.lookup df) idx.
Proof. unfold frame_rows. now rewrite map_map. Qed.

Lemma frame_rows_fst (method : string) (df : list (Z * float)) (idx : list Z) :
  StronglySorted Z.lt idx ->
  map fst (frame_rows method df idx)
  = if String.eqb method "linear" then map Z.of_nat (seq 0 (List.length idx)) else idx.
Proof.
  intros Hs. unfold frame_rows, coordinate. rewrite map_map. simpl.
  destruct (String.eqb method "linear").
  - now apply positions_seq.
  - apply map_id.
Qed.

Lemma by_abscissa_fst (rows : list (Z * float)) :
  StronglySorted Z.lt (map fst rows) -> StronglySorted by_abscissa rows.
Proof.
  induction rows as [|r t IH]; simpl; intros Hs; [constructor|].
  inversion Hs as [|? ? Ht Hr]; subst. constructor; [now apply IH|].
  rewrite Forall_forall in *. intros q Hq. apply Hr. now apply in_map.
Qed.

Lemma seq_sorted (start n : nat) :
  StronglySorted Z.lt (map Z.of_nat (seq start n)).
Proof.
  revert start. induction n as [|n IH]; intros start; simpl; constructor; [apply IH|].
  rewrite Forall_forall. intros x Hx. apply in_map_iff in Hx as (j & <- & Hj).
  apply in_seq in Hj. lia.
Qed.

Lemma frame_rows_sorted (method : string) (df : list (Z * float)) (idx : list Z) :
  StronglySorted Z.lt idx -> StronglySorted by_abscissa (frame_rows method df idx).
Proof.
  intros Hs. apply by_abscissa_fst. rewrite frame_rows_fst by assumption.
  destruct (String.eqb method "linear"); [apply seq_sorted | assumption].
Qed.

Lemma frame_rows_bounded (method : string) (df : list (Z * float)) (idx : list Z) :
  StronglySorted Z.lt idx ->
  Forall (fun k => Z.abs k < 2 ^ 53) idx -> Z.of_nat (List.length idx) < 2 ^ 53 ->
  bounded_rows (frame_rows method df idx).
Proof.
  intros Hs Hb Hl. unfold bounded_rows.
  rewrite <- (Forall_map fst (fun k => Z.abs k < 2 ^ 53)).
  rewrite frame_rows_fst by assumption.
  destruct (String.eqb method "linear"); [|assumption].
  apply Forall_forall. intros x Hx. apply in_map_iff in Hx as (j & <- & Hj).
  apply in_seq in Hj. lia.
Qed.

Section NumpyFrame.

Variable scipy : string -> Z -> list (float * float) -> list float -> result (list float).

(** Line 40 with a NumPy-based method, on an index in increasing order
    whose labels and length binary64 holds exactly. *)
Lemma interpolate_numpy (method : string) (order : Z) (df : list (Z * float))
    (idx : list Z) :
  In method ["linear"; "index"; "values"]%string ->
  StronglySorted Z.lt idx ->
  Forall (fun k => Z.abs k < 2 ^ 53) idx -> Z.of_nat (List.length idx) < 2 ^ 53 ->
  Pd.interpolate scipy method order idx (map (Pd.lookup df) idx)
  = Ok (np_fill None (frame_rows method df idx)).
Proof.
  intros Hm Hs Hb Hl.
  pose proof (interpolate_1d_numpy scipy method order (frame_rows method df idx)) as H1.
  rewrite frame_rows_snd in H1.
  rewrite <- (map_map fst F64.of_Z), frame_rows_fst in H1 by assumption.
  unfold Pd.interpolate. destruct idx as [|k idx]; [reflexivity|].
  simpl in Hm. destruct Hm as [<-|[<-|[<-|[]]]];
    cbv [Pd.mem Pd.FORWARD_FILL Pd.BACKWARD_FILL Pd.NP_METHODS Pd.SP_METHODS
         Pd.MONOTONIC_METHODS existsb String.eqb Ascii.eqb Bool.eqb orb andb negb];
    cbv [String.eqb Ascii.eqb Bool.eqb] in H1;
    cbn [Pd.to_float Pd.Int64Label].
  - rewrite <- map_map with (f := Z.of_nat) (g := F64.of_Z).
    apply H1; [reflexivity | reflexivity | now apply frame_rows_sorted
              | now apply frame_rows_bounded].
  - apply H1; [reflexivity | reflexivity | now apply frame_rows_sorted
              | now apply frame_rows_bounded].
  - apply H1; [reflexivity | reflexivity | now apply frame_rows_sorted
              | now apply frame_rows_bounded].
Qed.

End NumpyFrame.

(** ** The shape of [np_fill] around observed rows *)

Lemma np_fill_to_observed (prev : option (Z * float)) (a b : list (Z * float))
    (r : Z * float) :
  is_nan (snd r) = false ->
  exists pre,
    List.length pre = List.length a /\
    np_fill prev (a ++ r :: b) = pre ++ snd r :: np_fill (Some r) b.
Proof.
  intros Hr. revert prev. induction a as [|x a IH]; intros prev.
  - exists []. split; [reflexivity|]. simpl. now rewrite Hr.
  - simpl. destruct (is_nan (snd x)).
    + destruct (IH prev) as (pre & Hl & E). rewrite E.
      eexists (_ :: pre). split; [simpl; now rewrite Hl | reflexivity].
    + destruct (IH (Some x)) as (pre & Hl & E). rewrite E.
      eexists (_ :: pre). split; [simpl; now rewrite Hl | reflexivity].
Qed.

Lemma np_fill_trailing (p : Z * float) (b : list (Z * float)) :
  (forall r, In r b -> is_nan (snd r) = true) ->
  np_fill (Some p) b = repeat (snd p) (List.length b).
Proof.
  induction b as [|r b IH]; intros Hb; [reflexivity|].
  assert (Hn : next_observed b = None).
  { clear IH. induction b as [|x b IHb]; [reflexivity|].
    simpl. rewrite (Hb x) by (right; now left).
    apply IHb. intros y [<-|Hy]; apply Hb; [now left | right; now right]. }
  simpl. rewrite (Hb r) by now left. rewrite Hn. f_equal.
  apply IH. intros; apply Hb; now right.
Qed.

Lemma next_observed_gap (mid post : list (Z * float)) (q : Z * float) :
  (forall r, In r mid -> is_nan (snd r) = true) -> is_nan (snd q) = false ->
  next_observed (mid ++ q :: post) = Some q.
Proof.
  intros Hm Hq. induction mid as [|x mid IH]; simpl.
  - now rewrite Hq.
  - rewrite (Hm x) by now left. apply IH. intros; apply Hm; now right.
Qed.

Lemma np_fill_gap (p q : Z * float) (mid post : list (Z * float)) :
  (forall r, In r mid -> is_nan (snd r) = true) -> is_nan (snd q) = false ->
  np_fill (Some p) (mid ++ q :: post)
  = map (fun r => Np.segment (F64.of_Z (fst r)) (point p) (point q)) mid
    ++ snd q :: np_fill (Some q) post.
Proof.
  intros Hm Hq. induction mid as [|x mid IH]; simpl.
  - now rewrite Hq.
  - rewrite (Hm x) by now left.
    rewrite next_observed_gap; [| intros; apply Hm; now right | assumption].
    f_equal. apply IH. intros; apply Hm; now right.
Qed.

(** ** Line 41 around an observed entry *)

Lemma ffill_from_app (last v : float) (a b : list float) :
  is_nan v = false ->
  Pd.ffill_from last (a ++ v :: b) = Pd.ffill_from last a ++ v :: Pd.ffill_from v b.
Proof.
  intros Hv. revert last. induction a as [|y a IH]; intros last; simpl.
  - now rewrite Hv.
  - destruct (is_nan y); now rewrite IH.
Qed.

Lemma ffill_from_length (last : float) (ys : list float) :
  List.length (Pd.ffill_from last ys) = List.length ys.
Proof. apply keeps_length, ffill_from_keeps. Qed.

Lemma bfill_length (ys : list float) : List.length (Pd.bfill ys) = List.length ys.
Proof. apply keeps_length, bfill_keeps. Qed.

Lemma bfill_app_observed (a s : list float) :
  Forall (fun y => is_nan y = false) s ->
  exists a', List.length a' = List.length a /\ Pd.bfill (a ++ s) = a' ++ s.
Proof.
  intros Hs. induction a as [|y a (a' & Hl & E)].
  - exists []. split; [reflexivity | now apply bfill_observed].
  - simpl. rewrite E. eexists (_ :: a'). split; [simpl; now rewrite Hl | reflexivity].
Qed.

(** After the last observed entry [v], when the interpolation has left
    nothing else than [v] there: [v]. *)
Lemma fill_trailing (v : float) (a b : list float) :
  is_nan v = false -> only v b ->
  exists a',
    List.length a' = List.length a /\
    Pd.bfill (Pd.ffill (a ++ v :: b)) = a' ++ v :: repeat v (List.length b).
Proof.
  intros Hv Hb. unfold Pd.ffill.
  rewrite ffill_from_app, (ffill_from_value v b Hv Hb) by assumption.
  destruct (bfill_app_observed (Pd.ffill_from nan a) (v :: repeat v (List.length b)))
    as (a' & Hl & E).
  - constructor; [assumption|]. apply Forall_forall. intros y Hy.
    apply repeat_spec in Hy. now subst.
  - exists a'. split; [now rewrite Hl, ffill_from_length | exact E].
Qed.

Lemma bfill_only_prefix (v : float) (x r : list float) :
  is_nan v = false -> only v x ->
  Pd.bfill (x ++ v :: r) = repeat v (List.length x) ++ v :: Pd.bfill r.
Proof.
  intros Hv. induction 1 as [|y x Hy Hx IH]; simpl.
  - now rewrite Hv.
  - rewrite IH. destruct Hy as [->|Hy]; [rewrite Hv; reflexivity|].
    rewrite Hy. destruct x; reflexivity.
Qed.

(** Before the first observed entry [v], when the interpolation has left
    nothing else than [v] there: [v]. *)
Lemma fill_leading (v : float) (a rest : list float) :
  is_nan v = false -> only v a ->
  exists rest',
    List.length rest' = List.length rest /\
    Pd.bfill (Pd.ffill (a ++ v :: rest)) = repeat v (List.length a) ++ v :: rest'.
Proof.
  intros Hv Ha. unfold Pd.ffill. rewrite ffill_from_app by assumption.
  rewrite bfill_only_prefix; [| assumption | now apply only_ffill].
  rewrite ffill_from_length.
  eexists. split; [|reflexivity]. now rewrite bfill_length, ffill_from_length.
Qed.

Lemma fill_missing_leading (j : nat) (v : float) (rest new_y : list float) :
  is_nan v = false ->
  Pd.fill_missing false (repeat nan j ++ v :: rest) new_y
  = repeat nan j ++ v :: Pd.fill_missing true rest (skipn j new_y).
Proof.
  intros Hv. revert new_y. induction j as [|j IH]; intros new_y; simpl.
  - now rewrite Hv.
  - rewrite IH. destruct new_y; [|reflexivity].
    simpl tl. now rewrite skipn_nil.
Qed.

Section Leading.

Variable scipy : string -> Z -> list (float * float) -> list float -> result (list float).

(** Whatever the method, line 40 leaves the entries before the first
    observed one missing, or gives them its value. *)
Lemma interpolate_leading {L : Type} `{Pd.Label L} (method : string) (order : Z)
    (index : list L) (j : nat) (v : float) (rest ys : list float) :
  is_nan v = false ->
  Pd.interpolate scipy method order index (repeat nan j ++ v :: rest) = Ok ys ->
  exists pre rest',
    ys = pre ++ v :: rest' /\ List.length pre = j /\ only v pre.
Proof.
  intros Hv. unfold Pd.interpolate.
  destruct index as [|i index].
  { intros E. inversion E. exists (repeat nan j), rest.
    split; [reflexivity|]. split; [apply repeat_length | apply only_repeat_nan]. }
  destruct (Pd.mem method Pd.FORWARD_FILL).
  { intros E. inversion E. unfold Pd.ffill. rewrite ffill_from_app by assumption.
    do 2 eexists. split; [reflexivity|].
    split; [now rewrite ffill_from_length, repeat_length|].
    apply only_ffill; [assumption | apply only_repeat_nan]. }
  destruct (Pd.mem method Pd.BACKWARD_FILL).
  { intros E. inversion E.
    rewrite bfill_only_prefix by (assumption || apply only_repeat_nan).
    do 2 eexists. split; [reflexivity|].
    split; [now rewrite !repeat_length | apply only_repeat]. }
  destruct (negb _); [discriminate|].
  destruct (_ && _); [discriminate|].
  unfold Pd.interpolate_1d.
  destruct (forallb is_nan _).
  { intros E. inversion E. exists (repeat nan j), rest.
    split; [reflexivity|]. split; [apply repeat_length | apply only_repeat_nan]. }
  destruct (forallb _ _).
  { intros E. inversion E. exists (repeat nan j), rest.
    split; [reflexivity|]. split; [apply repeat_length | apply only_repeat_nan]. }
  destruct (String.eqb method "time"); [discriminate|].
  destruct (Pd.interpolated_values _ _ _ _ _) as [new_y|e]; cbn [bind]; [|discriminate].
  destruct (Nat.eqb _ _); [|discriminate].
  intros E. inversion E. rewrite fill_missing_leading by assumption.
  do 2 eexists. split; [reflexivity|].
  split; [apply repeat_length | apply only_repeat_nan].
Qed.

End Leading.

(** ** Rows on either side of a label *)

Lemma In_combine_app_inv {A B : Type} (a1 a2 : list A) (b1 b2 : list B) (x : A) (y : B) :
  List.length a1 = List.length b1 ->
  In (x, y) (combine (a1 ++ a2) (b1 ++ b2)) ->
  In (x, y) (combine a1 b1) \/ In (x, y) (combine a2 b2).
Proof.
  revert b1. induction a1 as [|a a1 IH]; intros [|b b1]; simpl; try discriminate.
  - auto.
  - intros E [H|H]; [now left; left|].
    injection E as E. destruct (IH b1 E H); auto.
Qed.

Lemma In_combine_app_r {A B : Type} (a1 a2 : list A) (b1 b2 : list B) (x : A) (y : B) :
  List.length a1 = List.length b1 ->
  In (x, y) (combine a2 b2) -> In (x, y) (combine (a1 ++ a2) (b1 ++ b2)).
Proof.
  revert b1. induction a1 as [|a a1 IH]; intros [|b b1]; simpl; try discriminate.
  - auto.
  - intros E H. injection E as E. right. now apply IH.
Qed.

Lemma lookup_absent_all (df : list (Z * float)) (l : list Z) :
  (forall x, In x l -> ~ In x (map fst df)) ->
  map (Pd.lookup df) l = repeat nan (List.length l).
Proof.
  induction l as [|a l IH]; simpl; intros Hl; [reflexivity|].
  rewrite lookup_not_In by (apply Hl; now left).
  f_equal. apply IH. intros; apply Hl; now right.
Qed.

Lemma bfill_app (a s : list float) :
  exists a', List.length a' = List.length a /\ Pd.bfill (a ++ s) = a' ++ Pd.bfill s.
Proof.
  induction a as [|y a (a' & Hl & E)].
  - now exists [].
  - simpl. rewrite E. eexists (_ :: a'). split; [simpl; now rewrite Hl | reflexivity].
Qed.

(** ** Sizes *)

Lemma drop_duplicates_length {A : Type} (same : A -> A -> bool) (l : list A) :
  (List.length (Pd.drop_duplicates same l) <= List.length l)%nat.
Proof.
  induction l as [|a t IH]; simpl; [lia|].
  destruct (existsb (same a) t); simpl; lia.
Qed.

Lemma zunion_length (self other : list Z) :
  (List.length (Pd.union self other) <= List.length self + List.length other)%nat.
Proof.
  unfold Pd.union. destruct self as [|a s]; destruct other as [|b o]; simpl; try lia.
  destruct (_ && _); simpl; [lia|].
  change (List.length (Pd.sort ((a :: s) ++
            filter (fun x => negb (existsb (Pd.eqb x) (a :: s))) (b :: o)))
          <= S (List.length s + S (List.length o)))%nat.
  rewrite sort_length, length_app.
  pose proof (filter_length_le (fun x => negb (existsb (Pd.eqb x) (a :: s))) (b :: o)).
  simpl in *. lia.
Qed.

Lemma mapM_length {A B : Type} (f : A -> result B) (l : list A) (l' : list B) :
  mapM f l = Ok l' -> List.length l' = List.length l.
Proof.
  revert l'. induction l as [|a t IH]; intros l'; simpl.
  - intros E. now inversion E.
  - destruct (f a); simpl; [|discriminate].
    destruct (mapM f t); simpl; [|discriminate].
    intros E. inversion E. simpl. f_equal. now apply IH.
Qed.

Lemma grid_length (M s : Z) : 0 < M -> 0 < s -> Z.of_nat (List.length (grid M s)) <= M.
Proof.
  intros HM Hs. unfold grid. rewrite length_map, length_seq.
  pose proof (ceil_div_pos M s HM Hs).
  rewrite Z2Nat.id by lia.
  destruct (Z.le_gt_cases (Np.ceil_div M s) M) as [H1|H1]; [assumption|].
  assert (H2 : M < Np.ceil_div M s) by lia.
  apply (ceil_div_spec M s M Hs) in H2. nia.
Qed.

Lemma new_index_length (df : list (Z * float)) (g : list Z) :
  (List.length (new_index df g) <= List.length df + List.length g)%nat.
Proof.
  unfold new_index.
  pose proof (drop_duplicates_length Z.eqb (Pd.union (map fst df) g)).
  pose proof (zunion_length (map fst df) g). rewrite length_map in *. lia.
Qed.

(** ** After the last observed label *)

Section Trailing.

Variable scipy : string -> Z -> list (float * float) -> list float -> result (list float).

Lemma interpolate_forward_fill {L : Type} `{Pd.Label L} (method : string) (order : Z)
    (index : list L) (ys : list float) :
  Pd.mem method Pd.FORWARD_FILL = true ->
  Pd.interpolate scipy method order index ys = Ok (Pd.ffill ys) \/ index = [].
Proof.
  intros Hm. unfold Pd.interpolate. destruct index; [now right|]. rewrite Hm. now left.
Qed.

Lemma interpolate_backward_fill {L : Type} `{Pd.Label L} (method : string) (order : Z)
    (index : list L) (ys : list float) :
  Pd.mem method Pd.FORWARD_FILL = false -> Pd.mem method Pd.BACKWARD_FILL = true ->
  Pd.interpolate scipy method order index ys = Ok (Pd.bfill ys) \/ index = [].
Proof.
  intros Hf Hm. unfold Pd.interpolate. destruct index; [now right|].
  rewrite Hf, Hm. now left.
Qed.

(** With a method that does not go through SciPy, line 40 leaves after the
    last observed value [v] nothing else than [v] or missing entries. *)
Lemma interpolate_trailing (method : string) (order : Z) (df : list (Z * float))
    (ipre : list Z) (k : Z) (ipost : list Z) (v : float) (ys : list float) :
  In method ["linear"; "index"; "values"; "ffill"; "pad"; "bfill"; "backfill"]%string ->
  StronglySorted Z.lt (ipre ++ k :: ipost) ->
  Forall (fun x => Z.abs x < 2 ^ 53) (ipre ++ k :: ipost) ->
  Z.of_nat (List.length (ipre ++ k :: ipost)) < 2 ^ 53 ->
  Pd.lookup df k = v -> is_nan v = false ->
  (forall x, In x ipost -> ~ In x (map fst df)) ->
  Pd.interpolate scipy method order (ipre ++ k :: ipost)
    (map (Pd.lookup df) (ipre ++ k :: ipost)) = Ok ys ->
  exists a b, ys = a ++ v :: b /\ List.length a = List.length ipre /\ only v b.
Proof.
  intros Hm Hs Hb Hl Hk Hv Hpost Hi.
  assert (Hne : ipre ++ k :: ipost <> []) by (destruct ipre; discriminate).
  assert (Hys : map (Pd.lookup df) (ipre ++ k :: ipost)
                = map (Pd.lookup df) ipre ++ v :: repeat nan (List.length ipost)).
  { rewrite map_app. cbn [map].
    now rewrite Hk, (lookup_absent_all df ipost Hpost). }
  simpl in Hm. destruct Hm as [Hm|[Hm|[Hm|Hm]]].
  1-3: rewrite interpolate_numpy in Hi;
    [| subst method; simpl; tauto | assumption..];
    inversion Hi; subst ys; clear Hi;
    unfold frame_rows; rewrite map_app; cbn [map];
    destruct (np_fill_to_observed None
                (map (fun k0 => (coordinate method (ipre ++ k :: ipost) k0,
                                 Pd.lookup df k0)) ipre)
                (map (fun k0 => (coordinate method (ipre ++ k :: ipost) k0,
                                 Pd.lookup df k0)) ipost)
                (coordinate method (ipre ++ k :: ipost) k, Pd.lookup df k))
      as (pre & Hpre & E); [simpl; now rewrite Hk | ];
    rewrite E, np_fill_trailing;
    [ exists pre; eexists; split;
      [simpl; rewrite Hk; reflexivity
      | split; [now rewrite Hpre, length_map | apply only_repeat] ]
    | intros r Hr; apply in_map_iff in Hr as (x & <- & Hx); simpl;
      now rewrite lookup_not_In by now apply Hpost ].
  destruct Hm as [Hm|[Hm|[Hm|[Hm|[]]]]].
  1-2: destruct (interpolate_forward_fill method order (ipre ++ k :: ipost)
                   (map (Pd.lookup df) (ipre ++ k :: ipost)))
         as [E|E]; [subst method; reflexivity | | contradiction];
       rewrite E in Hi; inversion Hi; subst ys; clear Hi E;
       rewrite Hys; unfold Pd.ffill; rewrite ffill_from_app by assumption;
       rewrite (ffill_from_value v _ Hv (only_repeat_nan v _));
       do 2 eexists; split; [reflexivity|];
       split; [now rewrite ffill_from_length, length_map | apply only_repeat].
  1-2: destruct (interpolate_backward_fill method order (ipre ++ k :: ipost)
                   (map (Pd.lookup df) (ipre ++ k :: ipost)))
         as [E|E]; [subst method; reflexivity | subst method; reflexivity | | contradiction];
       rewrite E in Hi; inversion Hi; subst ys; clear Hi E;
       rewrite Hys;
       destruct (bfill_app (map (Pd.lookup df) ipre) (v :: repeat nan (List.length ipost)))
         as (a' & Ha' & E); rewrite E; cbn [Pd.bfill]; rewrite Hv, bfill_all_nan;
       do 2 eexists; split; [reflexivity|];
       split; [now rewrite Ha', length_map | apply only_repeat_nan].
Qed.

End Trailing.

(** ** Rows in the left part of a frame *)

Lemma In_combine_app_l {A B : Type} (a1 a2 : list A) (b1 b2 : list B) (x : A) (y : B) :
  In (x, y) (combine a1 b1) -> In (x, y) (combine (a1 ++ a2) (b1 ++ b2)).
Proof.
  revert b1. induction a1 as [|a a1 IH]; intros [|b b1]; simpl; try tauto.
  intros [H|H]; [now left | right; now apply IH].
Qed.

(** ** Runs with the argument types of [main] *)

(** [main] passes an int horizon and the float step 0.01, whose scaled
    value is exactly 100.0: the grid is float64 and complete. *)
Lemma float_step_run :
  resample_dataframe no_scipy [(0.005, 1); (0.025, 3)]%float
    (PyFloat 0.05) (PyFloat 0.01) "index" 1
  = Ok [(0, 1); (0.01, 1.5); (0.02, 2.5); (0.03, 3); (0.04, 3)]%float.
Proof. vm_compute. reflexivity. Qed.

(** A float step whose scaled value is not an integer: [0.57 * 10^4] is
    5699.999999999999, [int] makes 5699 of it at line 44, and of the
    ticks 0, 0.57, 1.14 and 1.71 only the first passes the filter. *)
Lemma float_step_truncated :
  py_int (py_mul_int (PyFloat 0.57) precision) = Ok 5699 /\
  resample_dataframe no_scipy [] (PyInt 2) (PyFloat 0.57) "linear" 1
  = Ok [(0, nan)]%float.
Proof. split; vm_compute; reflexivity. Qed.

(** * The claims *)

(** ** C1: the ticks of the output *)

(** C1, as stated, fails: with [max_value = 4] and [step = 1] a sample at
    time 5 adds the tick 5.0 to the output, at the horizon and beyond. *)
Lemma C1_tick_beyond_horizon :
  exists out,
    resample_dataframe no_scipy [(5, 7)%float] (PyInt 4) (PyInt 1) "linear" 1 = Ok out /\
    map fst out = [0; 1; 2; 3; 5]%float /\
    map fst out <> map tick_time (grid (4 * precision) (1 * precision)).
Proof.
  eexists. split; [vm_compute; reflexivity|].
  split; [reflexivity|]. vm_compute. discriminate.
Qed.

(** C1, amended: for Python ints [max_value] and [step], both positive,
    the ticks of the returned series are the times of a strictly
    increasing list of scaled integer times, which holds exactly the grid
    ticks [0, s, 2s, ... < max_value * 10^4] (with [s = step * 10^4]) and
    the scaled sample times that are multiples of [s]; it is the grid
    itself as soon as every sample whose scaled time is a multiple of [s]
    lies in [[0, max_value * 10^4)]. *)
Theorem C1_ticks_int
    (scipy : string -> Z -> list (float * float) -> list float -> result (list float))
    (dataframe : list (float * float)) (mv st : Z) (method : string) (order : Z)
    (out : list (float * float)) :
  0 < mv -> 0 < st -> mv * precision < 2 ^ 53 -> st * precision < 2 ^ 53 ->
  resample_dataframe scipy dataframe (PyInt mv) (PyInt st) method order = Ok out ->
  exists ticks : list Z,
    map fst out = map tick_time ticks /\
    StronglySorted Z.lt ticks /\
    (forall k, In k ticks <->
       In k (grid (mv * precision) (st * precision)) \/
       (k mod (st * precision) = 0 /\
        exists t v, In (t, v) (samples dataframe) /\ scaled t = Ok k)) /\
    ((forall t v k, In (t, v) (samples dataframe) -> scaled t = Ok k ->
        k mod (st * precision) = 0 -> 0 <= k < mv * precision) ->
     ticks = grid (mv * precision) (st * precision)).
Proof.
  intros Hmv Hst HM Hs Hr.
  assert (Hp : 0 < precision) by reflexivity.
  assert (Hs0 : 0 < st * precision) by lia.
  assert (HM0 : 0 < mv * precision) by lia.
  rewrite resample_int in Hr by assumption.
  destruct (mapM Pd.scale_time _) as [df|e] eqn:Hdf; [|discriminate].
  cbn [bind] in Hr.
  destruct (filtered_on _ _ _ _ _ _) as [rows|e] eqn:Hf; [|discriminate].
  cbn [bind] in Hr. inversion Hr; subst out; clear Hr.
  apply filtered_index in Hf.
  set (g := grid (mv * precision) (st * precision)) in *.
  assert (Hg : StronglySorted Z.lt g) by now apply grid_sorted.
  assert (Hne : g <> []) by now apply grid_nonempty.
  assert (Hmem : forall k, In k (map fst rows) <->
            In k g \/ (k mod (st * precision) = 0 /\
              exists t v, In (t, v) (samples dataframe) /\ scaled t = Ok k)).
  { intros k. rewrite Hf, filter_In, new_index_In, mod_is_zero_int by assumption.
    split.
    - intros [[Hk|Hk] Hz]; [|now left].
      right. split; [assumption|].
      apply in_map_iff in Hk as ([k' v] & E & Hin). simpl in E. subst k'.
      apply (mapM_scale_In _ _ k v Hdf) in Hin as (t & Hin & Ht).
      now exists t, v.
    - intros [Hk|(Hz & t & v & Hin & Ht)].
      + split; [now right | now apply grid_mod with (M := mv * precision)].
      + split; [|assumption]. left.
        apply in_map_iff. exists (k, v). split; [reflexivity|].
        apply (mapM_scale_In _ _ k v Hdf). now exists t. }
  assert (Hsorted : StronglySorted Z.lt (map fst rows)).
  { rewrite Hf. now apply filter_sorted, new_index_sorted. }
  exists (map fst rows). split; [apply rescale_fst|].
  split; [assumption|]. split; [assumption|].
  intros Hin. apply strictly_sorted_ext; [assumption..|].
  intros k. rewrite Hmem. split; [|now left].
  intros [Hk|(Hz & t & v & Ht & Hk)]; [assumption|].
  apply grid_In; [assumption|].
  specialize (Hin t v k Ht Hk Hz).
  exists (k / (st * precision)). split; [apply Z.div_pos; lia|].
  split; [|lia].
  rewrite Z.mul_comm. apply Z.div_exact; lia.
Qed.

(** The theorem at work: three samples inside the horizon, one of them on
    a tick. *)
Lemma C1_ticks_int_witness :
  exists ticks : list Z,
    map fst [(0, 4); (1, 4); (2, 6); (3, 1)]%float = map tick_time ticks /\
    StronglySorted Z.lt ticks.
Proof.
  destruct (C1_ticks_int no_scipy [(0.5, 4); (2, 6); (2.25, 1)]%float 4 1
              "ffill" 1 [(0, 4); (1, 4); (2, 6); (3, 1)]%float)
    as (ticks & Ht & Hs & _); try (vm_compute; reflexivity).
  exists ticks. split; assumption.
Defined.

(** ** C2: samples with the same time *)

(** C2: two samples with the very same time give the later value at every
    tick they decide, but two samples whose times differ by less than
    [10^-4] are both kept by line 32, get one scaled time at line 33, and
    make [reindex] fail at line 38. *)
Theorem C2_duplicate_times
    (scipy : string -> Z -> list (float * float) -> list float -> result (list float)) :
  resample_dataframe scipy [(1, 5); (1, 9)]%float (PyInt 4) (PyInt 1) "linear" 1
  = Ok [(0, 9); (1, 9); (2, 9); (3, 9)]%float /\
  resample_dataframe scipy [(1, 5); (1.00001, 9)]%float (PyInt 4) (PyInt 1) "linear" 1
  = Err DuplicateLabelsError.
Proof. split; vm_compute; reflexivity. Qed.

(** ** C3: between two samples *)



(** ** C4: the edges *)


(** The example of C4 as it stands: no value below 10 or above 30. *)
Lemma C4_example
    (scipy : string -> Z -> list (float * float) -> list float -> result (list float)) :
  resample_dataframe scipy [(1, 10); (3, 30)]%float (PyInt 4) (PyInt 1) "linear" 1
  = Ok [(0, 10); (1, 10); (2, 20); (3, 30)]%float.
Proof. vm_compute. reflexivity. Qed.

(** What line 41 does after the last sample depends on the backend: it
    fills the entries line 40 has left missing, and keeps the others, so
    that a SciPy interpolator that extrapolates decides the value there. *)
Lemma C4_backend_values_stay :
  resample_dataframe line_backend [(1, 10); (3, 30)]%float (PyInt 5) (PyInt 1) "spline" 1
  = Ok [(0, 10); (1, 10); (2, 20); (3, 30); (4, 40)]%float.
Proof. vm_compute. reflexivity. Qed.



(** ** C5: a sample on a grid tick *)

(** C5: for Python ints [max_value] and [step], both positive, when the
    resampler returns a series, every sample left by line 32 whose value is
    not missing and whose scaled time is a grid tick is in that series
    with its own value, rounded to 4 decimals; and the series has one row
    per scaled time, so that this is the only value at that tick. *)
Theorem C5_sample_on_tick
    (scipy : string -> Z -> list (float * float) -> list float -> result (list float))
    (dataframe : list (float * float)) (mv st : Z) (method : string) (order : Z)
    (out : list (float * float)) (t v : float) (k : Z) :
  0 < mv -> 0 < st -> mv * precision < 2 ^ 53 -> st * precision < 2 ^ 53 ->
  resample_dataframe scipy dataframe (PyInt mv) (PyInt st) method order = Ok out ->
  In (t, v) (samples dataframe) -> is_nan v = false ->
  scaled t = Ok k -> In k (grid (mv * precision) (st * precision)) ->
  exists rows : list (Z * float),
    out = map rescale rows /\
    NoDup (map fst rows) /\
    In (k, Np.round DECIMAL_POINTS v) rows /\
    In (tick_time k, Np.round DECIMAL_POINTS v) out.
Proof.
  intros Hmv Hst HM Hs Hr Hin Hv Hk Hg.
  assert (Hp : 0 < precision) by reflexivity.
  rewrite resample_int in Hr by assumption. fold (samples dataframe) in Hr.
  destruct (mapM Pd.scale_time _) as [df|e] eqn:Hdf; [|discriminate].
  cbn [bind] in Hr.
  destruct (filtered_on _ _ _ _ _ _) as [rows|e] eqn:Hf; [|discriminate].
  cbn [bind] in Hr. inversion Hr; subst out; clear Hr.
  assert (Hrow : In (k, Np.round DECIMAL_POINTS v) rows).
  { apply (filtered_observed scipy df (grid (mv * precision) (st * precision))
             st method order rows k v); try assumption.
    - apply (mapM_scale_In _ _ k v Hdf). now exists t.
    - apply grid_mod with (M := mv * precision); [lia | assumption]. }
  exists rows. split; [reflexivity|]. split; [|split; [assumption|]].
  - rewrite (filtered_index _ _ _ _ _ _ _ Hf).
    apply strictly_sorted_NoDup, filter_sorted, new_index_sorted.
    + apply grid_sorted; lia.
    + apply grid_nonempty; lia.
  - apply in_map_iff. now exists (k, Np.round DECIMAL_POINTS v).
Qed.

Lemma C5_sample_on_tick_witness :
  In (tick_time 20000, Np.round DECIMAL_POINTS 6.123456)%float
     [(0, 4); (1, 4.7078); (2, 6.1235); (3, 1)]%float.
Proof.
  destruct (C5_sample_on_tick no_scipy [(0.5, 4); (2, 6.123456); (2.25, 1)]%float
              4 1 "index" 1 [(0, 4); (1, 4.7078); (2, 6.1235); (3, 1)]%float
              2 6.123456 20000)%float
    as (rows & _ & _ & _ & H);
    [first [vm_compute; reflexivity | vm_compute; auto 6; fail] .. | exact H].
Defined.

(** ** C6: the empty sample set *)



(** ** C7: one sample *)

(** C7, as stated, fails for the default method: with one sample off the
    single tick of a grid with more ticks, ['slinear'] reaches SciPy's
    [interp1d] with one point, which takes two, and the call raises,
    whatever the interpolators compute elsewhere. *)
Lemma C7_default_method_raises :
  resample_dataframe no_scipy [(1, 10)%float] (PyInt 4) (PyInt 1) "slinear" 1
    = Err TooFewEntriesError /\
  ~ exists scipy out,
      resample_dataframe scipy [(1, 10)%float] (PyInt 4) (PyInt 1) "slinear" 1 = Ok out.
Proof.
  split; [vm_compute; reflexivity|].
  intros (scipy & out & H). vm_compute in H. discriminate.
Qed.

(** C7, amended: for one sample with an observed value [v] and a time
    that scales to an integer, Python ints [max_value] and [step], both
    positive, and the methods that do not go through SciPy ([linear],
    [index], [values], [ffill], [pad], [bfill], [backfill]),
    [resample_dataframe] returns a series that has a row at every grid
    tick and whose values are all [v] rounded to 4 decimals. *)
Theorem C7_single_sample
    (scipy : string -> Z -> list (float * float) -> list float -> result (list float))
    (t v : float) (k mv st : Z) (method : string) (order : Z) :
  0 < mv -> 0 < st -> mv * precision < 2 ^ 53 -> st * precision < 2 ^ 53 ->
  scaled t = Ok k -> is_nan v = false ->
  In method ["linear"; "index"; "values"; "ffill"; "pad"; "bfill"; "backfill"]%string ->
  exists rows : list (Z * float),
    resample_dataframe scipy [(t, v)] (PyInt mv) (PyInt st) method order
      = Ok (map rescale rows) /\
    (forall k', In k' (grid (mv * precision) (st * precision)) ->
                In (k', Np.round DECIMAL_POINTS v) rows) /\
    Forall (fun r => snd r = Np.round DECIMAL_POINTS v) rows.
Proof.
  intros Hmv Hst HM Hs Hk Hv Hm.
  assert (Hp : 0 < precision) by reflexivity.
  rewrite resample_int by assumption.
  cbn [Pd.drop_duplicates existsb mapM]. unfold Pd.scale_time at 1.
  unfold scaled in Hk. cbn [fst snd]. rewrite Hk. cbn [bind].
  set (g := grid (mv * precision) (st * precision)).
  assert (Hg : StronglySorted Z.lt g) by (apply grid_sorted; lia).
  assert (Hne : g <> []) by (apply grid_nonempty; lia).
  unfold filtered_on, Pd.reindex.
  cbn [map fst Pd.eqb Pd.of_int64 Pd.Int64Label Pd.has_duplicates existsb orb
       bind py_mul_int py_int].
  change (Pd.drop_duplicates Z.eqb (Pd.union [k] g)) with (new_index [(k, v)] g).
  set (idx := new_index [(k, v)] g).
  assert (Hidx : StronglySorted Z.lt idx) by now apply new_index_sorted.
  destruct (lookup_single_column k v idx (strictly_sorted_NoDup _ Hidx) Hv)
    as (Ho & Hc & Hex).
  destruct (interpolate_only scipy v method order idx _ Hm Hv Ho Hc)
    as (ys & Hi & Hys).
  rewrite Hi. cbn [bind].
  assert (Hlen : List.length ys = List.length idx).
  { apply interpolate_keeps, keeps_length in Hi. now rewrite length_map in Hi. }
  rewrite (fill_only v ys Hv Hys).
  2:{ apply (keeps_Exists _ _ (interpolate_keeps _ _ _ _ _ _ Hi)).
      apply Hex. apply new_index_In. left. now left. }
  rewrite map_repeat, Hlen.
  eexists. split; [reflexivity|]. split.
  - intros k' Hk'. apply filter_In. split.
    + apply In_combine_repeat. apply new_index_In. now right.
    + apply mod_is_zero_int; [lia|].
      apply grid_mod with (M := mv * precision); [lia | exact Hk'].
  - apply Forall_forall. intros [k' y] Hin. apply filter_In in Hin as [Hin _].
    apply in_combine_r in Hin. now apply repeat_spec in Hin.
Qed.

Lemma C7_single_sample_witness :
  exists rows : list (Z * float),
    resample_dataframe no_scipy [(1.5, 10.00004)%float] (PyInt 4) (PyInt 1) "linear" 1
      = Ok (map rescale rows) /\
    Forall (fun r => snd r = Np.round DECIMAL_POINTS 10.00004%float) rows.
Proof.
  destruct (C7_single_sample no_scipy 1.5 10.00004 15000 4 1 "linear" 1)%float
    as (rows & Hr & _ & Hall);
    [first [vm_compute; reflexivity | now left] .. |].
  exists rows. split; assumption.
Defined.

(** ** C8: a method that [interpolate] does not know *)



(** ** C9: a series that is already on the grid *)



(** ** C10: the scaled times are truncated *)

(** C10, as stated, fails on its example: [0.29 * 10^4] is exactly 2900.0
    in binary64, so the sample time 0.29 gets the index 2900, which is the
    grid tick. *)
Lemma C10_example_029 :
  (0.29 * F64.of_Z precision)%float = 2900%float /\ scaled 0.29%float = Ok 2900.
Proof. split; vm_compute; reflexivity. Qed.

(** C10, amended: the index of every sample is its time times [10^4],
    computed in binary64 and truncated toward zero, not rounded to
    nearest.  So the time 0.57, whose product 5699.999999999999 falls
    just below 5700, gets the index 5699, one below the grid tick 5700.0
    of [step = 0.01], and the value of that sample is not the value of the
    output at tick 0.57 (the time 0.29 of the original example scales to
    2900.0 exactly). *)
Theorem C10_truncation :
  (forall t k, scaled t = Ok k -> truncated (t * F64.of_Z precision)%float k) /\
  (0.57 * F64.of_Z precision <? 5700)%float = true /\
  scaled 0.57%float = Ok 5699 /\
  resample_dataframe no_scipy [(0.57, 7); (0.58, 107)]%float
    (PyFloat 0.6) (PyFloat 0.01) "index" 1
  = Ok (map (fun i => (Np.float_tick 100 i / 10000, 7)%float) (seq 0 57)
        ++ [(0.57, 7.9901); (0.58, 107); (0.59, 107)]%float).
Proof.
  split; [|repeat split; vm_compute; reflexivity].
  intros t k. unfold scaled, Pd.astype_int.
  destruct (F64.trunc _) as [z|] eqn:E; [|discriminate].
  destruct (_ && _); [|discriminate].
  intros H. inversion H; subst. now apply trunc_truncated.
Qed.

Lemma C10_truncation_witness : truncated (0.57 * F64.of_Z precision)%float 5699.
Proof. apply (proj1 C10_truncation 0.57%float 5699). vm_compute. reflexivity. Defined.

(** * More facts about the model *)

(** ** Equal keys of the time column *)

Lemma SFeqb_cases (x y : spec_float) :
  SFeqb x y = true ->
  x = y \/ (exists s s', x = S754_zero s /\ y = S754_zero s').
Proof.
  unfold SFeqb, SFcompare.
  destruct x as [s| s| |s m e], y as [s'| s'| |s' m' e']; try discriminate;
    try (destruct s; discriminate); try (destruct s'; discriminate).
  - intros _. right. now exists s, s'.
  - destruct s, s'; try discriminate; now left.
  - destruct s, s'; try discriminate.
    + destruct (Z.compare_spec e e'); try discriminate. subst e'.
      change (PosDef.Pos.compare_cont Eq m m') with (Pos.compare m m').
      destruct (Pos.compare_spec m m'); try discriminate. subst m'. now left.
    + destruct (Z.compare_spec e e'); try discriminate. subst e'.
      change (PosDef.Pos.compare_cont Eq m m') with (Pos.compare m m').
      destruct (Pos.compare_spec m m'); try discriminate. subst m'. now left.
Qed.

Lemma eqb_cases (x y : float) :
  (x =? y)%float = true ->
  x = y \/ ((x = zero \/ x = neg_zero) /\ (y = zero \/ y = neg_zero)).
Proof.
  rewrite eqb_spec. intros H. apply SFeqb_cases in H as [H|(s & s' & Hx & Hy)].
  - left. now apply Prim2SF_inj.
  - right. split.
    + rewrite <- (SF2Prim_Prim2SF x), Hx. destruct s; [now right | now left].
    + rewrite <- (SF2Prim_Prim2SF y), Hy. destruct s'; [now right | now left].
Qed.

(** Two keys are the same for pandas' hash table exactly when they are
    the same number, or two zeros. *)
Lemma key_eqb_iff (a b : float) :
  F64.key_eqb a b = true <->
  a = b \/ ((a = zero \/ a = neg_zero) /\ (b = zero \/ b = neg_zero)).
Proof.
  unfold F64.key_eqb. split.
  - intros H. apply orb_true_iff in H as [H|H].
    + now apply eqb_cases.
    + apply andb_true_iff in H as [Ha Hb].
      left. rewrite (is_nan_eq a Ha), (is_nan_eq b Hb). reflexivity.
  - intros [->|[[-> | ->] [-> | ->]]]; try reflexivity.
    unfold is_nan. destruct (b =? b)%float; reflexivity.
Qed.

Lemma key_eqb_refl (a : float) : F64.key_eqb a a = true.
Proof. apply key_eqb_iff. now left. Qed.

Lemma key_eqb_sym (a b : float) : F64.key_eqb a b = F64.key_eqb b a.
Proof.
  destruct (F64.key_eqb a b) eqn:E, (F64.key_eqb b a) eqn:E'; try reflexivity.
  - apply key_eqb_iff in E. rewrite <- E'. symmetry. apply key_eqb_iff.
    destruct E as [->|[Ha Hb]]; [now left | now right].
  - apply key_eqb_iff in E'. rewrite <- E. apply key_eqb_iff.
    destruct E' as [->|[Ha Hb]]; [now left | now right].
Qed.

Lemma key_eqb_trans (a b c : float) :
  F64.key_eqb a b = true -> F64.key_eqb b c = true -> F64.key_eqb a c = true.
Proof.
  rewrite !key_eqb_iff.
  intros [->|[Ha Hb]] [->|[Hb' Hc]]; try (now left); now right.
Qed.

(** Equal keys have one scaled time. *)
Lemma key_eqb_scaled (a b : float) :
  F64.key_eqb a b = true -> scaled a = scaled b.
Proof.
  intros H. apply key_eqb_iff in H as [->|[[-> | ->] [-> | ->]]]; reflexivity.
Qed.

(** ** The rows that line 32 keeps *)

Lemma drop_duplicates_In_iff {A : Type} (same : A -> A -> bool) (l : list A) (r : A) :
  In r (Pd.drop_duplicates same l) <->
  exists pre post, l = pre ++ r :: post /\ forall r', In r' post -> same r r' = false.
Proof.
  induction l as [|a t IH]; simpl.
  - split; [tauto|]. intros (pre & post & E & _). now destruct pre.
  - destruct (existsb (same a) t) eqn:Ex.
    + rewrite IH. split.
      * intros (pre & post & -> & Hp). now exists (a :: pre), post.
      * intros (pre & post & E & Hp). destruct pre as [|a' pre]; simpl in E.
        -- inversion E; subst. apply existsb_exists in Ex as (x & Hx & Hs).
           rewrite (Hp x Hx) in Hs. discriminate.
        -- inversion E; subst. now exists pre, post.
    + simpl. rewrite IH. split.
      * intros [->|(pre & post & -> & Hp)].
        -- exists [], t. split; [reflexivity|]. intros r' Hr'.
           destruct (same r r') eqn:Hs; [|reflexivity].
           rewrite <- Ex. symmetry. apply existsb_exists. now exists r'.
        -- now exists (a :: pre), post.
      * intros (pre & post & E & Hp). destruct pre as [|a' pre]; simpl in E.
        -- inversion E. now left.
        -- inversion E; subst. right. now exists pre, post.
Qed.

Lemma drop_duplicates_none_left {A : Type} (same : A -> A -> bool) (l : list A) :
  Pd.has_duplicates same (Pd.drop_duplicates same l) = false.
Proof.
  induction l as [|a t IH]; simpl; [reflexivity|].
  destruct (existsb (same a) t) eqn:Ex; [assumption|].
  simpl. rewrite IH, orb_false_r.
  destruct (existsb (same a) (Pd.drop_duplicates same t)) eqn:Ex'; [|reflexivity].
  apply existsb_exists in Ex' as (x & Hx & Hs).
  apply drop_duplicates_incl in Hx.
  rewrite <- Ex. symmetry. apply existsb_exists. now exists x.
Qed.

Lemma drop_duplicates_idempotent {A : Type} (same : A -> A -> bool) (l : list A) :
  Pd.drop_duplicates same (Pd.drop_duplicates same l) = Pd.drop_duplicates same l.
Proof. apply drop_duplicates_id, drop_duplicates_none_left. Qed.

(** Every row has a kept row with the same key. *)
Lemma drop_duplicates_covers {A : Type} (same : A -> A -> bool) (l : list A) (r : A) :
  (forall a, same a a = true) ->
  (forall a b c, same a b = true -> same b c = true -> same a c = true) ->
  In r l -> exists r', In r' (Pd.drop_duplicates same l) /\ same r r' = true.
Proof.
  intros Hrefl Htrans. revert r. induction l as [|a t IH]; intros r; simpl; [tauto|].
  intros [->|Hin].
  - destruct (existsb (same r) t) eqn:Ex.
    + apply existsb_exists in Ex as (x & Hx & Hs).
      destruct (IH x Hx) as (r' & Hr' & Hs'). exists r'. split; [assumption|].
      now apply Htrans with x.
    + exists r. split; [now left | apply Hrefl].
  - destruct (IH r Hin) as (r' & Hr' & Hs). exists r'. split; [|assumption].
    destruct (existsb (same a) t); [assumption | now right].
Qed.

Lemma same_time_refl (r : float * float) : Pd.same_time r r = true.
Proof. apply key_eqb_refl. Qed.

Lemma same_time_trans (a b c : float * float) :
  Pd.same_time a b = true -> Pd.same_time b c = true -> Pd.same_time a c = true.
Proof. apply key_eqb_trans. Qed.

Lemma samples_cover (dataframe : list (float * float)) (r : float * float) :
  In r dataframe -> exists r', In r' (samples dataframe) /\ Pd.same_time r r' = true.
Proof.
  apply drop_duplicates_covers; [apply same_time_refl | apply same_time_trans].
Qed.

(** ** Times that do not convert at line 33 *)

Lemma not_finite_cases (t : float) :
  is_finite t = false -> t = nan \/ t = infinity \/ t = neg_infinity.
Proof.
  unfold is_finite. intros H. apply negb_false_iff, orb_true_iff in H as [H|H].
  - left. now apply is_nan_eq.
  - right. unfold is_infinity in H. rewrite eqb_spec, abs_spec in H.
    apply SFeqb_cases in H as [H|(s & s' & _ & H)]; [|discriminate].
    rewrite <- (SF2Prim_Prim2SF t).
    destruct (Prim2SF t) as [s| [|] | |s m e]; try discriminate; [now right | now left].
Qed.

Lemma scaled_not_finite (t : float) :
  is_finite t = false -> scaled t = Err IntCastingNaNError.
Proof.
  intros H. apply not_finite_cases in H as [->|[->| ->]]; reflexivity.
Qed.

Lemma astype_int_errors (x : float) (e : error) :
  Pd.astype_int x = Err e -> e = IntCastingNaNError \/ e = CastRangeError.
Proof.
  unfold Pd.astype_int. destruct (F64.trunc x) as [z|].
  - destruct (_ && _); [discriminate|]. intros E. inversion E. now right.
  - intros E. inversion E. now left.
Qed.

Lemma mapM_scale_non_finite (l : list (float * float)) :
  (forall r, In r l -> scaled (fst r) <> Err CastRangeError) ->
  (exists r, In r l /\ scaled (fst r) = Err IntCastingNaNError) ->
  mapM Pd.scale_time l = Err IntCastingNaNError.
Proof.
  induction l as [|a t IH]; intros Hall (r & Hin & Hr); [destruct Hin|].
  simpl. unfold Pd.scale_time at 1.
  pose proof (Hall a (or_introl eq_refl)) as Ha. unfold scaled in Ha, Hr.
  destruct (Pd.astype_int (fst a * F64.of_Z precision)%float) as [k|e] eqn:Ek; simpl.
  - destruct Hin as [->|Hin]; [congruence|].
    rewrite IH; [reflexivity | |].
    + intros r' Hr'. apply Hall. now right.
    + now exists r.
  - apply astype_int_errors in Ek as H. destruct H as [->| ->]; [reflexivity|].
    now destruct Ha.
Qed.

(** ** Kept rows with one scaled time *)

Lemma mapM_scale_injective (l : list (float * float)) (df : list (Z * float))
    (r1 r2 : float * float) :
  mapM Pd.scale_time l = Ok df -> NoDup (map fst df) ->
  In r1 l -> In r2 l -> scaled (fst r1) = scaled (fst r2) -> r1 = r2.
Proof.
  revert df. induction l as [|a t IH]; intros df Hdf Hnd H1 H2 Hs; [destruct H1|].
  simpl in Hdf. unfold Pd.scale_time at 1 in Hdf. unfold scaled in Hs.
  destruct (Pd.astype_int (fst a * F64.of_Z precision)%float) as [k|e] eqn:Ek;
    simpl in Hdf; [|discriminate].
  destruct (mapM Pd.scale_time t) as [df'|e] eqn:Ht; simpl in Hdf; [|discriminate].
  inversion Hdf; subst df; clear Hdf. simpl in Hnd. inversion Hnd as [|? ? Hk Hnd']; subst.
  assert (Hfresh : forall r, In r t ->
            Pd.astype_int (fst r * F64.of_Z precision)%float <> Ok k).
  { intros [t0 v0] Hr E. apply Hk. apply in_map_iff. exists (k, v0).
    split; [reflexivity|]. apply (mapM_scale_In _ _ k v0 Ht). now exists t0. }
  destruct H1 as [->|H1], H2 as [->|H2].
  - reflexivity.
  - exfalso. apply (Hfresh r2 H2). congruence.
  - exfalso. apply (Hfresh r1 H1). congruence.
  - now apply (IH df').
Qed.

Lemma duplicate_labels_raise
    (scipy : string -> Z -> list (float * float) -> list float -> result (list float))
    (dataframe : list (float * float)) (max_value step : pynum)
    (method : string) (order : Z) (df : list (Z * float)) (a : Np.ndarray) :
  mapM Pd.scale_time (samples dataframe) = Ok df ->
  Np.arange (py_mul_int max_value precision) (py_mul_int step precision) = Ok a ->
  ~ NoDup (map fst df) ->
  resample_dataframe scipy dataframe max_value step method order = Err DuplicateLabelsError.
Proof.
  intros Hdf Ha Hnd. unfold resample_dataframe. fold (samples dataframe).
  rewrite Hdf, Ha. cbn [bind].
  assert (Hd : Pd.has_duplicates Z.eqb (map fst df) = true).
  { destruct (Pd.has_duplicates Z.eqb (map fst df)) eqn:E; [reflexivity|].
    exfalso. now apply Hnd, zhas_duplicates_NoDup. }
  destruct a; unfold resample_on, filtered_on, Pd.reindex; rewrite Hd; reflexivity.
Qed.

(** ** Missing values in binary64 *)

Lemma SFeqb_refl (x : spec_float) : x <> S754_nan -> SFeqb x x = true.
Proof.
  unfold SFeqb, SFcompare. destruct x as [s|s| |s m e]; intros H.
  - reflexivity.
  - now destruct s.
  - now destruct H.
  - change (PosDef.Pos.compare_cont Eq m m) with (Pos.compare m m).
    rewrite Z.compare_refl, Pos.compare_refl. now destruct s.
Qed.

Lemma is_nan_Prim2SF (x : float) : is_nan x = true <-> Prim2SF x = S754_nan.
Proof.
  unfold is_nan. rewrite eqb_spec. split.
  - intros H. destruct (Prim2SF x) eqn:E; try reflexivity;
      rewrite SFeqb_refl in H by discriminate; discriminate.
  - intros ->. reflexivity.
Qed.

Lemma not_nan_Prim2SF (x : float) : is_nan x = false <-> Prim2SF x <> S754_nan.
Proof.
  rewrite <- is_nan_Prim2SF. destruct (is_nan x); split; congruence.
Qed.

(** Rounding a non-negative mantissa never gives NaN. *)
Lemma iter_pos_invariant {A : Type} (P : A -> Prop) (f : A -> A) :
  (forall x, P x -> P (f x)) -> forall n x, P x -> P (iter_pos f n x).
Proof.
  intros Hf. induction n as [n IH|n IH|]; intros x Hx; simpl.
  - apply IH, IH, Hf, Hx.
  - apply IH, IH, Hx.
  - apply Hf, Hx.
Qed.

Lemma shr_1_nonneg (mrs : shr_record) : 0 <= shr_m mrs -> 0 <= shr_m (shr_1 mrs).
Proof.
  destruct mrs as [m r s]. simpl. destruct m as [|[p|p|]|p]; simpl; lia.
Qed.

Lemma shr_nonneg (mrs : shr_record) (e n : Z) :
  0 <= shr_m mrs -> 0 <= shr_m (fst (shr mrs e n)).
Proof.
  intros H. unfold shr. destruct n; simpl; try assumption.
  now apply (iter_pos_invariant (fun x => 0 <= shr_m x)); [apply shr_1_nonneg|].
Qed.

Lemma shr_fexp_nonneg (m e : Z) (l : location) :
  0 <= m -> 0 <= shr_m (fst (shr_fexp prec emax m e l)).
Proof.
  intros H. unfold shr_fexp. apply shr_nonneg.
  destruct l as [|[ | | ]]; exact H.
Qed.

Lemma round_nearest_even_nonneg (m : Z) (l : location) :
  0 <= m -> 0 <= round_nearest_even m l.
Proof.
  intros H. unfold round_nearest_even. destruct l as [|[ | | ]]; try lia.
  destruct (Z.even m); lia.
Qed.

Lemma binary_round_aux_not_nan (s : bool) (m e : Z) (l : location) :
  0 <= m -> binary_round_aux prec emax s m e l <> S754_nan.
Proof.
  intros H. unfold binary_round_aux.
  pose proof (shr_fexp_nonneg m e l H) as H1.
  destruct (shr_fexp prec emax m e l) as [mrs' e']. simpl in H1.
  pose proof (shr_fexp_nonneg
                (round_nearest_even (shr_m mrs') (loc_of_shr_record mrs')) e' loc_Exact
                (round_nearest_even_nonneg _ _ H1)) as H2.
  destruct (shr_fexp prec emax _ e' loc_Exact) as [mrs'' e'']. simpl in H2.
  destruct (shr_m mrs'') as [|p|p]; [discriminate| |lia].
  destruct (e'' <=? emax - prec); discriminate.
Qed.

Lemma mul_finite_not_nan (x y : float) (s : bool) (m : positive) (e : Z) :
  Prim2SF y = S754_finite s m e ->
  is_nan x = false -> is_nan (x * y)%float = false.
Proof.
  intros Hy Hx. apply not_nan_Prim2SF in Hx. apply not_nan_Prim2SF.
  rewrite mul_spec, Hy. unfold SF64mul, SFmul.
  destruct (Prim2SF x) as [sx|sx| |sx mx ex]; try discriminate; [now destruct Hx|].
  apply binary_round_aux_not_nan. lia.
Qed.

Lemma div_finite_not_nan (x y : float) (s : bool) (m : positive) (e : Z) :
  Prim2SF y = S754_finite s m e ->
  is_nan x = false -> is_nan (x / y)%float = false.
Proof.
  intros Hy Hx. apply not_nan_Prim2SF in Hx. apply not_nan_Prim2SF.
  rewrite div_spec, Hy. unfold SF64div, SFdiv.
  destruct (Prim2SF x) as [sx|sx| |sx mx ex]; try discriminate; [now destruct Hx|].
  unfold SFdiv_core_binary.
  set (e' := Z.min _ _). set (m' := match _ with Zpos _ => _ | Z0 => _ | Zneg _ => _ end).
  assert (Hm' : 0 <= m').
  { unfold m'. destruct (ex - e - e'); try lia. apply Z.shiftl_nonneg. lia. }
  pose proof (Z_div_mod m' (Zpos m) eq_refl) as Hd.
  destruct (Z.div_eucl m' (Zpos m)) as [q r].
  apply binary_round_aux_not_nan. nia.
Qed.

Lemma opp_not_nan (x : float) : is_nan x = false -> is_nan (- x)%float = false.
Proof.
  rewrite !not_nan_Prim2SF, opp_spec. now destruct (Prim2SF x).
Qed.

Lemma valid_mantissa (x : float) (s : bool) (m : positive) (e : Z) :
  Prim2SF x = S754_finite s m e -> Zpos m < 2 ^ 53.
Proof.
  intros Hx. pose proof (Prim2SF_valid x) as Hv. rewrite Hx in Hv.
  simpl in Hv. unfold SpecFloat.bounded, canonical_mantissa in Hv.
  apply andb_true_iff in Hv as [Hv _]. apply Z.eqb_eq in Hv.
  unfold fexp in Hv. rewrite digits2_size in Hv.
  pose proof (size_bounds m) as [_ Hm].
  assert (Hs : Zpos (Pos.size m) <= 53) by (unfold prec in Hv; lia).
  eapply Z.lt_le_trans; [exact Hm|]. apply Z.pow_le_mono_r; lia.
Qed.

Lemma round_half_even_bound (m p : positive) :
  Zpos m < 2 ^ 53 -> Z.abs (F64.round_half_even m (Zneg p)) < 2 ^ 53.
Proof.
  intros Hm. unfold F64.round_half_even.
  assert (H2 : 2 <= 2 ^ Zpos p).
  { change 2 with (2 ^ 1) at 1. apply Z.pow_le_mono_r; lia. }
  pose proof (Z.mul_div_le (Zpos m) (2 ^ Zpos p) ltac:(lia)) as Hq.
  assert (Hq0 : 0 <= Zpos m / 2 ^ Zpos p) by (apply Z.div_pos; lia).
  assert (Hq1 : Zpos m / 2 ^ Zpos p < 2 ^ 52) by nia.
  repeat match goal with |- context [if ?c then _ else _] => destruct c end; lia.
Qed.

Lemma rint_not_nan (x : float) : is_nan x = false -> is_nan (F64.rint x) = false.
Proof.
  intros Hx. unfold F64.rint.
  destruct (Prim2SF x) as [s|s| |s m [|p|p]] eqn:E; try assumption.
  pose proof (round_half_even_bound m p (valid_mantissa x s m _ E)) as Hb.
  destruct s; [apply opp_not_nan|]; now apply of_Z_not_nan.
Qed.

(** [round(4)] (line 42) makes no value missing. *)
Lemma round_not_nan (x : float) :
  is_nan x = false -> is_nan (Np.round DECIMAL_POINTS x) = false.
Proof.
  intros Hx. unfold Np.round.
  assert (Hf : Prim2SF (F64.of_Z (10 ^ DECIMAL_POINTS))
               = S754_finite false 5497558138880000 (-39)) by reflexivity.
  apply (div_finite_not_nan _ _ _ _ _ Hf), rint_not_nan.
  now apply (mul_finite_not_nan _ _ _ _ _ Hf).
Qed.

(** ** The stages of the resampler at either index dtype *)

Section AnyStep.

Variable scipy : string -> Z -> list (float * float) -> list float -> result (list float).

Lemma filtered_on_stages {L : Type} `{Pd.Label L} (df : list (Z * float))
    (g : list L) (step : pynum) (method : string) (order : Z)
    (rows : list (L * float)) :
  filtered_on scipy df g step method order = Ok rows ->
  let idx := Pd.drop_duplicates Pd.eqb
               (Pd.union (map (fun r => Pd.of_int64 (fst r)) df) g) in
  exists ys d,
    Pd.has_duplicates Z.eqb (map fst df) = false /\
    Pd.interpolate scipy method order idx (map (Pd.lookup df) idx) = Ok ys /\
    py_int (py_mul_int step precision) = Ok d /\
    rows = filter (fun r => Pd.mod_is_zero (fst r) d)
             (combine idx (map (Np.round DECIMAL_POINTS) (Pd.bfill (Pd.ffill ys)))).
Proof.
  unfold filtered_on, Pd.reindex.
  destruct (Pd.has_duplicates Z.eqb (map fst df)) eqn:Hd; simpl; [discriminate|].
  destruct (Pd.interpolate _ _ _ _ _) as [ys|e] eqn:Hi; simpl; [|discriminate].
  destruct (py_int (py_mul_int step precision)) as [d|e] eqn:Hs; simpl; [|discriminate].
  intros E. inversion E. exists ys, d. repeat split; assumption.
Qed.

(** What [resample_dataframe] returns is what lines 37-48 return at the
    dtype of the grid. *)
Lemma resample_dataframe_stages (dataframe : list (float * float))
    (max_value step : pynum) (method : string) (order : Z)
    (out : list (float * float)) :
  resample_dataframe scipy dataframe max_value step method order = Ok out ->
  exists df,
    mapM Pd.scale_time (samples dataframe) = Ok df /\
    ((exists g rows,
        Np.arange (py_mul_int max_value precision) (py_mul_int step precision)
        = Ok (Np.IntArray g) /\
        filtered_on scipy df g step method order = Ok rows /\
        out = map rescale rows) \/
     (exists g rows,
        Np.arange (py_mul_int max_value precision) (py_mul_int step precision)
        = Ok (Np.FloatArray g) /\
        filtered_on scipy df g step method order = Ok rows /\
        out = map rescale rows)).
Proof.
  unfold resample_dataframe. fold (samples dataframe).
  destruct (mapM Pd.scale_time _) as [df|e]; simpl; [|discriminate].
  destruct (Np.arange _ _) as [[g|g]|e]; simpl; [| |discriminate];
    unfold resample_on;
    destruct (filtered_on _ _ _ _ _ _) as [rows|e] eqn:Hf; simpl; try discriminate;
    intros E; inversion E; exists df; (split; [reflexivity|]).
  - left. now exists g, rows.
  - right. now exists g, rows.
Qed.

End AnyStep.

Lemma float_mod_zero (x : float) : F64.mod_is_zero x 0 = false.
Proof.
  unfold F64.mod_is_zero. destruct (F64.exact_Z x); reflexivity.
Qed.

Lemma rescale_snd {L : Type} `{Pd.Label L} (rows : list (L * float)) :
  map snd (map rescale rows) = map snd rows.
Proof. rewrite map_map. reflexivity. Qed.

(** ** Columns without an observed value *)

Lemma all_nan_repeat (ys : list float) :
  Forall (fun y => is_nan y = true) ys -> ys = repeat nan (List.length ys).
Proof.
  induction 1 as [|y t Hy _ IH]; simpl; [reflexivity|].
  now rewrite (is_nan_eq y Hy), <- IH.
Qed.

Lemma repeat_all_nan (n : nat) : Forall (fun y => is_nan y = true) (repeat nan n).
Proof. induction n; simpl; constructor; [reflexivity | assumption]. Qed.

Lemma lookup_all_nan {L : Type} `{Pd.Label L} (df : list (Z * float)) (idx : list L) :
  Forall (fun r => is_nan (snd r) = true) df ->
  Forall (fun y => is_nan y = true) (map (Pd.lookup df) idx).
Proof.
  intros Hdf. apply Forall_forall. intros y Hy.
  apply in_map_iff in Hy as (x & <- & _). unfold Pd.lookup.
  destruct (find _ df) as [r|] eqn:E; [|reflexivity].
  apply find_some in E as [E _]. rewrite Forall_forall in Hdf. now apply Hdf.
Qed.

Lemma interpolate_all_nan
    (scipy : string -> Z -> list (float * float) -> list float -> result (list float))
    {L : Type} `{Pd.Label L} (method : string) (order : Z) (index : list L)
    (n : nat) (ys : list float) :
  Pd.interpolate scipy method order index (repeat nan n) = Ok ys ->
  ys = repeat nan n.
Proof.
  unfold Pd.interpolate. destruct index as [|x index]; [now intros E; inversion E|].
  destruct (Pd.mem method Pd.FORWARD_FILL).
  { intros E. inversion E. apply ffill_from_all_nan. }
  destruct (Pd.mem method Pd.BACKWARD_FILL).
  { intros E. inversion E. apply bfill_all_nan. }
  destruct (negb _); [discriminate|].
  destruct (_ && _); [discriminate|].
  unfold Pd.interpolate_1d. rewrite forallb_all_nan. now intros E; inversion E.
Qed.

(** ** Line 41 on a column with an observed value *)

Lemma ffill_from_complete (last : float) (ys : list float) :
  is_nan last = false ->
  Forall (fun y => is_nan y = false) (Pd.ffill_from last ys).
Proof.
  revert last. induction ys as [|y t IH]; intros last Hl; simpl; [constructor|].
  destruct (is_nan y) eqn:Hy; constructor; try assumption; now apply IH.
Qed.

Lemma ffill_from_split (ys : list float) :
  Exists (fun y => is_nan y = false) ys ->
  exists j s, Pd.ffill_from nan ys = repeat nan j ++ s /\ s <> [] /\
              Forall (fun y => is_nan y = false) s.
Proof.
  induction ys as [|y t IH]; intros Hex; [inversion Hex|]. simpl.
  destruct (is_nan y) eqn:Hy.
  - inversion Hex as [? ? H|? ? H]; subst; [congruence|].
    destruct (IH H) as (j & s & E & Hne & Hs).
    exists (S j), s. simpl. now rewrite E.
  - exists 0%nat, (y :: Pd.ffill_from y t). simpl.
    split; [reflexivity|]. split; [discriminate|].
    constructor; [assumption | now apply ffill_from_complete].
Qed.

Lemma bfill_nan_prefix_complete (j : nat) (s : list float) :
  s <> [] -> Forall (fun y => is_nan y = false) s ->
  Pd.bfill (repeat nan j ++ s) <> [] /\
  Forall (fun y => is_nan y = false) (Pd.bfill (repeat nan j ++ s)).
Proof.
  intros Hne Hs. induction j as [|j [IH1 IH2]]; simpl.
  - rewrite bfill_observed by assumption. now split.
  - split; [discriminate|]. constructor; [|assumption].
    destruct (Pd.bfill (repeat nan j ++ s)) as [|y t]; [now destruct IH1|].
    simpl. now inversion IH2.
Qed.

Lemma fill_complete (ys : list float) :
  Exists (fun y => is_nan y = false) ys ->
  Forall (fun y => is_nan y = false) (Pd.bfill (Pd.ffill ys)).
Proof.
  intros Hex. unfold Pd.ffill.
  destruct (ffill_from_split ys Hex) as (j & s & -> & Hne & Hs).
  now apply bfill_nan_prefix_complete.
Qed.

(** ** The NumPy-based methods and the fill methods always return *)

Lemma interpolate_1d_returns
    (scipy : string -> Z -> list (float * float) -> list float -> result (list float))
    (method : string) (order : Z) (xs ys : list float) :
  Pd.mem method Pd.NP_METHODS = true -> String.eqb method "time" = false ->
  exists ys', Pd.interpolate_1d scipy method order xs ys = Ok ys'.
Proof.
  intros Hm Ht. unfold Pd.interpolate_1d, Pd.interpolated_values.
  destruct (forallb is_nan ys); [now exists ys|].
  destruct (forallb (fun y => negb (is_nan y)) ys); [now exists ys|].
  rewrite Ht, Hm. cbn [bind]. rewrite !length_map, Nat.eqb_refl.
  eexists. reflexivity.
Qed.

Lemma interpolate_returns
    (scipy : string -> Z -> list (float * float) -> list float -> result (list float))
    {L : Type} `{Pd.Label L} (method : string) (order : Z) (index : list L)
    (ys : list float) :
  In method ["linear"; "index"; "values"; "ffill"; "pad"; "bfill"; "backfill"]%string ->
  exists ys', Pd.interpolate scipy method order index ys = Ok ys'.
Proof.
  intros Hm. unfold Pd.interpolate. destruct index as [|x index]; [now exists ys|].
  simpl in Hm.
  destruct Hm as [<-|[<-|[<-|[<-|[<-|[<-|[<-|[]]]]]]]];
    cbn [Pd.mem Pd.FORWARD_FILL Pd.BACKWARD_FILL Pd.NP_METHODS Pd.SP_METHODS
         Pd.MONOTONIC_METHODS existsb String.eqb Ascii.eqb Bool.eqb orb andb negb];
    try (eexists; reflexivity);
    apply interpolate_1d_returns; reflexivity.
Qed.

(** Every row has its scaled row when line 33 succeeds. *)
Lemma mapM_scale_row (l : list (float * float)) (df : list (Z * float)) (t v : float) :
  mapM Pd.scale_time l = Ok df -> In (t, v) l ->
  exists k, scaled t = Ok k /\ In (k, v) df.
Proof.
  revert df. induction l as [|[t0 v0] l IH]; intros df Hdf Hin; [destruct Hin|].
  simpl in Hdf. unfold Pd.scale_time at 1 in Hdf. cbn [fst snd] in Hdf.
  destruct (Pd.astype_int (t0 * F64.of_Z precision)%float) as [k0|e] eqn:Ek;
    cbn [bind] in Hdf; [|discriminate].
  destruct (mapM Pd.scale_time l) as [df'|e]; cbn [bind] in Hdf; [|discriminate].
  inversion Hdf; subst df; clear Hdf.
  destruct Hin as [E|Hin].
  - inversion E; subst. exists k0. split; [exact Ek | now left].
  - destruct (IH df' eq_refl Hin) as (k & Hk & Hkv). exists k. split; [assumption | now right].
Qed.

Lemma zhas_duplicates_false (l : list Z) : NoDup l -> Pd.has_duplicates Z.eqb l = false.
Proof. apply zhas_duplicates_NoDup. Qed.

(** ** Values on an integer grid, whatever the type of [step] *)

Section ValuesAnyStep.

Variable scipy : string -> Z -> list (float * float) -> list float -> result (list float).

Lemma filtered_on_int_stages (df : list (Z * float)) (g : list Z) (step : pynum)
    (method : string) (order : Z) (rows : list (Z * float)) :
  filtered_on scipy df g step method order = Ok rows ->
  exists ys d,
    NoDup (map fst df) /\
    Pd.interpolate scipy method order (new_index df g)
      (map (Pd.lookup df) (new_index df g)) = Ok ys /\
    py_int (py_mul_int step precision) = Ok d /\
    rows = filter (fun r => Pd.mod_is_zero (fst r) d)
             (combine (new_index df g)
                (map (Np.round DECIMAL_POINTS) (Pd.bfill (Pd.ffill ys)))).
Proof.
  intros Hf. apply filtered_on_stages in Hf as (ys & d & Hd & Hi & Hs & ->).
  exists ys, d. split; [now apply zhas_duplicates_NoDup|]. now repeat split.
Qed.

(** An observed value on a label that passes the filter is in
    [filtered_dataframe], rounded. *)
Lemma observed_on_index (df : list (Z * float)) (g : list Z) (step : pynum)
    (method : string) (order : Z) (rows : list (Z * float)) (d k : Z) (v : float) :
  py_int (py_mul_int step precision) = Ok d -> 0 < d ->
  filtered_on scipy df g step method order = Ok rows ->
  In (k, v) df -> is_nan v = false -> k mod d = 0 ->
  In (k, Np.round DECIMAL_POINTS v) rows.
Proof.
  intros Hd Hd0 Hf Hin Hv Hk.
  apply filtered_on_int_stages in Hf as (ys & d' & Hnd & Hi & Hd' & ->).
  rewrite Hd in Hd'. inversion Hd'; subst d'.
  apply filter_In. split; [|apply mod_is_zero_int; assumption].
  apply In_combine_map_snd.
  apply keeps_In_combine with (ys := map (Pd.lookup df) (new_index df g));
    [|assumption|].
  - eapply keeps_trans; [exact (interpolate_keeps _ _ _ _ _ _ Hi)|].
    eapply keeps_trans; [apply ffill_from_keeps | apply bfill_keeps].
  - rewrite <- (lookup_In df k v Hnd Hin).
    apply In_combine_map. apply new_index_In. left.
    apply in_map_iff. now exists (k, v).
Qed.

(** With one observed row, no row of [filtered_dataframe] is missing. *)
Lemma complete_on_index (df : list (Z * float)) (g : list Z) (step : pynum)
    (method : string) (order : Z) (rows : list (Z * float)) (k : Z) (v : float) :
  filtered_on scipy df g step method order = Ok rows ->
  In (k, v) df -> is_nan v = false ->
  Forall (fun r => is_nan (snd r) = false) rows.
Proof.
  intros Hf Hkv Hv.
  apply filtered_on_int_stages in Hf as (ys & d & Hnd & Hi & _ & ->).
  assert (Hex : Exists (fun y => is_nan y = false)
                  (map (Pd.lookup df) (new_index df g))).
  { apply Exists_exists. exists v. split; [|assumption].
    apply in_map_iff. exists k. split; [now apply lookup_In|].
    apply new_index_In. left. apply in_map_iff. now exists (k, v). }
  apply interpolate_keeps in Hi. apply (keeps_Exists _ _ Hi) in Hex.
  apply fill_complete in Hex. rewrite Forall_forall in Hex |- *.
  intros [x y] Hr. simpl.
  apply filter_In in Hr as [Hr _]. apply in_combine_r in Hr.
  apply in_map_iff in Hr as (y' & <- & Hy'). apply round_not_nan. now apply Hex.
Qed.

End ValuesAnyStep.

(** Lines 37-48 return for a method that does not go through SciPy, once
    the labels of the frame are distinct and [int(step * precision)] is
    computed. *)
Lemma resample_on_returns
    (scipy : string -> Z -> list (float * float) -> list float -> result (list float))
    {L : Type} `{Pd.Label L} (df : list (Z * float)) (g : list L) (step : pynum)
    (method : string) (order : Z) (d : Z) :
  In method ["linear"; "index"; "values"; "ffill"; "pad"; "bfill"; "backfill"]%string ->
  NoDup (map fst df) -> py_int (py_mul_int step precision) = Ok d ->
  exists out, resample_on scipy df g step method order = Ok out.
Proof.
  intros Hm Hnd Hd. unfold resample_on, filtered_on, Pd.reindex.
  rewrite (zhas_duplicates_false _ Hnd). cbn [bind].
  match goal with |- context [Pd.interpolate scipy method order ?i ?c] =>
    destruct (interpolate_returns scipy method order i c Hm) as (ys & ->) end.
  cbn [bind]. rewrite Hd. cbn [bind]. eexists. reflexivity.
Qed.

(** ** The union of two indexes without duplicate labels *)

Lemma zinsert_NoDup (x : Z) (l : list Z) :
  ~ In x l -> NoDup l -> NoDup (Pd.insert x l).
Proof.
  induction l as [|y t IH]; intros Hx Hnd; simpl.
  - constructor; [tauto | constructor].
  - cbn [Pd.leb Pd.Int64Label]. destruct (x <=? y).
    + now constructor.
    + inversion Hnd as [|? ? Hy Ht]; subst. constructor.
      * rewrite zinsert_In. intros [->|H]; [apply Hx; now left | contradiction].
      * apply IH; [|assumption]. intros H. apply Hx. now right.
Qed.

Lemma zsort_NoDup (l : list Z) : NoDup l -> NoDup (Pd.sort l).
Proof.
  induction 1 as [|x t Hx Ht IH]; simpl; [constructor|].
  apply zinsert_NoDup; [|assumption]. now rewrite zsort_In.
Qed.

Lemma zunion_NoDup (self other : list Z) :
  NoDup self -> NoDup other -> NoDup (Pd.union self other).
Proof.
  intros Hs Ho. unfold Pd.union.
  destruct self as [|x self]; [now destruct other|].
  destruct other as [|y other]; [assumption|].
  destruct (Pd.equals _ _); [assumption|].
  apply zsort_NoDup, NoDup_app; [assumption | now apply NoDup_filter |].
  intros k Hk Hk'. apply filter_In in Hk' as [_ Hk'].
  apply negb_true_iff in Hk'. cbn [Pd.eqb Pd.Int64Label] in Hk'.
  assert (Hin : existsb (Z.eqb k) (x :: self) = true) by now apply existsb_Zeqb_In.
  congruence.
Qed.

(** ** A range with no tick *)

Lemma arange_no_horizon (M s : Z) :
  M <= 0 -> 0 < s -> - 2 ^ 53 < M -> s < 2 ^ 53 ->
  Np.arange (PyInt M) (PyInt s) = Ok (Np.IntArray []).
Proof.
  intros HM Hs Hlo Hhi. unfold Np.arange.
  destruct (Z.eqb_spec s 0); [lia|].
  assert (H1 : Np.in_model_range M = true) by (apply Z.ltb_lt; lia).
  assert (H2 : Np.in_model_range s = true) by (apply Z.ltb_lt; lia).
  rewrite H1, H2. cbn [andb].
  assert (Hc : Np.ceil_div M s <= 0).
  { unfold Np.ceil_div. pose proof (Z.div_pos (- M) s ltac:(lia) Hs). lia. }
  destruct (Np.ceil_div M s); try lia; reflexivity.
Qed.

(** ** Products of integers in binary64 *)

Lemma shr_exact (n q : positive) :
  iter_pos shr_1 n (Build_shr_record (Zpos (Pos.iter xO q n)) false false)
  = Build_shr_record (Zpos q) false false.
Proof.
  revert q. induction n as [n IH|n IH|]; intros q; simpl.
  - rewrite IH, IH. reflexivity.
  - rewrite IH, IH. reflexivity.
  - reflexivity.
Qed.

Lemma round_exact_shift (s : bool) (q n : positive) (e : Z) :
  Zpos (Pos.size q) = 53 -> -52 <= e + Zpos n <= 0 ->
  binary_round_aux prec emax s (Zpos (Pos.iter xO q n)) e loc_Exact
  = S754_finite s q (e + Zpos n).
Proof.
  intros Hq He. unfold binary_round_aux, shr_fexp.
  cbn [Zdigits2 shr_record_of_loc]. rewrite digits2_size, iter_xO_size.
  assert (Hf : fexp prec emax (Zpos (Pos.size q + n) + e) - e = Zpos n).
  { unfold fexp, SpecFloat.emin, prec, emax. lia. }
  rewrite Hf. cbn [shr]. rewrite shr_exact.
  cbn [shr_m loc_of_shr_record round_nearest_even Zdigits2].
  rewrite digits2_size.
  assert (Hf' : fexp prec emax (Zpos (Pos.size q) + (e + Zpos n)) - (e + Zpos n) = 0).
  { unfold fexp, SpecFloat.emin, prec, emax. lia. }
  rewrite Hf'. cbn [shr shr_m].
  destruct (Z.leb_spec (e + Zpos n) (emax - prec)); [reflexivity|].
  unfold prec, emax in *. lia.
Qed.

Lemma size_le_53 (p : positive) : Zpos p < 2 ^ 53 -> Zpos (Pos.size p) <= 53.
Proof.
  intros Hp. pose proof (size_bounds p) as [Hl Hu].
  destruct (Z.le_gt_cases (Zpos (Pos.size p)) 53) as [H|H]; [assumption|].
  assert (2 ^ 53 <= 2 ^ (Zpos (Pos.size p) - 1)) by (apply Z.pow_le_mono_r; lia).
  lia.
Qed.

Lemma normal_m_val (p : positive) :
  Zpos p < 2 ^ 53 -> Zpos (normal_m p) = Zpos p * 2 ^ (53 - Zpos (Pos.size p)).
Proof.
  intros Hp. pose proof (size_le_53 p Hp) as Hs. unfold normal_m.
  destruct (Zpos (Pos.size p) - 53) as [|c|c] eqn:E; try lia.
  - replace (53 - Zpos (Pos.size p)) with 0 by lia. lia.
  - rewrite iter_xO_val. f_equal. f_equal. lia.
Qed.

Lemma size_mul_ge (a b : positive) :
  Zpos (Pos.size a) + Zpos (Pos.size b) - 1 <= Zpos (Pos.size (a * b)).
Proof.
  pose proof (size_bounds a) as [Ha _]. pose proof (size_bounds b) as [Hb _].
  pose proof (size_bounds (a * b)) as [_ Hab].
  destruct (Z.le_gt_cases (Zpos (Pos.size a) + Zpos (Pos.size b) - 1)
              (Zpos (Pos.size (a * b)))) as [H|H]; [assumption|].
  assert (H1 : 2 ^ Zpos (Pos.size (a * b))
               <= 2 ^ (Zpos (Pos.size a) - 1 + (Zpos (Pos.size b) - 1)))
    by (apply Z.pow_le_mono_r; lia).
  rewrite Z.pow_add_r in H1 by lia.
  rewrite Pos2Z.inj_mul in Hab.
  assert (0 < 2 ^ (Zpos (Pos.size a) - 1)) by (apply Z.pow_pos_nonneg; lia).
  assert (0 < 2 ^ (Zpos (Pos.size b) - 1)) by (apply Z.pow_pos_nonneg; lia).
  nia.
Qed.

Lemma repr_mul_pos (a b : positive) :
  Zpos (a * b) < 2 ^ 53 ->
  SF64mul (repr (Zpos a)) (repr (Zpos b)) = repr (Zpos (a * b)).
Proof.
  intros Hab.
  assert (Ha : Zpos a < 2 ^ 53) by (rewrite Pos2Z.inj_mul in Hab; nia).
  assert (Hb : Zpos b < 2 ^ 53) by (rewrite Pos2Z.inj_mul in Hab; nia).
  pose proof (size_le_53 a Ha) as Hsa. pose proof (size_le_53 b Hb) as Hsb.
  pose proof (size_le_53 (a * b) Hab) as Hsab.
  pose proof (size_mul_ge a b) as Hge.
  cbn [repr]. unfold SF64mul, SFmul. cbn [xorb].
  set (n := Zpos (Pos.size (a * b)) + 53 - Zpos (Pos.size a) - Zpos (Pos.size b)).
  assert (Hn : 0 < n) by (unfold n; lia).
  destruct n as [|n'|n'] eqn:En; try lia.
  assert (E : (normal_m a * normal_m b)%positive = Pos.iter xO (normal_m (a * b)) n').
  { apply Pos2Z.inj. rewrite iter_xO_val, Pos2Z.inj_mul, !normal_m_val by assumption.
    rewrite Pos2Z.inj_mul, <- En. unfold n.
    replace (Zpos a * 2 ^ (53 - Zpos (Pos.size a)) * (Zpos b * 2 ^ (53 - Zpos (Pos.size b))))
      with (Zpos a * Zpos b * (2 ^ (53 - Zpos (Pos.size a)) * 2 ^ (53 - Zpos (Pos.size b))))
      by ring.
    rewrite <- (Z.mul_assoc (Zpos a * Zpos b)).
    apply (f_equal (Z.mul (Zpos a * Zpos b))).
    rewrite <- !Z.pow_add_r by lia. f_equal. lia. }
  rewrite E, round_exact_shift.
  - f_equal. unfold normal_e. lia.
  - now apply normal_m_size.
  - unfold normal_e. pose proof (Pos2Z.is_pos (Pos.size (a * b))). lia.
Qed.

Lemma of_Z_mul (a b : Z) :
  0 <= a -> 0 < b -> b < 2 ^ 53 -> a * b < 2 ^ 53 ->
  (F64.of_Z a * F64.of_Z b)%float = F64.of_Z (a * b).
Proof.
  intros Ha Hb Hb1 Hab. apply Prim2SF_inj.
  assert (Ha' : Z.abs a < 2 ^ 53) by nia.
  assert (Hb' : Z.abs b < 2 ^ 53) by lia.
  assert (Hab' : Z.abs (a * b) < 2 ^ 53) by nia.
  rewrite mul_spec, (Prim2SF_of_Z a Ha'), (Prim2SF_of_Z b Hb'), (Prim2SF_of_Z _ Hab').
  destruct a as [|a|a]; [|destruct b as [|b|b]|]; try lia.
  - destruct b; try lia; reflexivity.
  - now apply repr_mul_pos.
Qed.

Lemma zero_add_of_Z (k : Z) :
  0 <= k -> k < 2 ^ 53 -> (zero + F64.of_Z k)%float = F64.of_Z k.
Proof.
  intros Hk Hb. apply Prim2SF_inj.
  rewrite add_spec, Prim2SF_of_Z by lia.
  destruct k; try lia; reflexivity.
Qed.

(** The ticks of a float range whose step is an integer are the integer
    ticks. *)
Lemma float_tick_int (s : Z) (i : nat) :
  0 < s -> s < 2 ^ 53 -> Z.of_nat i * s < 2 ^ 53 ->
  Np.float_tick (F64.of_Z s) i = F64.of_Z (Np.int_tick s i).
Proof.
  intros Hs Hs1 Hb. unfold Np.float_tick, Np.int_tick.
  rewrite of_Z_mul by lia. rewrite zero_add_of_Z by lia. reflexivity.
Qed.

(** ** An integer index cast to [float64] *)

Lemma exact_Z_of_Z (k : Z) : Z.abs k < 2 ^ 53 -> F64.exact_Z (F64.of_Z k) = Some k.
Proof.
  intros Hk. unfold F64.exact_Z. rewrite Prim2SF_of_Z by assumption.
  assert (H : forall s p, Zpos p < 2 ^ 53 ->
            F64.SFexact (S754_finite s (normal_m p) (normal_e p))
            = Some (F64.signed s (Zpos p))).
  { intros s p Hp. pose proof (size_le_53 p Hp) as Hs.
    unfold F64.SFexact, F64.frac_part, F64.int_part, normal_m, normal_e.
    destruct (Zpos (Pos.size p) - 53) as [|c|c] eqn:E; try lia.
    - cbn. do 2 f_equal. lia.
    - rewrite iter_xO_val.
      assert (0 < 2 ^ Zpos c) by (apply Z.pow_pos_nonneg; lia).
      rewrite Z.mod_mul, Z.div_mul by lia. reflexivity. }
  destruct k as [|p|p]; [reflexivity | apply (H false p Hk) | apply (H true p Hk)].
Qed.

Lemma of_Z_finite (k : Z) : Z.abs k < 2 ^ 53 -> is_finite (F64.of_Z k) = true.
Proof.
  intros Hk. unfold is_finite. rewrite of_Z_not_nan by assumption.
  unfold is_infinity. rewrite eqb_spec, abs_spec, Prim2SF_of_Z by assumption.
  now destruct k.
Qed.

Lemma float_mod_of_Z (k d : Z) :
  Z.abs k < 2 ^ 53 -> Z.abs d < 2 ^ 53 ->
  Pd.mod_is_zero (F64.of_Z k) d = Pd.mod_is_zero k d.
Proof.
  intros Hk Hd. cbn [Pd.mod_is_zero Pd.Float64Label Pd.Int64Label].
  unfold F64.mod_is_zero. now rewrite !exact_Z_of_Z.
Qed.

Section FloatIndex.

Lemma existsb_of_Z (x : Z) (l : list Z) :
  Z.abs x < 2 ^ 53 -> exact_labels l ->
  existsb (PrimFloat.eqb (F64.of_Z x)) (map F64.of_Z l) = existsb (Z.eqb x) l.
Proof.
  intros Hx. induction 1 as [|y t Hy _ IH]; simpl; [reflexivity|].
  now rewrite of_Z_eqb, IH.
Qed.

Lemma insert_of_Z (x : Z) (l : list Z) :
  Z.abs x < 2 ^ 53 -> exact_labels l ->
  Pd.insert (F64.of_Z x) (map F64.of_Z l) = map F64.of_Z (Pd.insert x l).
Proof.
  intros Hx. induction 1 as [|y t Hy _ IH]; simpl; [reflexivity|].
  cbn [Pd.leb Pd.Float64Label Pd.Int64Label]. rewrite of_Z_leb by assumption.
  destruct (x <=? y); simpl; [reflexivity | now rewrite IH].
Qed.

Lemma sort_exact_labels (l : list Z) : exact_labels l -> exact_labels (Pd.sort l).
Proof.
  unfold exact_labels. rewrite !Forall_forall. intros H x Hx. apply H. now apply zsort_In.
Qed.

Lemma sort_of_Z (l : list Z) :
  exact_labels l -> Pd.sort (map F64.of_Z l) = map F64.of_Z (Pd.sort l).
Proof.
  induction 1 as [|x t Hx Ht IH]; simpl; [reflexivity|].
  rewrite IH. apply insert_of_Z; [assumption | now apply sort_exact_labels].
Qed.

Lemma equals_of_Z (l l' : list Z) :
  exact_labels l -> exact_labels l' ->
  Pd.equals (map F64.of_Z l) (map F64.of_Z l') = Pd.equals l l'.
Proof.
  intros Hl. revert l'. induction Hl as [|x t Hx _ IH]; intros l' Hl'.
  - now destruct l'.
  - destruct Hl' as [|y t' Hy Ht']; simpl; [reflexivity|].
    cbn [Pd.eqb Pd.Float64Label Pd.Int64Label]. now rewrite of_Z_eqb, IH.
Qed.

Lemma union_of_Z (self other : list Z) :
  exact_labels self -> exact_labels other ->
  Pd.union (map F64.of_Z self) (map F64.of_Z other) = map F64.of_Z (Pd.union self other).
Proof.
  intros Hs Ho. unfold Pd.union.
  destruct self as [|x self]; [now destruct other|].
  destruct other as [|y other]; [reflexivity|].
  cbn [map]. change (F64.of_Z x :: map F64.of_Z self) with (map F64.of_Z (x :: self)).
  change (F64.of_Z y :: map F64.of_Z other) with (map F64.of_Z (y :: other)).
  rewrite equals_of_Z by assumption.
  destruct (Pd.equals (x :: self) (y :: other)); [reflexivity|].
  assert (E : filter (fun k => negb (existsb (Pd.eqb k) (map F64.of_Z (x :: self))))
                (map F64.of_Z (y :: other))
              = map F64.of_Z
                  (filter (fun k => negb (existsb (Pd.eqb k) (x :: self))) (y :: other))).
  { clear - Hs Ho. set (s := x :: self) in *. clearbody s.
    induction Ho as [|z t Hz _ IH]; [reflexivity|].
    cbn [map filter]. cbn [Pd.eqb Pd.Float64Label Pd.Int64Label] in *.
    rewrite (existsb_of_Z z s) by assumption.
    destruct (existsb (Z.eqb z) s); cbn [negb map]; now rewrite IH. }
  rewrite E, <- map_app. apply sort_of_Z.
  apply Forall_app. split; [assumption|].
  unfold exact_labels in *. rewrite Forall_forall in *. intros k Hk.
  apply filter_In in Hk as [Hk _]. now apply Ho.
Qed.

Lemma union_exact_labels (self other : list Z) :
  exact_labels self -> exact_labels other -> exact_labels (Pd.union self other).
Proof.
  unfold exact_labels. rewrite !Forall_forall. intros Hs Ho k Hk.
  apply zunion_In in Hk as [Hk|Hk]; [now apply Hs | now apply Ho].
Qed.

Lemma drop_duplicates_of_Z (l : list Z) :
  exact_labels l ->
  Pd.drop_duplicates PrimFloat.eqb (map F64.of_Z l)
  = map F64.of_Z (Pd.drop_duplicates Z.eqb l).
Proof.
  induction 1 as [|x t Hx Ht IH]; simpl; [reflexivity|].
  rewrite existsb_of_Z by assumption.
  destruct (existsb (Z.eqb x) t); simpl; now rewrite IH.
Qed.

Lemma is_monotonic_of_Z (l : list Z) :
  exact_labels l -> Pd.is_monotonic (map F64.of_Z l) = Pd.is_monotonic l.
Proof.
  induction l as [|x t IH]; intros Hl; [reflexivity|].
  destruct t as [|y t']; [reflexivity|].
  inversion Hl as [|? ? Hx Ht]; subst. inversion Ht as [|? ? Hy _]; subst.
  change (Pd.leb (F64.of_Z x) (F64.of_Z y) && Pd.is_monotonic (map F64.of_Z (y :: t'))
          = Pd.leb x y && Pd.is_monotonic (y :: t')).
  rewrite (IH Ht). cbn [Pd.leb Pd.Float64Label Pd.Int64Label].
  now rewrite of_Z_leb.
Qed.

Lemma lookup_of_Z (df : list (Z * float)) (k : Z) :
  exact_labels (map fst df) -> Z.abs k < 2 ^ 53 ->
  Pd.lookup df (F64.of_Z k) = Pd.lookup df k.
Proof.
  intros Hdf Hk. unfold Pd.lookup. cbn [Pd.eqb Pd.of_int64 Pd.Float64Label Pd.Int64Label].
  induction df as [|[k0 v0] df IH]; [reflexivity|].
  inversion Hdf as [|? ? Hk0 Hdf']; subst. cbn [find fst].
  rewrite of_Z_eqb by assumption. destruct (k0 =? k); [reflexivity | now apply IH].
Qed.

Lemma new_index_exact_labels (df : list (Z * float)) (g : list Z) :
  exact_labels (map fst df) -> exact_labels g -> exact_labels (new_index df g).
Proof.
  unfold exact_labels. rewrite !Forall_forall. intros Hdf Hg k Hk.
  apply new_index_In in Hk as [Hk|Hk]; [now apply Hdf | now apply Hg].
Qed.

Lemma interpolate_of_Z
    (scipy : string -> Z -> list (float * float) -> list float -> result (list float))
    (method : string) (order : Z) (idx : list Z) (ys : list float) :
  exact_labels idx ->
  Pd.interpolate scipy method order (map F64.of_Z idx) ys
  = Pd.interpolate scipy method order idx ys.
Proof.
  intros Hidx. unfold Pd.interpolate.
  destruct idx as [|x idx]; [reflexivity|].
  cbn [map]. change (F64.of_Z x :: map F64.of_Z idx) with (map F64.of_Z (x :: idx)).
  rewrite is_monotonic_of_Z by assumption.
  rewrite length_map, map_map. reflexivity.
Qed.

Lemma filter_rows_of_Z (d : Z) (idx : list Z) (ys : list float) :
  exact_labels idx -> Z.abs d < 2 ^ 53 ->
  filter (fun r : float * float => Pd.mod_is_zero (fst r) d)
    (combine (map F64.of_Z idx) ys)
  = map (fun r : Z * float => (F64.of_Z (fst r), snd r))
      (filter (fun r : Z * float => Pd.mod_is_zero (fst r) d) (combine idx ys)).
Proof.
  intros Hidx Hd. revert ys. induction Hidx as [|k t Hk _ IH]; intros ys; [reflexivity|].
  destruct ys as [|y ys]; [reflexivity|].
  cbn [map combine filter fst]. rewrite float_mod_of_Z by assumption.
  destruct (Pd.mod_is_zero k d); cbn [map fst snd]; now rewrite IH.
Qed.

(** Lines 37-48 on a [float64] grid of integers are lines 37-48 on the
    integer grid. *)
Lemma resample_on_of_Z
    (scipy : string -> Z -> list (float * float) -> list float -> result (list float))
    (df : list (Z * float)) (g : list Z) (step : pynum) (method : string) (order : Z)
    (d : Z) :
  exact_labels (map fst df) -> exact_labels g ->
  py_int (py_mul_int step precision) = Ok d -> Z.abs d < 2 ^ 53 ->
  resample_on scipy df (map F64.of_Z g) step method order
  = resample_on scipy df g step method order.
Proof.
  intros Hdf Hg Hd Hdb. unfold resample_on, filtered_on, Pd.reindex.
  destruct (Pd.has_duplicates Z.eqb (map fst df)); [reflexivity|]. cbn [bind].
  cbn [Pd.of_int64 Pd.eqb Pd.Float64Label Pd.Int64Label].
  change (map (fun r : Z * float => F64.of_Z (fst r)) df)
    with (map (fun r : Z * float => F64.of_Z (fst r)) df).
  rewrite <- (map_map fst F64.of_Z df).
  change (map (fun r : Z * float => fst r) df) with (map fst df).
  rewrite union_of_Z by assumption.
  rewrite drop_duplicates_of_Z by now apply union_exact_labels.
  fold (new_index df g).
  pose proof (new_index_exact_labels df g Hdf Hg) as Hidx.
  rewrite map_map.
  rewrite (map_ext_in (fun x => Pd.lookup df (F64.of_Z x)) (Pd.lookup df)).
  2:{ intros k Hk. apply lookup_of_Z; [assumption|].
      unfold exact_labels in Hidx. rewrite Forall_forall in Hidx. now apply Hidx. }
  rewrite interpolate_of_Z by assumption.
  destruct (Pd.interpolate scipy method order (new_index df g) _) as [ys|e];
    [|reflexivity].
  cbn [bind]. rewrite Hd. cbn [bind].
  rewrite filter_rows_of_Z by assumption.
  rewrite map_map. reflexivity.
Qed.

End FloatIndex.

(** ** A float range with an integer step *)

Lemma arange_float_step (M s : Z) (d : float) :
  d = F64.of_Z s -> 0 < s -> s < 2 ^ 53 -> Z.abs M < 2 ^ 53 ->
  F64.ceil (F64.of_Z M / d) = Some (Np.ceil_div M s) ->
  Np.ceil_div M s * s < 2 ^ 53 ->
  Np.arange (PyInt M) (PyFloat d) = Ok (Np.FloatArray (map F64.of_Z (grid M s))).
Proof.
  intros -> Hs Hs1 HM Hc Hn. unfold Np.arange. cbn [py_float bind].
  rewrite of_Z_finite by assumption. cbn [bind].
  change zero with (F64.of_Z 0). rewrite of_Z_eqb by lia.
  destruct (Z.eqb_spec s 0); [lia|].
  rewrite Hc.
  assert (Hlt : (Np.ceil_div M s <? 2 ^ 63) = true).
  { apply Z.ltb_lt. assert (2 ^ 53 < 2 ^ 63) by reflexivity. nia. }
  rewrite Hlt. do 2 f_equal. unfold grid. rewrite map_map.
  apply map_ext_in. intros i Hi. apply in_seq in Hi.
  apply float_tick_int; try assumption.
  assert (Z.of_nat i < Np.ceil_div M s) by lia. nia.
Qed.

(** ** The ticks on an integer grid, whatever the type of [step] *)

Section TicksAnyStep.

Variable scipy : string -> Z -> list (float * float) -> list float -> result (list float).

Lemma filtered_ticks (df : list (Z * float)) (g : list Z) (step : pynum)
    (method : string) (order : Z) (rows : list (Z * float)) (d : Z) :
  py_int (py_mul_int step precision) = Ok d ->
  filtered_on scipy df g step method order = Ok rows ->
  map fst rows = filter (fun k => Pd.mod_is_zero k d) (new_index df g).
Proof.
  intros Hd Hf. apply filtered_on_stages in Hf as (ys & d' & _ & Hi & Hd' & ->).
  rewrite Hd in Hd'. inversion Hd'; subst d'.
  apply filter_combine_fst with (f := fun k => Pd.mod_is_zero k d).
  now apply column_length with (scipy := scipy) (df := df) (method := method)
                               (order := order).
Qed.

Lemma ticks_on_grid (df : list (Z * float)) (M s : Z) (step : pynum)
    (method : string) (order : Z) (out : list (float * float)) :
  0 < M -> 0 < s -> py_int (py_mul_int step precision) = Ok s ->
  resample_on scipy df (grid M s) step method order = Ok out ->
  exists ticks : list Z,
    map fst out = map tick_time ticks /\
    StronglySorted Z.lt ticks /\
    (forall k, In k ticks <-> In k (grid M s) \/ (k mod s = 0 /\ In k (map fst df))) /\
    ((forall k, In k (map fst df) -> k mod s = 0 -> 0 <= k < M) -> ticks = grid M s).
Proof.
  intros HM Hs Hd Hr. unfold resample_on in Hr.
  destruct (filtered_on _ _ _ _ _ _) as [rows|e] eqn:Hf; [|discriminate].
  cbn [bind] in Hr. inversion Hr; subst out; clear Hr.
  apply (filtered_ticks _ _ _ _ _ _ s Hd) in Hf.
  assert (Hg : StronglySorted Z.lt (grid M s)) by now apply grid_sorted.
  assert (Hne : grid M s <> []) by now apply grid_nonempty.
  assert (Hmem : forall k, In k (map fst rows) <->
            In k (grid M s) \/ (k mod s = 0 /\ In k (map fst df))).
  { intros k. rewrite Hf, filter_In, new_index_In, mod_is_zero_int by assumption.
    split.
    - intros [[Hk|Hk] Hz]; [now right | now left].
    - intros [Hk|[Hz Hk]]; [|now split; [left|]].
      split; [now right | now apply grid_mod with (M := M)]. }
  assert (Hsorted : StronglySorted Z.lt (map fst rows)).
  { rewrite Hf. now apply filter_sorted, new_index_sorted. }
  exists (map fst rows). split; [apply rescale_fst|].
  split; [assumption|]. split; [assumption|].
  intros Hin. apply strictly_sorted_ext; [assumption..|].
  intros k. rewrite Hmem. split; [|now left].
  intros [Hk|[Hz Hk]]; [assumption|].
  apply grid_In; [assumption|].
  specialize (Hin k Hk Hz).
  exists (k / s). split; [apply Z.div_pos; lia|].
  split; [|lia].
  rewrite Z.mul_comm. apply Z.div_exact; lia.
Qed.

End TicksAnyStep.

Lemma grid_exact_labels (M s : Z) : 0 < s -> M < 2 ^ 53 -> exact_labels (grid M s).
Proof.
  intros Hs HM. apply Forall_forall. intros k Hk.
  apply grid_In in Hk as (i & Hi & -> & Hlt); [|assumption]. nia.
Qed.

(** ** The call of [main] *)

Lemma main_step : py_int (py_mul_int (PyFloat 0.01) precision) = Ok 100.
Proof. reflexivity. Qed.

Lemma main_arange :
  Np.arange (py_mul_int (PyInt 3600) precision) (py_mul_int (PyFloat 0.01) precision)
  = Ok (Np.FloatArray (map F64.of_Z (grid 36000000 100))).
Proof.
  cbn [py_mul_int]. change (3600 * precision) with 36000000.
  apply arange_float_step; try reflexivity.
Qed.

Section MainCall.

Variable scipy : string -> Z -> list (float * float) -> list float -> result (list float).

(** With the arguments of [main] the [float64] index holds integers, and
    lines 37-48 work as on the integer grid [0, 100, ..., 35999900]. *)
Lemma resampled_dataframe_int_grid (method : string)
    (dataframe : list (float * float)) (df : list (Z * float)) :
  mapM Pd.scale_time (samples dataframe) = Ok df -> exact_labels (map fst df) ->
  resampled_dataframe scipy method dataframe
  = resample_on scipy df (grid 36000000 100) (PyFloat 0.01) method 1.
Proof.
  intros Hdf Hb. unfold resampled_dataframe, resample_dataframe.
  fold (samples dataframe). rewrite Hdf, main_arange. cbn [bind].
  apply resample_on_of_Z with (d := 100).
  - assumption.
  - now apply grid_exact_labels.
  - exact main_step.
  - reflexivity.
Qed.

End MainCall.

(** The ticks of a frame of [main], from the scaled rows. *)
Lemma resampled_dataframe_ticks
    (scipy : string -> Z -> list (float * float) -> list float -> result (list float))
    (method : string) (dataframe : list (float * float)) (df : list (Z * float))
    (out : list (float * float)) :
  mapM Pd.scale_time (samples dataframe) = Ok df -> exact_labels (map fst df) ->
  resampled_dataframe scipy method dataframe = Ok out ->
  exists ticks : list Z,
    map fst out = map tick_time ticks /\
    StronglySorted Z.lt ticks /\
    (forall k, In k ticks <->
       In k (grid 36000000 100) \/ (k mod 100 = 0 /\ In k (map fst df))) /\
    ((forall k, In k (map fst df) -> k mod 100 = 0 -> 0 <= k < 36000000) ->
     ticks = grid 36000000 100).
Proof.
  intros Hdf Hw Hr.
  rewrite (resampled_dataframe_int_grid scipy method dataframe df Hdf Hw) in Hr.
  apply ticks_on_grid in Hr; [assumption | lia | lia | exact main_step].
Qed.

(** The scaled rows of a frame that the call accepts. *)
Lemma scaled_rows
    (scipy : string -> Z -> list (float * float) -> list float -> result (list float))
    (dataframe : list (float * float)) (max_value step : pynum)
    (method : string) (order : Z) (out : list (float * float)) :
  resample_dataframe scipy dataframe max_value step method order = Ok out ->
  exists df,
    mapM Pd.scale_time (samples dataframe) = Ok df /\
    forall k, In k (map fst df) <->
      exists t v, In (t, v) (samples dataframe) /\ scaled t = Ok k.
Proof.
  intros Hr. apply resample_dataframe_stages in Hr as (df & Hdf & _).
  exists df. split; [assumption|]. intros k. split.
  - intros Hk. apply in_map_iff in Hk as ([k' v] & E & Hin). simpl in E. subst k'.
    apply (mapM_scale_In _ _ k v Hdf) in Hin as (t & Hin & Ht). now exists t, v.
  - intros (t & v & Hin & Ht). apply in_map_iff. exists (k, v).
    split; [reflexivity|]. apply (mapM_scale_In _ _ k v Hdf). now exists t.
Qed.

(** The empty frame on an integer grid, whatever the type of [step]. *)
Lemma empty_on_grid
    (scipy : string -> Z -> list (float * float) -> list float -> result (list float))
    (M s : Z) (step : pynum) (method : string) (order : Z) :
  0 < s -> py_int (py_mul_int step precision) = Ok s ->
  Pd.supported method = true ->
  resample_on scipy [] (grid M s) step method order
  = Ok (map (fun k => (tick_time k, nan)) (grid M s)).
Proof.
  intros Hs Hd Hm.
  set (g := grid M s).
  assert (Hg : StronglySorted Z.lt g) by now apply grid_sorted.
  unfold resample_on, filtered_on, Pd.reindex.
  cbn [map Pd.eqb Pd.of_int64 Pd.Int64Label Pd.has_duplicates bind].
  rewrite union_nil_l, zdrop_duplicates_strict by assumption.
  rewrite lookup_nil.
  rewrite (interpolate_no_work scipy method order g); try assumption.
  - cbn [bind]. rewrite Hd. cbn [bind]. unfold Pd.ffill.
    rewrite ffill_from_all_nan, bfill_all_nan, map_round_all_nan.
    pose proof (filter_grid_rows M s) as Hfg.
    fold g in Hfg. rewrite Hfg by lia.
    rewrite combine_all_nan, map_map. reflexivity.
  - now apply sorted_is_monotonic.
  - apply ffill_from_all_nan.
  - apply bfill_all_nan.
  - left. apply forallb_all_nan.
Qed.

(** An empty file: one missing row per grid tick. *)
Lemma resampled_dataframe_empty
    (scipy : string -> Z -> list (float * float) -> list float -> result (list float))
    (method : string) :
  Pd.supported method = true ->
  resampled_dataframe scipy method []
  = Ok (map (fun k => (tick_time k, nan)) (grid 36000000 100)).
Proof.
  intros Hm.
  rewrite (resampled_dataframe_int_grid scipy method [] []);
    [|reflexivity | constructor].
  apply empty_on_grid; [reflexivity | exact main_step | assumption].
Qed.

Lemma resampled_dataframe_returns
    (scipy : string -> Z -> list (float * float) -> list float -> result (list float))
    (method : string) (dataframe : list (float * float)) (df : list (Z * float)) :
  In method ["linear"; "index"; "values"; "ffill"; "pad"; "bfill"; "backfill"]%string ->
  mapM Pd.scale_time (samples dataframe) = Ok df ->
  NoDup (map fst df) -> exact_labels (map fst df) ->
  exists out, resampled_dataframe scipy method dataframe = Ok out.
Proof.
  intros Hm Hdf Hnd Hw.
  rewrite (resampled_dataframe_int_grid scipy method dataframe df Hdf Hw).
  now apply resample_on_returns with (d := 100).
Qed.

(** ** The order of the rows *)

Lemma existsb_perm {A : Type} (f : A -> bool) (l l' : list A) :
  Permutation l l' -> existsb f l = existsb f l'.
Proof.
  intros Hp. destruct (existsb f l) eqn:E; symmetry.
  - apply existsb_exists in E as (x & Hx & Hf). apply existsb_exists.
    exists x. split; [|assumption]. now apply (Permutation_in _ Hp).
  - destruct (existsb f l') eqn:E'; [|reflexivity].
    apply existsb_exists in E' as (x & Hx & Hf). rewrite <- E. symmetry.
    apply existsb_exists. exists x. split; [|assumption].
    now apply (Permutation_in _ (Permutation_sym Hp)).
Qed.

Lemma has_duplicates_perm {A : Type} (same : A -> A -> bool) (l l' : list A) :
  (forall a b, same a b = same b a) ->
  Permutation l l' -> Pd.has_duplicates same l = Pd.has_duplicates same l'.
Proof.
  intros Hsym. induction 1 as [|x l l' Hp IH|x y l|l l' l'' _ IH1 _ IH2]; simpl.
  - reflexivity.
  - now rewrite IH, (existsb_perm _ _ _ Hp).
  - rewrite (Hsym y x).
    destruct (same x y), (existsb (same y) l), (existsb (same x) l); reflexivity.
  - congruence.
Qed.

Lemma mapM_perm {A B : Type} (f : A -> result B) (l l' : list A) (r : list B) :
  Permutation l l' -> mapM f l = Ok r ->
  exists r', mapM f l' = Ok r' /\ Permutation r r'.
Proof.
  intros Hp. revert r.
  induction Hp as [|x l l' Hp IH|x y l|l l' l'' _ IH1 _ IH2]; intros r Hr.
  - exists r. split; [assumption | apply Permutation_refl].
  - simpl in Hr |- *. destruct (f x) as [b|e]; cbn [bind] in *; [|discriminate].
    destruct (mapM f l) as [bs|e]; cbn [bind] in *; [|discriminate].
    inversion Hr; subst r. destruct (IH bs eq_refl) as (r' & -> & Hp').
    cbn [bind]. exists (b :: r'). split; [reflexivity | now constructor].
  - simpl in Hr |- *. destruct (f y) as [b|e]; cbn [bind] in *; [|discriminate].
    destruct (f x) as [b'|e]; cbn [bind] in *; [|discriminate].
    destruct (mapM f l) as [bs|e]; cbn [bind] in *; [|discriminate].
    inversion Hr; subst r. exists (b' :: b :: bs). split; [reflexivity | constructor].
  - destruct (IH1 r Hr) as (r' & Hr' & Hp'). destruct (IH2 r' Hr') as (r'' & Hr'' & Hp'').
    exists r''. split; [assumption | now apply Permutation_trans with r'].
Qed.

Lemma lookup_perm (df df' : list (Z * float)) (k : Z) :
  Permutation df df' -> NoDup (map fst df) -> Pd.lookup df k = Pd.lookup df' k.
Proof.
  intros Hp Hnd.
  assert (Hnd' : NoDup (map fst df')).
  { apply (Permutation_NoDup (Permutation_map fst Hp) Hnd). }
  destruct (in_dec Z.eq_dec k (map fst df)) as [Hin|Hout].
  - apply in_map_iff in Hin as ([k' v] & E & Hin). simpl in E. subst k'.
    rewrite (lookup_In df k v Hnd Hin).
    symmetry. apply lookup_In; [assumption|]. now apply (Permutation_in _ Hp).
  - rewrite (lookup_not_In df k Hout). symmetry. apply lookup_not_In.
    intros Hin. apply Hout.
    now apply (Permutation_in _ (Permutation_sym (Permutation_map fst Hp))).
Qed.

(** Lines 37-48 on a sorted grid see the frame as a set of rows. *)
Lemma resample_on_perm
    (scipy : string -> Z -> list (float * float) -> list float -> result (list float))
    (df df' : list (Z * float)) (g : list Z) (step : pynum)
    (method : string) (order : Z) :
  Permutation df df' -> StronglySorted Z.lt g -> g <> [] ->
  resample_on scipy df g step method order
  = resample_on scipy df' g step method order.
Proof.
  intros Hp Hg Hne. unfold resample_on, filtered_on, Pd.reindex.
  rewrite (has_duplicates_perm Z.eqb _ _ Z.eqb_sym (Permutation_map fst Hp)).
  destruct (Pd.has_duplicates Z.eqb (map fst df')) eqn:Hd; [reflexivity|].
  assert (Hnd : NoDup (map fst df)).
  { apply (Permutation_NoDup (Permutation_sym (Permutation_map fst Hp))).
    now apply zhas_duplicates_NoDup. }
  cbn [bind Pd.eqb Pd.of_int64 Pd.Int64Label].
  change (map (fun r : Z * float => fst r) df) with (map fst df).
  change (map (fun r : Z * float => fst r) df') with (map fst df').
  fold (new_index df g). fold (new_index df' g).
  assert (E : new_index df g = new_index df' g).
  { apply strictly_sorted_ext; try now apply new_index_sorted.
    intros k. rewrite !new_index_In.
    split; (intros [Hk|Hk]; [left | now right]).
    - now apply (Permutation_in _ (Permutation_map fst Hp)).
    - now apply (Permutation_in _ (Permutation_sym (Permutation_map fst Hp))). }
  rewrite E.
  rewrite (map_ext (Pd.lookup df) (Pd.lookup df')); [reflexivity|].
  intros k. now apply lookup_perm.
Qed.

(** ** The fill methods *)

Section From.

Variable S : float -> Prop.

Lemma ffill_from_from (last : float) (ys : list float) :
  is_nan last = true \/ S last ->
  Forall (fun y => is_nan y = true \/ S y) ys ->
  Forall (fun y => is_nan y = true \/ S y) (Pd.ffill_from last ys).
Proof.
  intros Hl Hys. revert last Hl.
  induction Hys as [|y t Hy _ IH]; intros last Hl; simpl; [constructor|].
  destruct (is_nan y) eqn:E.
  - constructor; [exact Hl | now apply IH].
  - assert (Hy' : is_nan y = true \/ S y).
    { destruct Hy as [Hy|Hy]; [discriminate | now right]. }
    constructor; [exact Hy' | now apply IH].
Qed.

Lemma bfill_from (ys : list float) :
  Forall (fun y => is_nan y = true \/ S y) ys ->
  Forall (fun y => is_nan y = true \/ S y) (Pd.bfill ys).
Proof.
  induction 1 as [|y t Hy _ IH]; simpl; [constructor|].
  constructor; [|assumption].
  destruct (is_nan y) eqn:E.
  - destruct (Pd.bfill t) as [|z t']; [now left | now inversion IH].
  - destruct Hy as [Hy|Hy]; [discriminate | now right].
Qed.

End From.

Lemma lookup_from {L : Type} `{Pd.Label L} (df : list (Z * float)) (idx : list L) :
  Forall (fun y => is_nan y = true \/ exists k, In (k, y) df)
    (map (Pd.lookup df) idx).
Proof.
  apply Forall_forall. intros y Hy. apply in_map_iff in Hy as (x & <- & _).
  unfold Pd.lookup. destruct (find _ df) as [[k v]|] eqn:E; [|now left].
  apply find_some in E as [E _]. right. now exists k.
Qed.

(** * Further properties of the program *)

(** ** Line 32: the rows that stay *)

(** X1: [drop_duplicates('time', keep='last')] keeps a row exactly when no
    later row has the same time; no two kept rows have the same time, and
    every time of the input is the time of a kept row. *)
Theorem keep_last_rows (dataframe : list (float * float)) :
  (forall r, In r (samples dataframe) <->
     exists pre post, dataframe = pre ++ r :: post /\
       forall r', In r' post -> Pd.same_time r r' = false) /\
  Pd.has_duplicates Pd.same_time (samples dataframe) = false /\
  (forall r, In r dataframe ->
     exists r', In r' (samples dataframe) /\ Pd.same_time r r' = true).
Proof.
  split; [|split].
  - intros r. apply drop_duplicates_In_iff.
  - apply drop_duplicates_none_left.
  - intros r. apply samples_cover.
Qed.

(** X2: a row that a later row with the same time overrides has no
    effect: the call gives the same result, or the same exception, without
    it. *)
Theorem overridden_row_ignored
    (scipy : string -> Z -> list (float * float) -> list float -> result (list float))
    (pre post : list (float * float)) (r r' : float * float)
    (max_value step : pynum) (method : string) (order : Z) :
  In r' post -> Pd.same_time r r' = true ->
  resample_dataframe scipy (pre ++ r :: post) max_value step method order
  = resample_dataframe scipy (pre ++ post) max_value step method order.
Proof.
  intros Hin Hs. unfold resample_dataframe.
  replace (Pd.drop_duplicates Pd.same_time (pre ++ r :: post))
    with (Pd.drop_duplicates Pd.same_time (pre ++ post)); [reflexivity|].
  rewrite !drop_duplicates_app.
  assert (Ex : existsb (Pd.same_time r) post = true).
  { apply existsb_exists. now exists r'. }
  simpl. rewrite Ex. f_equal. apply filter_ext. intros a. f_equal. simpl.
  destruct (Pd.same_time a r) eqn:Ha; [|reflexivity]. simpl.
  apply existsb_exists. exists r'. split; [assumption|].
  now apply same_time_trans with r.
Qed.

Lemma overridden_row_ignored_witness :
  resample_dataframe no_scipy ([(0.5, 4)] ++ (1, 5) :: [(2, 1); (1, 9)])%float
    (PyInt 3) (PyInt 1) "linear" 1
  = resample_dataframe no_scipy ([(0.5, 4)] ++ [(2, 1); (1, 9)])%float
    (PyInt 3) (PyInt 1) "linear" 1.
Proof.
  apply overridden_row_ignored with (r' := (1, 9)%float).
  - right. left. reflexivity.
  - reflexivity.
Defined.

(** ** Line 33: times that do not convert *)

(** X3: a time that is NaN or infinite anywhere in the input makes the
    call raise pandas' [IntCastingNaNError] at line 33, whatever the
    other arguments are (as long as no scaled time falls outside [int64],
    which NumPy leaves to the platform). *)
Theorem non_finite_time_raises
    (scipy : string -> Z -> list (float * float) -> list float -> result (list float))
    (dataframe : list (float * float)) (max_value step : pynum)
    (method : string) (order : Z) (t v : float) :
  In (t, v) dataframe -> is_finite t = false ->
  (forall r, In r dataframe -> scaled (fst r) <> Err CastRangeError) ->
  resample_dataframe scipy dataframe max_value step method order
  = Err IntCastingNaNError.
Proof.
  intros Hin Ht Hall. unfold resample_dataframe. fold (samples dataframe).
  rewrite mapM_scale_non_finite; [reflexivity | |].
  - intros r Hr. apply Hall. now apply drop_duplicates_incl in Hr.
  - destruct (samples_cover dataframe (t, v) Hin) as (r' & Hr' & Hs).
    exists r'. split; [assumption|].
    rewrite <- (key_eqb_scaled t (fst r') Hs). now apply scaled_not_finite.
Qed.

Lemma non_finite_time_raises_witness :
  resample_dataframe no_scipy [(0.5, 4); (nan, 1); (2, 6)]%float
    (PyInt 4) (PyInt 1) "linear" 1
  = Err IntCastingNaNError.
Proof.
  apply non_finite_time_raises with (t := nan) (v := 1%float).
  - right. left. reflexivity.
  - reflexivity.
  - intros r [<-|[<-|[<-|[]]]]; vm_compute; discriminate.
Defined.

(** ** Lines 32-38: two times in one bucket of [10^-4] *)

(** X4: whenever two rows have different times with the same scaled
    integer time, and the times convert and the grid is built, the call
    raises at line 38 ([reindex] on duplicate labels): line 32 has kept a
    row for each of the two times. *)
Theorem same_bucket_raises
    (scipy : string -> Z -> list (float * float) -> list float -> result (list float))
    (dataframe : list (float * float)) (max_value step : pynum)
    (method : string) (order : Z) (t1 v1 t2 v2 : float)
    (df : list (Z * float)) (a : Np.ndarray) :
  In (t1, v1) dataframe -> In (t2, v2) dataframe ->
  F64.key_eqb t1 t2 = false -> scaled t1 = scaled t2 ->
  mapM Pd.scale_time (samples dataframe) = Ok df ->
  Np.arange (py_mul_int max_value precision) (py_mul_int step precision) = Ok a ->
  resample_dataframe scipy dataframe max_value step method order
  = Err DuplicateLabelsError.
Proof.
  intros H1 H2 Hne Hs Hdf Ha.
  apply duplicate_labels_raise with (df := df) (a := a); [assumption..|].
  intros Hnd.
  destruct (samples_cover dataframe _ H1) as (r1 & Hr1 & Hs1).
  destruct (samples_cover dataframe _ H2) as (r2 & Hr2 & Hs2).
  assert (E : r1 = r2).
  { apply (mapM_scale_injective _ df r1 r2 Hdf Hnd Hr1 Hr2).
    rewrite <- (key_eqb_scaled t1 (fst r1) Hs1), <- (key_eqb_scaled t2 (fst r2) Hs2).
    exact Hs. }
  subst r2. unfold Pd.same_time in Hs1, Hs2. simpl in Hs1, Hs2.
  rewrite key_eqb_sym in Hs2.
  rewrite (key_eqb_trans _ _ _ Hs1 Hs2) in Hne. discriminate.
Qed.

Lemma same_bucket_raises_witness :
  resample_dataframe no_scipy [(1, 5); (2, 7); (1.00001, 9)]%float
    (PyInt 4) (PyFloat 0.5) "ffill" 1
  = Err DuplicateLabelsError.
Proof.
  eapply same_bucket_raises with (t1 := 1%float) (v1 := 5%float)
                                 (t2 := 1.00001%float) (v2 := 9%float).
  - left. reflexivity.
  - right. right. left. reflexivity.
  - reflexivity.
  - reflexivity.
  - vm_compute. reflexivity.
  - vm_compute. reflexivity.
Defined.

(** ** Line 44: a step below the resolution *)

(** X5: when [int(step * precision)] is 0 (a step below [10^-4], or a
    zero step), no row passes the filter of line 44: the call raises or
    returns the empty frame, at either index dtype. *)
Theorem step_below_resolution
    (scipy : string -> Z -> list (float * float) -> list float -> result (list float))
    (dataframe : list (float * float)) (max_value step : pynum)
    (method : string) (order : Z) (out : list (float * float)) :
  py_int (py_mul_int step precision) = Ok 0 ->
  resample_dataframe scipy dataframe max_value step method order = Ok out ->
  out = [].
Proof.
  intros Hs Hr. apply resample_dataframe_stages in Hr as (df & _ & [H|H]);
    destruct H as (g & rows & _ & Hf & ->);
    apply filtered_on_stages in Hf as (ys & d & _ & _ & Hd & ->);
    rewrite Hs in Hd; inversion Hd; subst d;
    rewrite filter_none; try reflexivity.
  intros r _. exact (float_mod_zero (fst r)).
Qed.

Lemma step_below_resolution_witness :
  exists out,
    resample_dataframe no_scipy [(0.0005, 1); (0.001, 3)]%float
      (PyFloat 0.002) (PyFloat 0.00001) "linear" 1 = Ok out /\
    out = [].
Proof.
  eexists. split; [vm_compute; reflexivity|].
  apply (step_below_resolution no_scipy [(0.0005, 1); (0.001, 3)]%float
           (PyFloat 0.002) (PyFloat 0.00001) "linear" 1).
  - vm_compute. reflexivity.
  - vm_compute. reflexivity.
Defined.

(** ** Lines 40-42: missing values *)

(** X6: when no row of the input has an observed value (in particular
    on the empty frame), every value of a returned frame is missing, for
    every method, backend and index dtype. *)
Theorem all_missing_stay_missing
    (scipy : string -> Z -> list (float * float) -> list float -> result (list float))
    (dataframe : list (float * float)) (max_value step : pynum)
    (method : string) (order : Z) (out : list (float * float)) :
  Forall (fun r => is_nan (snd r) = true) dataframe ->
  resample_dataframe scipy dataframe max_value step method order = Ok out ->
  Forall (fun r => is_nan (snd r) = true) out.
Proof.
  intros Hall Hr. apply resample_dataframe_stages in Hr as (df & Hdf & H).
  assert (Hdf_nan : Forall (fun r => is_nan (snd r) = true) df).
  { apply Forall_forall. intros [k v] Hin.
    apply (mapM_scale_In _ _ k v Hdf) in Hin as (t & Hin & _).
    apply drop_duplicates_incl in Hin. rewrite Forall_forall in Hall.
    now apply (Hall (t, v)). }
  assert (Hcol : forall (L : Type) (HL : Pd.Label L) (idx : list L) (ys : list float),
            Pd.interpolate scipy method order idx (map (Pd.lookup df) idx) = Ok ys ->
            Forall (fun y => is_nan y = true)
              (map (Np.round DECIMAL_POINTS) (Pd.bfill (Pd.ffill ys)))).
  { intros L HL idx ys Hi.
    rewrite (all_nan_repeat _ (lookup_all_nan df idx Hdf_nan)) in Hi.
    apply interpolate_all_nan in Hi. subst ys. unfold Pd.ffill.
    rewrite ffill_from_all_nan, bfill_all_nan, map_round_all_nan.
    apply repeat_all_nan. }
  assert (Hrows : forall (L : Type) (HL : Pd.Label L) (g : list L) (rows : list (L * float)),
            filtered_on scipy df g step method order = Ok rows ->
            Forall (fun r => is_nan (snd r) = true) (map rescale rows)).
  { intros L HL g rows Hf.
    apply filtered_on_stages in Hf as (ys & d & _ & Hi & _ & ->).
    apply Hcol in Hi. rewrite Forall_forall in Hi |- *.
    intros r Hin. apply in_map_iff in Hin as ([x y] & <- & Hin). simpl.
    apply filter_In in Hin as [Hin _]. apply in_combine_r in Hin. now apply Hi. }
  destruct H as [H|H]; destruct H as (g & rows & _ & Hf & ->); now apply Hrows in Hf.
Qed.

Lemma all_missing_stay_missing_witness :
  Forall (fun r => is_nan (snd r) = true)
    [(0, nan); (0.5, nan); (1, nan); (1.5, nan)]%float.
Proof.
  apply (all_missing_stay_missing no_scipy [(0.7, nan); (1.2, nan)]%float
           (PyInt 2) (PyFloat 0.5) "slinear" 1).
  - repeat constructor.
  - vm_compute. reflexivity.
Defined.

(** X7: for Python ints [max_value] and [step], both positive, as soon
    as one row left by line 32 has an observed value, no value of a
    returned frame is missing, for every method and backend: line 41
    fills what line 40 leaves, and line 42 makes no value missing. *)
Theorem no_missing_value_left
    (scipy : string -> Z -> list (float * float) -> list float -> result (list float))
    (dataframe : list (float * float)) (mv st : Z) (method : string) (order : Z)
    (out : list (float * float)) (t v : float) :
  0 < mv -> 0 < st -> mv * precision < 2 ^ 53 -> st * precision < 2 ^ 53 ->
  resample_dataframe scipy dataframe (PyInt mv) (PyInt st) method order = Ok out ->
  In (t, v) (samples dataframe) -> is_nan v = false ->
  Forall (fun r => is_nan (snd r) = false) out.
Proof.
  intros Hmv Hst HM Hs Hr Hin Hv.
  rewrite resample_int in Hr by assumption. fold (samples dataframe) in Hr.
  destruct (mapM Pd.scale_time _) as [df|e] eqn:Hdf; [|discriminate].
  cbn [bind] in Hr.
  destruct (filtered_on _ _ _ _ _ _) as [rows|e] eqn:Hf; [|discriminate].
  cbn [bind] in Hr. inversion Hr; subst out; clear Hr.
  destruct (mapM_scale_row _ _ t v Hdf Hin) as (k & _ & Hkv).
  pose proof (complete_on_index scipy df _ _ _ _ rows k v Hf Hkv Hv) as Hall.
  rewrite Forall_forall in Hall |- *.
  intros r Hr. apply in_map_iff in Hr as (r' & <- & Hr'). now apply Hall.
Qed.

Lemma no_missing_value_left_witness :
  Forall (fun r => is_nan (snd r) = false)
    [(0, 7); (1, 7); (2, 7); (3, 7)]%float.
Proof.
  apply (no_missing_value_left no_scipy [(0.5, nan); (1.5, 7); (2.5, nan)]%float
           4 1 "linear" 1 _ 1.5%float 7%float).
  - reflexivity.
  - reflexivity.
  - reflexivity.
  - reflexivity.
  - vm_compute. reflexivity.
  - right. left. reflexivity.
  - reflexivity.
Defined.

(** ** Line 37: the [drop_duplicates] of the combined index *)

(** X8: on an integer grid, the [drop_duplicates] of line 37 removes
    nothing whenever line 38 does not raise: the union of an index
    without duplicate labels and the grid has none. *)
Theorem union_needs_no_drop (df : list (Z * float)) (M s : Z) :
  0 < s -> NoDup (map fst df) ->
  new_index df (grid M s) = Pd.union (map fst df) (grid M s).
Proof.
  intros Hs Hnd. unfold new_index.
  apply drop_duplicates_id, zhas_duplicates_false, zunion_NoDup; [assumption|].
  now apply strictly_sorted_NoDup, grid_sorted.
Qed.

Lemma union_needs_no_drop_witness :
  new_index [(25000, 1%float); (5000, 4%float); (20000, 6%float)] (grid 40000 10000)
  = Pd.union (map fst [(25000, 1%float); (5000, 4%float); (20000, 6%float)]) (grid 40000 10000).
Proof.
  apply union_needs_no_drop; [reflexivity|].
  repeat constructor; simpl; intuition discriminate.
Defined.

(** ** Lines 33-40: when the call returns *)

(** X9: for Python ints [max_value] and [step], both positive, and a
    method that does not go through SciPy, once the times convert at line
    33 the call returns a frame exactly when no two kept rows have the
    same scaled time; otherwise it raises at line 38. *)
Theorem non_scipy_methods_return
    (scipy : string -> Z -> list (float * float) -> list float -> result (list float))
    (dataframe : list (float * float)) (mv st : Z) (method : string) (order : Z)
    (df : list (Z * float)) :
  0 < mv -> 0 < st -> mv * precision < 2 ^ 53 -> st * precision < 2 ^ 53 ->
  In method ["linear"; "index"; "values"; "ffill"; "pad"; "bfill"; "backfill"]%string ->
  mapM Pd.scale_time (samples dataframe) = Ok df ->
  (NoDup (map fst df) ->
   exists out, resample_dataframe scipy dataframe (PyInt mv) (PyInt st) method order
               = Ok out) /\
  (~ NoDup (map fst df) ->
   resample_dataframe scipy dataframe (PyInt mv) (PyInt st) method order
   = Err DuplicateLabelsError).
Proof.
  intros Hmv Hst HM Hs Hm Hdf.
  assert (Hp : 0 < precision) by reflexivity.
  split.
  - intros Hnd. rewrite resample_int by assumption. fold (samples dataframe).
    rewrite Hdf. cbn [bind].
    now apply (resample_on_returns scipy df _ (PyInt st) method order (st * precision)).
  - intros Hnd.
    apply duplicate_labels_raise
      with (df := df) (a := Np.IntArray (grid (mv * precision) (st * precision)));
      try assumption.
    cbn [py_mul_int]. apply arange_int; [lia | |]; apply model_range; lia.
Qed.

Lemma non_scipy_methods_return_witness :
  exists out,
    resample_dataframe no_scipy [(2.5, 1); (0.5, 4); (2, 6)]%float
      (PyInt 4) (PyInt 1) "values" 1 = Ok out.
Proof.
  apply (non_scipy_methods_return no_scipy [(2.5, 1); (0.5, 4); (2, 6)]%float
           4 1 "values" 1 [(25000, 1%float); (5000, 4%float); (20000, 6%float)]).
  - reflexivity.
  - reflexivity.
  - reflexivity.
  - reflexivity.
  - simpl. tauto.
  - vm_compute. reflexivity.
  - repeat constructor; simpl; intuition discriminate.
Defined.

(** ** Line 36: a horizon that is not positive *)

(** X10: for a Python-int [max_value] that is 0 or negative (and a
    positive Python-int [step]) the grid is empty: a returned frame has
    no tick of its own, only the kept rows whose scaled time is a
    multiple of the step, in the order of the input. *)
Theorem no_horizon_no_grid
    (scipy : string -> Z -> list (float * float) -> list float -> result (list float))
    (dataframe : list (float * float)) (mv st : Z) (method : string) (order : Z)
    (df : list (Z * float)) (out : list (float * float)) :
  mv <= 0 -> 0 < st -> - 2 ^ 53 < mv * precision -> st * precision < 2 ^ 53 ->
  mapM Pd.scale_time (samples dataframe) = Ok df ->
  resample_dataframe scipy dataframe (PyInt mv) (PyInt st) method order = Ok out ->
  map fst out
  = map tick_time (filter (fun k => k mod (st * precision) =? 0) (map fst df)).
Proof.
  intros Hmv Hst HM Hs Hdf Hr.
  assert (Hp : 0 < precision) by reflexivity.
  unfold resample_dataframe in Hr. fold (samples dataframe) in Hr.
  rewrite Hdf in Hr. cbn [bind py_mul_int] in Hr.
  rewrite arange_no_horizon in Hr by lia. cbn [bind] in Hr.
  unfold resample_on in Hr.
  destruct (filtered_on _ _ _ _ _ _) as [rows|e] eqn:Hf; [|discriminate].
  cbn [bind] in Hr. inversion Hr; subst out; clear Hr.
  rewrite rescale_fst. f_equal.
  rewrite (filtered_index _ _ _ _ _ _ _ Hf).
  apply filtered_on_int in Hf as (Hnd & _).
  unfold new_index, Pd.union. 
  replace (match map fst df with [] | _ => map fst df end) with (map fst df)
    by now destruct (map fst df).
  rewrite drop_duplicates_id by now apply zhas_duplicates_false.
  apply filter_ext. intros k. cbn [Pd.mod_is_zero Pd.Int64Label].
  destruct (Z.eqb_spec (st * precision) 0); [lia | reflexivity].
Qed.

Lemma no_horizon_no_grid_witness :
  map fst [(2, 6); (1, 4)]%float
  = map tick_time (filter (fun k => k mod (1 * precision) =? 0)
                     (map fst [(25000, 1%float); (20000, 6%float); (10000, 4%float)])).
Proof.
  apply (no_horizon_no_grid no_scipy [(2.5, 1); (2, 6); (1, 4)]%float
           0 1 "linear" 1 [(25000, 1%float); (20000, 6%float); (10000, 4%float)]
           [(2, 6); (1, 4)]%float).
  - lia.
  - reflexivity.
  - reflexivity.
  - reflexivity.
  - vm_compute. reflexivity.
  - vm_compute. reflexivity.
Defined.

(** ** [main]: the frames it hands to [concat] *)

(** X11: the grid of [main]: [np.arange(0, 3600 * 10^4, 0.01 * 10^4)] is
    the [float64] array of the integers [0, 100, 200, ..., 35999900],
    each of them exact, so that every grid label passes the test
    [label % 100 == 0] of line 44. *)
Theorem main_grid_is_exact :
  Np.arange (py_mul_int (PyInt 3600) precision) (py_mul_int (PyFloat 0.01) precision)
  = Ok (Np.FloatArray (map F64.of_Z (grid 36000000 100))) /\
  py_int (py_mul_int (PyFloat 0.01) precision) = Ok 100 /\
  Z.of_nat (List.length (grid 36000000 100)) = 360000 /\
  forall k, In k (grid 36000000 100) ->
    Pd.mod_is_zero (F64.of_Z k) 100 = true.
Proof.
  split; [exact main_arange|]. split; [exact main_step|]. split.
  - unfold grid. rewrite length_map, length_seq.
    change (Np.ceil_div 36000000 100) with 360000. apply Z2Nat.id. lia.
  - intros k Hk. pose proof (grid_mod 36000000 100 k eq_refl Hk) as Hz.
    apply grid_In in Hk as (i & Hi & -> & Hlt); [|lia].
    rewrite float_mod_of_Z by lia. apply mod_is_zero_int; [lia | assumption].
Qed.





(** X14: the values of a frame of [main], when the scaled times are below
    [2^53] in magnitude: a kept row with an observed value whose time is
    a multiple of 0.01 (after scaling) is in the frame at its own time
    with its value rounded to 4 decimals; and as soon as one kept row has
    an observed value, no value of the frame is missing. *)
Theorem main_values
    (scipy : string -> Z -> list (float * float) -> list float -> result (list float))
    (method : string) (dataframe : list (float * float))
    (out : list (float * float)) :
  (forall t v k, In (t, v) (samples dataframe) -> scaled t = Ok k -> Z.abs k < 2 ^ 53) ->
  resampled_dataframe scipy method dataframe = Ok out ->
  (forall t v k, In (t, v) (samples dataframe) -> is_nan v = false ->
     scaled t = Ok k -> k mod 100 = 0 ->
     In (tick_time k, Np.round DECIMAL_POINTS v) out) /\
  (forall t v, In (t, v) (samples dataframe) -> is_nan v = false ->
     Forall (fun r => is_nan (snd r) = false) out).
Proof.
  intros Hb Hr.
  destruct (mapM Pd.scale_time (samples dataframe)) as [df|e] eqn:Hdf.
  2:{ unfold resampled_dataframe, resample_dataframe in Hr.
      fold (samples dataframe) in Hr. rewrite Hdf in Hr. discriminate. }
  assert (Hw : exact_labels (map fst df)).
  { apply Forall_forall. intros k Hk.
    apply in_map_iff in Hk as ([k' v] & E & Hin). simpl in E. subst k'.
    apply (mapM_scale_In _ _ k v Hdf) in Hin as (t & Hin & Ht). now apply (Hb t v). }
  rewrite (resampled_dataframe_int_grid scipy method dataframe df Hdf Hw) in Hr.
  unfold resample_on in Hr.
  destruct (filtered_on _ _ _ _ _ _) as [rows|e] eqn:Hf; [|discriminate].
  cbn [bind] in Hr. inversion Hr; subst out; clear Hr.
  split.
  - intros t v k Hin Hv Hk Hz.
    apply in_map_iff. exists (k, Np.round DECIMAL_POINTS v). split; [reflexivity|].
    apply (observed_on_index scipy df _ _ _ _ rows 100 k v main_step eq_refl Hf);
      try assumption.
    apply (mapM_scale_In _ _ k v Hdf). now exists t.
  - intros t v Hin Hv.
    destruct (mapM_scale_row _ _ t v Hdf Hin) as (k & _ & Hkv).
    pose proof (complete_on_index scipy df _ _ _ _ rows k v Hf Hkv Hv) as Hall.
    rewrite Forall_forall in Hall |- *.
    intros r Hr. apply in_map_iff in Hr as (r' & <- & Hr'). now apply Hall.
Qed.

Lemma main_values_witness :
  exists out,
    resampled_dataframe no_scipy "ffill" [(1, 5.00004); (2.5, nan)]%float = Ok out /\
    In (tick_time 10000, Np.round DECIMAL_POINTS 5.00004%float) out /\
    Forall (fun r => is_nan (snd r) = false) out.
Proof.
  destruct (resampled_dataframe_returns no_scipy "ffill"
              [(1, 5.00004); (2.5, nan)]%float [(10000, 5.00004%float); (25000, nan)])
    as (out & E).
  - simpl. tauto.
  - reflexivity.
  - repeat constructor; simpl; intuition discriminate.
  - repeat constructor.
  - exists out. split; [exact E|].
    destruct (main_values no_scipy "ffill" [(1, 5.00004); (2.5, nan)]%float out)
      as [Hrow Hall].
    + intros t v k [H|[H|[]]] Hk; inversion H; subst; vm_compute in Hk;
        inversion Hk; reflexivity.
    + exact E.
    + split.
      * apply (Hrow 1%float 5.00004%float 10000); try reflexivity. now left.
      * apply (Hall 1%float 5.00004%float); [now left | reflexivity].
Defined.

(** ** The order of the rows *)

(** X15: the order of the rows does not matter when their times are
    pairwise different: the call gives the same frame, or the same
    exception, on every permutation of the input.  This holds for Python
    ints [max_value] and [step], both positive, and for the arguments of
    [main] when the scaled times are below [2^53] in magnitude. *)
Theorem row_order_is_irrelevant
    (scipy : string -> Z -> list (float * float) -> list float -> result (list float))
    (dataframe dataframe' : list (float * float)) (df : list (Z * float))
    (method : string) :
  Permutation dataframe dataframe' ->
  Pd.has_duplicates Pd.same_time dataframe = false ->
  mapM Pd.scale_time dataframe = Ok df ->
  (forall mv st order,
     0 < mv -> 0 < st -> mv * precision < 2 ^ 53 -> st * precision < 2 ^ 53 ->
     resample_dataframe scipy dataframe (PyInt mv) (PyInt st) method order
     = resample_dataframe scipy dataframe' (PyInt mv) (PyInt st) method order) /\
  (exact_labels (map fst df) ->
   resampled_dataframe scipy method dataframe
   = resampled_dataframe scipy method dataframe').
Proof.
  intros Hp Hd Hdf.
  assert (Hd' : Pd.has_duplicates Pd.same_time dataframe' = false).
  { rewrite <- (has_duplicates_perm Pd.same_time dataframe dataframe'); [assumption| |assumption].
    intros a b. apply key_eqb_sym. }
  assert (Hs : samples dataframe = dataframe) by now apply drop_duplicates_id.
  assert (Hs' : samples dataframe' = dataframe') by now apply drop_duplicates_id.
  destruct (mapM_perm _ _ _ _ Hp Hdf) as (df' & Hdf' & Hpdf).
  split.
  - intros mv st order Hmv Hst HM Hst1.
    assert (Hpr : 0 < precision) by reflexivity.
    rewrite !resample_int by assumption.
    fold (samples dataframe). fold (samples dataframe').
    rewrite Hs, Hs', Hdf, Hdf'. cbn [bind].
    apply (resample_on_perm scipy df df' _ (PyInt st) method order Hpdf).
    + apply grid_sorted; lia.
    + apply grid_nonempty; lia.
  - intros Hw.
    assert (Hw' : exact_labels (map fst df')).
    { unfold exact_labels in *. rewrite Forall_forall in *. intros k Hk. apply Hw.
      now apply (Permutation_in _ (Permutation_sym (Permutation_map fst Hpdf))). }
    rewrite (resampled_dataframe_int_grid scipy method dataframe df),
            (resampled_dataframe_int_grid scipy method dataframe' df');
      try assumption; try congruence.
    apply resample_on_perm; [assumption | |].
    + now apply grid_sorted.
    + now apply grid_nonempty.
Qed.

Lemma row_order_is_irrelevant_witness :
  resample_dataframe no_scipy [(0.5, 4); (2, 6); (2.25, 1)]%float
    (PyInt 4) (PyInt 1) "index" 1
  = resample_dataframe no_scipy [(2.25, 1); (0.5, 4); (2, 6)]%float
    (PyInt 4) (PyInt 1) "index" 1.
Proof.
  destruct (row_order_is_irrelevant no_scipy
              [(0.5, 4); (2, 6); (2.25, 1)]%float [(2.25, 1); (0.5, 4); (2, 6)]%float
              [(5000, 4%float); (20000, 6%float); (22500, 1%float)] "index")
    as [H _].
  - apply Permutation_sym.
    apply (Permutation_cons_app [(0.5, 4); (2, 6)]%float [] (2.25, 1)%float).
    apply Permutation_refl.
  - reflexivity.
  - vm_compute. reflexivity.
  - apply H; reflexivity.
Defined.

(** ** The fill methods *)

(** X16: with a fill method ([ffill], [pad], [bfill], [backfill]) the
    call copies values and computes none: every value of a returned frame
    is missing or is the value of a kept row, rounded to 4 decimals, for
    every [max_value] and [step]. *)
Theorem fill_methods_copy_values
    (scipy : string -> Z -> list (float * float) -> list float -> result (list float))
    (dataframe : list (float * float)) (max_value step : pynum)
    (method : string) (order : Z) (out : list (float * float)) :
  In method ["ffill"; "pad"; "bfill"; "backfill"]%string ->
  resample_dataframe scipy dataframe max_value step method order = Ok out ->
  Forall (fun r => is_nan (snd r) = true \/
                   exists t v, In (t, v) (samples dataframe) /\
                               snd r = Np.round DECIMAL_POINTS v) out.
Proof.
  intros Hm Hr. apply resample_dataframe_stages in Hr as (df & Hdf & H).
  set (S := fun y : float => exists k, In (k, y) df).
  assert (Hcol : forall (L : Type) (HL : Pd.Label L) (idx : list L) (ys : list float),
            Pd.interpolate scipy method order idx (map (Pd.lookup df) idx) = Ok ys ->
            Forall (fun y => is_nan y = true \/ S y) (Pd.bfill (Pd.ffill ys))).
  { intros L HL idx ys Hi. apply bfill_from, ffill_from_from; [now left|].
    pose proof (lookup_from df idx) as Hl. fold S in Hl.
    assert (Hcases : Pd.mem method Pd.FORWARD_FILL = true \/
                     (Pd.mem method Pd.FORWARD_FILL = false /\
                      Pd.mem method Pd.BACKWARD_FILL = true)).
    { simpl in Hm. destruct Hm as [<-|[<-|[<-|[<-|[]]]]];
        [left | left | right | right]; try split; reflexivity. }
    destruct Hcases as [Hf|[Hf Hb]].
    - destruct (interpolate_forward_fill scipy method order idx
                  (map (Pd.lookup df) idx) Hf) as [E| ->].
      + rewrite E in Hi. inversion Hi; subst ys.
        apply ffill_from_from; [now left | exact Hl].
      + inversion Hi; subst ys. exact Hl.
    - destruct (interpolate_backward_fill scipy method order idx
                  (map (Pd.lookup df) idx) Hf Hb) as [E| ->].
      + rewrite E in Hi. inversion Hi; subst ys. apply bfill_from. exact Hl.
      + inversion Hi; subst ys. exact Hl. }
  assert (Hrows : forall (L : Type) (HL : Pd.Label L) (g : list L) (rows : list (L * float)),
            filtered_on scipy df g step method order = Ok rows ->
            Forall (fun r => is_nan (snd r) = true \/
                      exists t v, In (t, v) (samples dataframe) /\
                                  snd r = Np.round DECIMAL_POINTS v)
              (map rescale rows)).
  { intros L HL g rows Hf.
    apply filtered_on_stages in Hf as (ys & d & _ & Hi & _ & ->).
    apply Hcol in Hi. rewrite Forall_forall in Hi |- *.
    intros r Hin. apply in_map_iff in Hin as ([x y] & <- & Hin). simpl.
    apply filter_In in Hin as [Hin _]. apply in_combine_r in Hin.
    apply in_map_iff in Hin as (y' & <- & Hy').
    destruct (Hi y' Hy') as [Hn|(k & Hk)].
    - left. rewrite (is_nan_eq y' Hn), round_nan. reflexivity.
    - right. apply (mapM_scale_In _ _ k y' Hdf) in Hk as (t & Hin & _).
      now exists t, y'. }
  destruct H as [H|H]; destruct H as (g & rows & _ & Hf & ->); now apply Hrows in Hf.
Qed.

Lemma fill_methods_copy_values_witness :
  Forall (fun r => is_nan (snd r) = true \/
                   exists t v, In (t, v) (samples [(0.7, 2.00004); (1.2, 8)]%float) /\
                               snd r = Np.round DECIMAL_POINTS v)
    [(0, 2); (0.5, 2); (1, 2); (1.5, 8)]%float.
Proof.
  apply (fill_methods_copy_values no_scipy [(0.7, 2.00004); (1.2, 8)]%float
           (PyInt 2) (PyFloat 0.5) "pad" 1).
  - simpl. tauto.
  - vm_compute. reflexivity.
Defined.
